(** * djwt: token validation (validate.ts)

    A shallow embedding of [validate.ts]: the structural validator
    [validateJwtObject], the critical-header dispatcher [checkHeaderCrit],
    the algorithm gate [validateAlgorithm], the decoder [parseAndDecode]
    and the orchestrator [validateJwt], followed by the properties of the
    specification that concern them.

    Conventions of the embedding.
    - A JavaScript number is an IEEE 754 binary64 value ([Number]): the
      results of [exp + leeway] and of [Date.now() / 1000] are rounded to
      nearest, ties to even, and compared as binary64 values.  A number of a
      JSON text is kept as the rational its text denotes ([JNumber q]) and
      becomes a number, as [JSON.parse] makes it one, by [toNumber].
    - [throw] becomes the left injection of a sum; the thrown value is a
      [Thrown].
    - A promise is modelled by its settled state; handlers and the signer
      are assumed to settle.
    - The wall clock is an explicit argument: [now] is the value of
      [Date.now()] (milliseconds) read by [isExpired], [errDate] the value of
      [new Date()] taken when a [JwtError] is built.
    - A property read [x[key]] on an object produced by [JSON.parse] looks
      at the object's own members and then at [Object.prototype].
    - The base64url decoder, the JSON parser, the hex encoder and [makeJwt]
      live outside [validate.ts]; they are parameters of the development. *)

From Stdlib Require Import String Ascii List ZArith QArith Qround Qpower Qabs Bool Lia Lqa.
From Stdlib Require Import SpecFloat.
Import ListNotations.

Local Open Scope string_scope.
Local Open Scope list_scope.

(** ** Numbers *)

(** A JavaScript number is an IEEE 754 binary64 value: [NaN], an infinity,
    or a finite value, given here by the rational it denotes.  The sign of a
    zero is dropped: no operation used by the module tells the two zeros
    apart. *)
Inductive Number : Type :=
  | NaN
  | Infinity (negative : bool)
  | Finite (q : Q).

(** [2^e], for any integer [e]. *)
Definition pow2 (e : Z) : Q := Qpower 2 e.

(** Rounding to the nearest integer, a tie going to the even one. *)
Definition roundHalfEven (s : Q) : Z :=
  let f := Qfloor s in
  match Qcompare (s - inject_Z f) (1 # 2) with
  | Lt => f
  | Gt => (f + 1)%Z
  | Eq => if Z.even f then f else (f + 1)%Z
  end.

(** [floor (log2 q)] for a positive [q]. *)
Definition floorLog2 (q : Q) : Z :=
  let k := (Z.log2 (Qnum q) - Z.log2 (Zpos (Qden q)))%Z in
  if Qle_bool (pow2 k) q then k else (k - 1)%Z.

(** The exponent of the last place of the significand of [q]: 52 binary
    places below the leading bit, and never below that of the least
    subnormal number, [2^-1074]. *)
Definition ulpExponent (q : Q) : Z :=
  Z.max (floorLog2 (Qabs q) - 52) (-1074).

(** [q] rounded to a multiple of its last place: 53 significant bits. *)
Definition roundToSignificand (q : Q) : Q :=
  if Qeq_bool q 0 then 0
  else inject_Z (roundHalfEven (q / pow2 (ulpExponent q))) * pow2 (ulpExponent q).

Definition Qltb (x y : Q) : bool := negb (Qle_bool y x).

(** The binary64 number nearest to the exact result [q] of an operation:
    rounding to nearest, ties to even; a rounded magnitude of [2^1024] or
    more gives an infinity. *)
Definition round64 (q : Q) : Number :=
  let r := roundToSignificand q in
  if Qle_bool (pow2 1024) (Qabs r) then Infinity (Qltb r 0) else Finite r.

(** The number that a numeric literal of value [q] denotes. *)
Definition toNumber (q : Q) : Number := round64 q.

(** [x + y] *)
Definition addNumbers (x y : Number) : Number :=
  match x, y with
  | NaN, _ => NaN
  | _, NaN => NaN
  | Infinity a, Infinity b => if Bool.eqb a b then Infinity a else NaN
  | Infinity a, Finite _ => Infinity a
  | Finite _, Infinity b => Infinity b
  | Finite a, Finite b => round64 (a + b)
  end.

(** [x < y] *)
Definition lessThan (x y : Number) : bool :=
  match x, y with
  | NaN, _ => false
  | _, NaN => false
  | Infinity a, Infinity b => a && negb b
  | Infinity a, Finite _ => a
  | Finite _, Infinity b => negb b
  | Finite a, Finite b => Qltb a b
  end.

(** [x === y] on numbers *)
Definition equalNumbers (x y : Number) : bool :=
  match x, y with
  | Infinity a, Infinity b => Bool.eqb a b
  | Finite a, Finite b => Qeq_bool a b
  | _, _ => false
  end.

(** ** JSON values and property access *)

Set Warnings "-register-all".

(** [JNumber q] is the number whose JSON text denotes the rational [q]; as a
    JavaScript value it is [toNumber q]. *)

Inductive JsonValue : Type :=
  | JNull
  | JBool (b : bool)
  | JNumber (q : Q)
  | JString (s : string)
  | JArray (items : list JsonValue)
  | JObject (members : list (string * JsonValue)).

(** [Array.prototype.includes] / [Set.prototype.has] on strings. *)
Definition includes (l : list string) (x : string) : bool :=
  existsb (String.eqb x) l.

(** What a property read [x[key]] on a value produced by [JSON.parse] can
    give: nothing, a JSON value stored in the object itself, or a member the
    object inherits from [Object.prototype]. *)
Inductive JsValue : Type :=
  | Undefined
  | Json (j : JsonValue)
  | Inherited (name : string).

(** The property names every plain object inherits from [Object.prototype]:
    eleven functions and the accessor [__proto__]. *)
Definition objectPrototypeFunctions : list string :=
  [ "constructor"; "__defineGetter__"; "__defineSetter__"; "hasOwnProperty";
    "__lookupGetter__"; "__lookupSetter__"; "isPrototypeOf";
    "propertyIsEnumerable"; "toString"; "valueOf"; "toLocaleString" ].

Definition objectPrototypeMembers : list string :=
  objectPrototypeFunctions ++ ["__proto__"].


Fixpoint ownProperty (key : string) (members : list (string * JsonValue))
  : option JsonValue :=
  match members with
  | [] => None
  | (k, v) :: rest => if String.eqb key k then Some v else ownProperty key rest
  end.

(** [x[key]]: own properties first, then the prototype chain.  Reads on
    values that are not plain objects are not needed by the validator (every
    such read is guarded by [isObject]) and give [Undefined]. *)
Definition getProperty (x : JsonValue) (key : string) : JsValue :=
  match x with
  | JObject members =>
      match ownProperty key members with
      | Some v => Json v
      | None =>
          if includes objectPrototypeMembers key then Inherited key
          else Undefined
      end
  | _ => Undefined
  end.

Definition typeof (v : JsValue) : string :=
  match v with
  | Undefined => "undefined"
  | Json JNull => "object"
  | Json (JBool _) => "boolean"
  | Json (JNumber _) => "number"
  | Json (JString _) => "string"
  | Json (JArray _) => "object"
  | Json (JObject _) => "object"
  | Inherited name =>
      if includes objectPrototypeFunctions name then "function" else "object"
  end.

Definition isArray (v : JsValue) : bool :=
  match v with
  | Json (JArray _) => true
  | _ => false
  end.

Definition isNull (v : JsonValue) : bool :=
  match v with
  | JNull => true
  | _ => false
  end.

(** [obj !== null && typeof obj === "object" && Array.isArray(obj) === false] *)
Definition isObject (obj : JsonValue) : bool :=
  negb (isNull obj)
  && String.eqb (typeof (Json obj)) "object"
  && Bool.eqb (isArray (Json obj)) false.

(** [key in x], for [x] a plain object: the module applies [hasProperty]
    and the operator [in] to values that have passed [isObject], or to the
    header of a token that has passed [validateJwtObject].  (On an array
    [in] also answers for indices and for the members of [Array.prototype],
    and on a primitive it throws; neither case arises.) *)
Definition hasProperty (key : string) (x : JsonValue) : bool :=
  match getProperty x key with
  | Undefined => false
  | _ => true
  end.

(** [a === b] on values of two different decodings: primitives compare by
    value, arrays and objects by identity, and two decodings never share an
    object. *)
Definition strictEquals (a b : JsonValue) : bool :=
  match a, b with
  | JNull, JNull => true
  | JBool x, JBool y => Bool.eqb x y
  | JNumber x, JNumber y => equalNumbers (toNumber x) (toNumber y)
  | JString x, JString y => String.eqb x y
  | _, _ => false
  end.

(** ** Thrown values *)

(** A thrown value, as far as the [catch] block of [validateJwt] can tell
    values apart: it only reads [err.message].  [OtherValue m] is any value
    that is neither an [Error] built with a message nor nullish; [m] is its
    [message] property when that is a string.  Values whose [message] is an
    accessor that throws, or a symbol, are left out. *)
Inductive Thrown : Type :=
  | ErrorObject (name : string) (message : string)
  | OtherValue (message : option string)
  | NullOrUndefined.

Definition Error (message : string) : Thrown := ErrorObject "Error" message.
Definition TypeError (message : string) : Thrown := ErrorObject "TypeError" message.
Definition ReferenceError (message : string) : Thrown :=
  ErrorObject "ReferenceError" message.
Definition RangeError (message : string) : Thrown := ErrorObject "RangeError" message.

Definition Throwing (A : Type) : Type := (Thrown + A)%type.

Definition bind {A B : Type} (m : Throwing A) (k : A -> Throwing B) : Throwing B :=
  match m with
  | inl e => inl e
  | inr a => k a
  end.

Notation "'let*' x ':=' m 'in' k" := (bind m (fun x => k))
  (at level 10, x pattern, m at level 100, k at level 200).

(** [list.map(f)] where [f] may throw: the first exception aborts the map. *)
Fixpoint mapThrowing {A B : Type} (f : A -> nat -> Throwing B) (index : nat)
    (l : list A) : Throwing (list B) :=
  match l with
  | [] => inr []
  | a :: rest =>
      let* b := f a index in
      let* bs := mapThrowing f (S index) rest in
      inr (b :: bs)
  end.

(** [jwt.split(".")] *)
Fixpoint split (s : string) : list string :=
  match s with
  | EmptyString => [EmptyString]
  | String c rest =>
      if Ascii.eqb c "." then EmptyString :: split rest
      else match split rest with
           | seg :: segs => String c seg :: segs
           | [] => [String c EmptyString]
           end
  end.

(** ** Time *)

(** [Date.now() / 1000]; [now] is the integer that [Date.now()] gives. *)
Definition currentUnixTime (now : Z) : Number := round64 (inject_Z now / 1000).

(** [isExpired(exp, leeway = 0)]; an omitted [leeway] is [None]. *)
Definition isExpired (exp : Number) (leeway : option Number) (now : Z) : bool :=
  let leeway := match leeway with Some l => l | None => Finite 0 end in
  lessThan (addNumbers exp leeway) (currentUnixTime now).

Arguments isExpired : simpl never.

(** ** Records of the module *)

Record JwtObjectWithUnknownProps : Type := mkJwtObject {
  header : JsonValue;
  payload : JsonValue;
  signature : JsonValue
}.

(** [JwtError]: the message that was passed in and the construction date. *)
Record JwtError : Type := mkJwtError {
  message : option string;
  date : Z
}.

(** [Algorithm | Algorithm[]] *)
Inductive AlgorithmArg : Type :=
  | OneAlgorithm (a : string)
  | ManyAlgorithms (l : list string).

(** ** Structural validator *)

Definition expiredMessage : string := "the jwt is expired".

Definition validateJwtObject (now : Z) (maybeJwtObject : JwtObjectWithUnknownProps)
  : Throwing JwtObjectWithUnknownProps :=
  if negb (String.eqb (typeof (Json (signature maybeJwtObject))) "string") then
    inl (ReferenceError "the signature is no string")
  else if negb (isObject (header maybeJwtObject)
                && hasProperty "alg" (header maybeJwtObject)
                && String.eqb (typeof (getProperty (header maybeJwtObject) "alg")) "string")
  then inl (ReferenceError "header parameter 'alg' is not a string")
  else if isObject (payload maybeJwtObject) && hasProperty "exp" (payload maybeJwtObject)
  then
    match getProperty (payload maybeJwtObject) "exp" with
    | Json (JNumber exp) =>
        if isExpired (toNumber exp) (Some (Finite 1)) now
        then inl (RangeError expiredMessage)
        else inr maybeJwtObject
    | _ => inl (RangeError "claim 'exp' is not a number")
    end
  else inr maybeJwtObject.

(** ** Algorithm gate *)

(** [(Array.isArray(algorithm) && algorithm.includes(jwtAlg)) || algorithm === jwtAlg];
    an array is never [===] to a string. *)
Definition validateAlgorithm (algorithm : AlgorithmArg) (jwtAlg : string) : bool :=
  match algorithm with
  | ManyAlgorithms l => includes l jwtAlg
  | OneAlgorithm _ => false
  end
  || match algorithm with
     | OneAlgorithm a => String.eqb a jwtAlg
     | ManyAlgorithms _ => false
     end.

(** ** Critical-header handlers *)

(** How a handler call ends: it returns a value (or a promise that is
    fulfilled with it), throws, or returns a promise that is rejected.
    [tick] orders rejections in time: [Promise.all] rejects with the first
    one.  A handler is taken to be a function of its argument. *)
Inductive Completion (R : Type) : Type :=
  | Return (r : R)
  | Throw (e : Thrown)
  | RejectAt (tick : nat) (e : Thrown).

Arguments Return {R} r.
Arguments Throw {R} e.
Arguments RejectAt {R} tick e.

(** A handler receives [header[str]]. *)
Definition Handler (R : Type) : Type := JsValue -> Completion R.

(** The handler table, seen through [handlers[str]]: [Some f] when the
    property read gives a function [f], [None] otherwise. *)
Definition Handlers (R : Type) : Type := string -> option (Handler R).

Fixpoint ownHandler {R : Type} (name : string) (own : list (string * Handler R))
  : option (Handler R) :=
  match own with
  | [] => None
  | (k, f) :: rest => if String.eqb name k then Some f else ownHandler name rest
  end.

(** A handler table written as an object literal [{ name: f, ... }]: the
    read [handlers[str]] finds the function registered under [str] or, when
    there is none, the function of that name inherited from
    [Object.prototype], if any.  [inherited name] is that inherited function,
    called as a method of the table. *)
Definition objectLiteral {R : Type} (own : list (string * Handler R))
    (inherited : string -> Handler R) : Handlers R :=
  fun str =>
    match ownHandler str own with
    | Some f => Some f
    | None =>
        if includes objectPrototypeFunctions str then Some (inherited str)
        else None
    end.

(** A handler invocation: the [crit] entry and the argument passed. *)
Definition Call : Type := (string * JsValue)%type.

Definition reservedWords : list string :=
  [ "alg"; "jku"; "jwk"; "kid"; "x5u"; "x5c"; "x5t"; "x5t#S256"; "typ"; "cty";
    "crit"; "enc"; "zip"; "epk"; "apu"; "apv"; "iv"; "tag"; "p2s"; "p2c" ].

(** The entries of [header.crit] are used as strings once the first check of
    [checkHeaderCrit] has established that they are. *)
Definition asString (v : JsonValue) : string :=
  match v with
  | JString s => s
  | _ => EmptyString
  end.

(** [typeof str !== "string" || !str] *)
Definition notNonEmptyString (v : JsonValue) : bool :=
  negb (String.eqb (typeof (Json v)) "string") || String.eqb (asString v) "".

Section Dispatch.

Variable R : Type.

(** [handlers?.[str]], when it is a function. *)
Definition handlerFor (handlers : option (Handlers R)) (str : string)
  : option (Handler R) :=
  match handlers with
  | None => None
  | Some hs => hs str
  end.

(** [typeof handlers?.[str] !== "function"] *)
Definition noHandler (handlers : option (Handlers R)) (str : string) : bool :=
  match handlerFor handlers str with
  | Some _ => false
  | None => true
  end.

(** [typeof header[str] === "undefined" || typeof handlers?.[str] !== "function"] *)
Definition notUnderstood (header : JsonValue) (handlers : option (Handlers R))
    (v : JsonValue) : bool :=
  String.eqb (typeof (getProperty header (asString v))) "undefined"
  || noHandler handlers (asString v).

(** [header.crit.map((str) => handlers![str](header[str]))]: the calls are
    made from left to right; a handler that throws aborts the map.  The
    result lists the promises obtained, each by its settled state. *)
Fixpoint callHandlers (header : JsonValue) (handlers : option (Handlers R))
    (crit : list JsonValue) : list Call * Throwing (list ((nat * Thrown) + R)) :=
  match crit with
  | [] => ([], inr [])
  | v :: rest =>
      let str := asString v in
      match handlerFor handlers str with
      | None => ([], inl (TypeError "handlers[str] is not a function"))
      | Some f =>
          let arg := getProperty header str in
          match f arg with
          | Throw e => ([(str, arg)], inl e)
          | Return r =>
              let (calls, ps) := callHandlers header handlers rest in
              ((str, arg) :: calls, let* l := ps in inr (inr r :: l))
          | RejectAt tick e =>
              let (calls, ps) := callHandlers header handlers rest in
              ((str, arg) :: calls, let* l := ps in inr (inl (tick, e) :: l))
          end
      end
  end.

(** The rejection that settles first; among equal ticks the leftmost. *)
Fixpoint firstRejection (ps : list ((nat * Thrown) + R)) : option (nat * Thrown) :=
  match ps with
  | [] => None
  | inr _ :: rest => firstRejection rest
  | inl (t, e) :: rest =>
      match firstRejection rest with
      | Some (t', e') => if Nat.ltb t' t then Some (t', e') else Some (t, e)
      | None => Some (t, e)
      end
  end.

Fixpoint fulfilledValues (ps : list ((nat * Thrown) + R)) : list R :=
  match ps with
  | [] => []
  | inr r :: rest => r :: fulfilledValues rest
  | inl _ :: rest => fulfilledValues rest
  end.

(** [Promise.all(ps)] *)
Definition promiseAll (ps : list ((nat * Thrown) + R)) : Throwing (list R) :=
  match firstRejection ps with
  | Some (_, e) => inl e
  | None => inr (fulfilledValues ps)
  end.

Definition checkHeaderCrit (header : JsonValue) (handlers : option (Handlers R))
  : list Call * Throwing (list R) :=
  match getProperty header "crit" with
  | Json (JArray crit) =>
      if existsb notNonEmptyString crit then
        ([], inl (Error "header parameter 'crit' must be an array of non-empty strings"))
      else if existsb (fun str => includes reservedWords (asString str)) crit then
        ([], inl (Error "the 'crit' list contains a non-extension header parameter"))
      else if existsb (notUnderstood header handlers) crit then
        ([], inl (Error "critical extension header parameters are not understood"))
      else
        let (calls, ps) := callHandlers header handlers crit in
        (calls, let* l := ps in promiseAll l)
  | _ =>
      ([], inl (Error "header parameter 'crit' must be an array of non-empty strings"))
  end.

(** [handleJwtObject]: the dispatcher runs only if ["crit" in header]. *)
Definition handleJwtObject (jwtObject : JwtObjectWithUnknownProps)
    (critHandlers : option (Handlers R))
  : list Call * Throwing (JwtObjectWithUnknownProps * option (list R)) :=
  if hasProperty "crit" (header jwtObject) then
    let (calls, r) := checkHeaderCrit (header jwtObject) critHandlers in
    (calls, let* critResult := r in inr (jwtObject, Some critResult))
  else ([], inr (jwtObject, None)).

End Dispatch.

(** ** Imported functions *)

(** What [validate.ts] imports or takes from the platform.
    - [convertBase64urlToUint8Array] (./base64/base64url.ts);
    - [parseJson u] is [JSON.parse(new TextDecoder().decode(u))];
    - [convertUint8ArrayToHex] (std/encoding/hex.ts, [encodeToString]);
    - [makeJwt] (./create.ts), applied to [{ ...oldJwtObject, key }]; a
      rejected promise and a thrown exception are the same to the [await]
      inside [try]. *)
Class Imports : Type := {
  convertBase64urlToUint8Array : string -> Throwing (list Byte.byte);
  parseJson : list Byte.byte -> Throwing JsonValue;
  convertUint8ArrayToHex : list Byte.byte -> string;
  makeJwt : JwtObjectWithUnknownProps -> string -> Throwing string
}.

(** ** Decoder *)

Section Decode.

Context {imports : Imports}.

Definition parseAndDecode (jwt : string) : Throwing JwtObjectWithUnknownProps :=
  let* uint8Arrays :=
    mapThrowing (fun segment _ => convertBase64urlToUint8Array segment) 0 (split jwt) in
  let* parsedArray :=
    mapThrowing
      (fun uint8Array index =>
         if Nat.eqb index 2 then inr (JString (convertUint8ArrayToHex uint8Array))
         else parseJson uint8Array)
      0 uint8Arrays in
  if negb (Nat.eqb (length parsedArray) 3) then inl (TypeError "invalid serialization")
  else inr {| header := nth 0 parsedArray JNull;
              payload := nth 1 parsedArray JNull;
              signature := nth 2 parsedArray JNull |}.

End Decode.

(** ** Orchestrator *)

Record Validation (R : Type) : Type := mkValidation {
  jwt : string;
  key : string;
  algorithm : AlgorithmArg;
  critHandlers : option (Handlers R)
}.

Arguments mkValidation {R} jwt key algorithm critHandlers.
Arguments jwt {R} v.
Arguments key {R} v.
Arguments algorithm {R} v.
Arguments critHandlers {R} v.

(** [JwtValidation]: the two shapes of the result.  [Valid] spreads the
    validated object and adds [jwt] and [critResult] ([None] is
    [undefined]); [Invalid] echoes [jwt] and carries the error record and the
    [isExpired] flag. *)
Inductive JwtValidation (R : Type) : Type :=
  | Valid (object : JwtObjectWithUnknownProps) (jwt : string)
      (critResult : option (list R))
  | Invalid (jwt : string) (error : JwtError) (isExpired : bool).

Arguments Valid {R} object jwt critResult.
Arguments Invalid {R} jwt error isExpired.

Definition isValid {R : Type} (v : JwtValidation R) : bool :=
  match v with
  | Valid _ _ _ => true
  | Invalid _ _ _ => false
  end.

(** The promise returned by an [async] function, once settled. *)
Inductive Settled (A : Type) : Type :=
  | Fulfilled (a : A)
  | Rejected (e : Thrown).

Arguments Fulfilled {A} a.
Arguments Rejected {A} e.

(** [err.message]: reading a property of [null] or [undefined] raises a
    [TypeError] (whose own text is the engine's). *)
Definition readMessage (err : Thrown) : Throwing (option string) :=
  match err with
  | ErrorObject _ m => inr (Some m)
  | OtherValue m => inr m
  | NullOrUndefined => inl (TypeError "cannot read property 'message'")
  end.

(** [m === "the jwt is expired" ? true : false] *)
Definition isExpiredMessage (m : option string) : bool :=
  match m with
  | Some s => String.eqb s expiredMessage
  | None => false
  end.

(** [oldJwtObject.header.alg], a string once [validateJwtObject] passed. *)
Definition algOf (jwtObject : JwtObjectWithUnknownProps) : string :=
  match getProperty (header jwtObject) "alg" with
  | Json (JString a) => a
  | _ => EmptyString
  end.

Section Orchestrate.

Context {imports : Imports}.
Variable R : Type.

(** The body of [try]. *)
Definition tryBlock (v : Validation R) (now : Z)
  : list Call * Throwing (JwtValidation R) :=
  match (let* decoded := parseAndDecode (jwt v) in validateJwtObject now decoded) with
  | inl e => ([], inl e)
  | inr validated =>
      let (calls, handled) := handleJwtObject R validated (critHandlers v) in
      (calls,
       let* (oldJwtObject, critResult) := handled in
       if negb (validateAlgorithm (algorithm v) (algOf oldJwtObject)) then
         inl (Error ("no matching algorithm: " ++ algOf oldJwtObject))
       else
         let* newJwt := makeJwt oldJwtObject (key v) in
         let* newJwtObject := parseAndDecode newJwt in
         if negb (strictEquals (signature oldJwtObject) (signature newJwtObject)) then
           inl (Error "signatures don't match")
         else inr (Valid oldJwtObject (jwt v) critResult))
  end.

(** The body of [catch (err)]. *)
Definition catchBlock (v : Validation R) (errDate : Z) (err : Thrown)
  : Settled (JwtValidation R) :=
  match readMessage err with
  | inl e => Rejected e
  | inr m =>
      Fulfilled (Invalid (jwt v) {| message := m; date := errDate |}
                   (isExpiredMessage m))
  end.

(** [validateJwt]: the handler invocations made and the settled promise. *)
Definition validateJwt (v : Validation R) (now errDate : Z)
  : list Call * Settled (JwtValidation R) :=
  let (calls, r) := tryBlock v now in
  (calls,
   match r with
   | inr result => Fulfilled result
   | inl err => catchBlock v errDate err
   end).

End Orchestrate.

Arguments validateJwt {imports R} v now errDate.
Arguments tryBlock {imports R} v now.
Arguments catchBlock {R} v errDate err.
Arguments checkHeaderCrit {R} header handlers.
Arguments handleJwtObject {R} jwtObject critHandlers.
Arguments callHandlers {R} header handlers crit.
Arguments promiseAll {R} ps.
Arguments firstRejection {R} ps.
Arguments fulfilledValues {R} ps.
Arguments notUnderstood {R} header handlers v.
Arguments noHandler {R} handlers str.
Arguments handlerFor {R} handlers str.

(** ** A concrete instance of the imports

    Used to run the validator on explicit tokens.  A segment is accepted by
    the decoder when it is made of base64url characters and stands for its
    own bytes; the JSON parser knows a fixed set of documents by name; the
    signer puts the key in the signature segment of the token it builds. *)
Module Bench.

Definition isBase64urlChar (c : ascii) : bool :=
  let n := N_of_ascii c in
  ((65 <=? n) && (n <=? 90) || (97 <=? n) && (n <=? 122)
   || (48 <=? n) && (n <=? 57) || (n =? 45) || (n =? 95))%N.

Definition decodeSegment (segment : string) : Throwing (list Byte.byte) :=
  if forallb isBase64urlChar (list_ascii_of_string segment)
  then inr (list_byte_of_string segment)
  else inl (TypeError "Illegal base64url string!").

Definition documents : list (string * JsonValue) :=
  [ ("hs256", JObject [("alg", JString "HS256")]);
    ("empty", JObject []);
    ("old", JObject [("exp", JNumber 1)]);
    ("n42", JNumber 42);
    ("critAlg", JObject [("alg", JString "HS256"); ("crit", JArray [JString "alg"])]);
    ("critX", JObject [("alg", JString "HS256"); ("crit", JArray [JString "x"]);
                       ("x", JNumber 1)]);
    ("critToString",
     JObject [("alg", JString "HS256"); ("crit", JArray [JString "toString"])]) ].

Definition parseDocument (u : list Byte.byte) : Throwing JsonValue :=
  match ownProperty (string_of_list_byte u) documents with
  | Some j => inr j
  | None => inl (ErrorObject "SyntaxError" "Unexpected token")
  end.

Definition hexDigit (n : N) : ascii :=
  ascii_of_N (if (n <? 10)%N then 48 + n else 87 + n).

Fixpoint hex (u : list Byte.byte) : string :=
  match u with
  | [] => EmptyString
  | b :: rest =>
      let n := Byte.to_N b in
      String (hexDigit (n / 16)) (String (hexDigit (n mod 16)) (hex rest))
  end.

Definition sign (jwtObject : JwtObjectWithUnknownProps) (key : string)
  : Throwing string :=
  inr ("hs256.empty." ++ key)%string.

Definition imports : Imports :=
  {| convertBase64urlToUint8Array := decodeSegment;
     parseJson := parseDocument;
     convertUint8ArrayToHex := hex;
     makeJwt := sign |}.

(** Handler tables. *)
Definition returning (name : string) (r : string) : Handlers string :=
  fun str => if String.eqb str name then Some (fun _ => Return r) else None.

Definition throwing (name : string) (e : Thrown) : Handlers string :=
  fun str => if String.eqb str name then Some (fun _ => Throw e) else None.

(** The table [{}].  The inherited functions are rendered by the text
    [Object.prototype.toString] gives for a plain object; the tokens below
    only reach [toString]. *)
Definition emptyTable : Handlers string :=
  objectLiteral [] (fun _ _ => Return "[object Object]").

Definition request (jwt : string) (critHandlers : option (Handlers string))
  : Validation string :=
  {| jwt := jwt; key := "k3y"; algorithm := OneAlgorithm "HS256";
     critHandlers := critHandlers |}.

End Bench.

(** ** Vocabulary of the statements *)

(** The first two checks of [validateJwtObject] pass. *)
Definition signedAndTyped (m : JwtObjectWithUnknownProps) : Prop :=
  exists sig members alg,
    signature m = JString sig /\
    header m = JObject members /\
    ownProperty "alg" members = Some (JString alg).

(** The payload carries a numeric [exp] that is past its one-second leeway:
    [exp + 1 < Date.now() / 1000], as JavaScript computes it. *)
Definition expClaimPassed (now : Z) (m : JwtObjectWithUnknownProps) : Prop :=
  exists members exp,
    payload m = JObject members /\
    ownProperty "exp" members = Some (JNumber exp) /\
    lessThan (addNumbers (toNumber exp) (Finite 1)) (currentUnixTime now) = true.

(** [x <= y] on numbers that are not [NaN]. *)
Definition notAbove (x y : Number) : Prop :=
  match x, y with
  | NaN, _ => False
  | _, NaN => False
  | Infinity true, _ => True
  | _, Infinity false => True
  | Finite a, Finite b => (a <= b)%Q
  | _, _ => False
  end.

(** The clock shows a time from 1970-01-01T00:00:01Z to the end of the range
    of [Date], [8.64e15] milliseconds. *)
Definition clockInRange (now : Z) : Prop :=
  (1000 <= now <= 8640000000000000)%Z.

(** The [crit] list is made of non-empty strings. *)
Definition nonEmptyStrings (crit : list JsonValue) : Prop :=
  Forall (fun v => exists s, v = JString s /\ s <> EmptyString) crit.

(** The [crit] list names a reserved header parameter. *)
Definition listsReserved (crit : list JsonValue) : Prop :=
  exists word, In (JString word) crit /\ In word reservedWords.

(** The value found under [crit] is rejected by the first two checks of the
    dispatcher: it is not an array of non-empty strings, or it lists a
    reserved name. *)
Definition malformedCrit (c : JsValue) : Prop :=
  (forall crit, c = Json (JArray crit) -> ~ nonEmptyStrings crit) \/
  (exists crit, c = Json (JArray crit) /\ listsReserved crit).

(** A handler call that does not produce a value. *)
Definition fails {R : Type} (c : Completion R) : Prop :=
  match c with
  | Return _ => False
  | Throw _ => True
  | RejectAt _ _ => True
  end.

(** The call made for a [crit] entry. *)
Definition callFor (h : JsonValue) (v : JsonValue) : Call :=
  (asString v, getProperty h (asString v)).

(** The promise obtained for a [crit] entry. *)
Definition settledAs {R : Type} (h : JsonValue) (handlers : option (Handlers R))
    (v : JsonValue) (p : (nat * Thrown) + R) : Prop :=
  exists f,
    handlerFor handlers (asString v) = Some f /\
    f (getProperty h (asString v)) =
      match p with
      | inr r => Return r
      | inl (tick, e) => RejectAt tick e
      end.

(** An [Error] object whose message is not the expiration message. *)
Definition plainError (e : Thrown) : Prop :=
  exists name msg, e = ErrorObject name msg /\ msg <> expiredMessage.

(** What is assumed of the imported decoders: when they fail they throw a
    plain error. *)
Definition decodersThrowPlainErrors {imports : Imports} : Prop :=
  (forall segment e, convertBase64urlToUint8Array segment = inl e -> plainError e) /\
  (forall u e, parseJson u = inl e -> plainError e).

(** The same of the imported signer. *)
Definition signerThrowsPlainErrors {imports : Imports} : Prop :=
  forall jwtObject key e, makeJwt jwtObject key = inl e -> plainError e.

(** Some segment of the input cannot be decoded: the base64url decoder
    rejects it, or it is not the third segment and the JSON parser rejects
    its bytes. *)
Definition undecodable {imports : Imports} (jwt : string) : Prop :=
  exists i segment,
    nth_error (split jwt) i = Some segment /\
    ((exists e, convertBase64urlToUint8Array segment = inl e) \/
     (i <> 2%nat /\
      exists u e, convertBase64urlToUint8Array segment = inr u /\ parseJson u = inl e)).

(** The value [e] was thrown, or given as the reason of a rejected promise,
    by the handler of some entry of [crit]. *)
Definition raisedByHandler {R : Type} (h : JsonValue) (handlers : option (Handlers R))
    (crit : list JsonValue) (e : Thrown) : Prop :=
  exists v f,
    In v crit /\
    handlerFor handlers (asString v) = Some f /\
    (f (getProperty h (asString v)) = Throw e \/
     exists tick, f (getProperty h (asString v)) = RejectAt tick e).

(** What is left of the [try] block once the handlers have run. *)
Definition afterDispatch {imports : Imports} {R : Type} (v : Validation R)
    (m : JwtObjectWithUnknownProps) (critResult : option (list R))
  : Throwing (JwtValidation R) :=
  if negb (validateAlgorithm (algorithm v) (algOf m)) then
    inl (Error ("no matching algorithm: " ++ algOf m))
  else
    let* newJwt := makeJwt m (key v) in
    let* newJwtObject := parseAndDecode newJwt in
    if negb (strictEquals (signature m) (signature newJwtObject)) then
      inl (Error "signatures don't match")
    else inr (Valid m (jwt v) critResult).

(** The number of ['.'] characters of a string. *)
Fixpoint countDots (s : string) : nat :=
  match s with
  | EmptyString => 0
  | String c rest => if Ascii.eqb c "." then S (countDots rest) else countDots rest
  end.

(** The request [v] with another handler table. *)
Definition withHandlers {R : Type} (v : Validation R)
    (critHandlers : option (Handlers R)) : Validation R :=
  {| jwt := jwt v; key := key v; algorithm := algorithm v;
     critHandlers := critHandlers |}.

(** The request [v] presenting another token. *)
Definition withJwt {R : Type} (v : Validation R) (token : string) : Validation R :=
  {| jwt := token; key := key v; algorithm := algorithm v;
     critHandlers := critHandlers v |}.

(** The entry [v] of [crit] passes the third check of the dispatcher: the
    header read is defined and the handler table gives a function. *)
Definition understood {R : Type} (h : JsonValue) (handlers : option (Handlers R))
    (v : JsonValue) : Prop :=
  getProperty h (asString v) <> Undefined /\
  handlerFor handlers (asString v) <> None.

(** The header's [crit] is the list [crit] and passes the three checks. *)
Definition passesChecks {R : Type} (h : JsonValue) (handlers : option (Handlers R))
    (crit : list JsonValue) : Prop :=
  getProperty h "crit" = Json (JArray crit) /\
  nonEmptyStrings crit /\
  ~ listsReserved crit /\
  Forall (understood h handlers) crit.

(** The handler of the entry [v] does not throw when called. *)
Definition callReturnsPromise {R : Type} (h : JsonValue)
    (handlers : option (Handlers R)) (v : JsonValue) : Prop :=
  exists f,
    handlerFor handlers (asString v) = Some f /\
    forall e, f (getProperty h (asString v)) <> Throw e.

(** The entries of [header.crit], when it is an array. *)
Definition critEntries (h : JsonValue) : list JsonValue :=
  match getProperty h "crit" with
  | Json (JArray crit) => crit
  | _ => []
  end.

(** The byte [b] with its bit [k] (0 is the least significant) inverted. *)
Definition flipByteBit (k : nat) (b : Byte.byte) : Byte.byte :=
  let '(b0, (b1, (b2, (b3, (b4, (b5, (b6, b7))))))) := Byte.to_bits b in
  Byte.of_bits
    match k with
    | 0%nat => (negb b0, (b1, (b2, (b3, (b4, (b5, (b6, b7)))))))
    | 1%nat => (b0, (negb b1, (b2, (b3, (b4, (b5, (b6, b7)))))))
    | 2%nat => (b0, (b1, (negb b2, (b3, (b4, (b5, (b6, b7)))))))
    | 3%nat => (b0, (b1, (b2, (negb b3, (b4, (b5, (b6, b7)))))))
    | 4%nat => (b0, (b1, (b2, (b3, (negb b4, (b5, (b6, b7)))))))
    | 5%nat => (b0, (b1, (b2, (b3, (b4, (negb b5, (b6, b7)))))))
    | 6%nat => (b0, (b1, (b2, (b3, (b4, (b5, (negb b6, b7)))))))
    | 7%nat => (b0, (b1, (b2, (b3, (b4, (b5, (b6, negb b7)))))))
    | _ => (b0, (b1, (b2, (b3, (b4, (b5, (b6, b7)))))))
    end.

(** The bytes [u] with one bit inverted: bit [index mod 8] of byte
    [index / 8]. *)
Fixpoint flipBit (index : nat) (u : list Byte.byte) : list Byte.byte :=
  match u with
  | [] => []
  | b :: rest =>
      if Nat.ltb index 8 then flipByteBit index b :: rest
      else b :: flipBit (index - 8) rest
  end.

(** What is assumed of the imported hex encoder: different bytes give
    different texts. *)
Definition hexIsInjective {imports : Imports} : Prop :=
  forall u u', convertUint8ArrayToHex u = convertUint8ArrayToHex u' -> u = u'.

(** What is assumed of the imported signer: it signs the header and the
    payload it is given, whatever [signature] member comes with them. *)
Definition signerIgnoresSignature {imports : Imports} : Prop :=
  forall m m' key,
    header m = header m' -> payload m = payload m' -> makeJwt m key = makeJwt m' key.

(** ** Reference arithmetic *)

(** The standard library's specification of the IEEE 754 operations
    ([SpecFloat]), at the parameters of binary64, against which [round64],
    [addNumbers] and [lessThan] are checked on sample operands. *)
Module Reference.

(** The operand [m * 2^e]. *)
Definition binary64 (operand : Z * Z) : spec_float :=
  binary_normalize 53 1024 (fst operand) (snd operand) false.

Definition valueOf (operand : Z * Z) : Q :=
  inject_Z (fst operand) * pow2 (snd operand).

Definition ofSpecFloat (f : spec_float) : Number :=
  match f with
  | S754_zero _ => Finite 0
  | S754_infinity s => Infinity s
  | S754_nan => NaN
  | S754_finite s m e => Finite ((if s then -1 else 1) * inject_Z (Zpos m) * pow2 e)
  end.

(** Pairs of operands: clock values over [1000], ties, values next to the
    largest number and among the subnormal ones. *)
Definition operands : list ((Z * Z) * (Z * Z)) :=
  [ ((1793000001300, 0), (1000, 0));
    ((1700000000123, 0), (1000, 0));
    ((8640000000000000, 0), (1000, 0));
    ((1, 0), (1000, 0));
    ((1, 0), (10, 0));
    ((-1, 0), (3, 0));
    ((7520387073258291, -22), (1, 0));
    ((3602879701896397, -55), (3602879701896397, -54));
    ((9007199254740991, 0), (1, 0));
    ((9007199254740991, 0), (2, 0));
    ((-9007199254740991, 10), (1, 0));
    ((9007199254740991, 971), (9007199254740991, 971));
    ((9007199254740991, 971), (1, 917));
    ((9007199254740991, 971), (1, 918));
    ((9007199254740991, 971), (1, -3));
    ((1, -1074), (1, -1074));
    ((1, -1074), (2, 0));
    ((3, -1074), (2, 0));
    ((4503599627370497, -1074), (3, 0));
    ((1, 0), (-1, 0)) ]%Z.

End Reference.

(** ** Further concrete cases *)
Module Cases.

(** A header that marks three extensions as critical and carries them. *)
Definition header3 : JsonValue :=
  JObject [("alg", JString "HS256");
           ("crit", JArray [JString "a"; JString "b"; JString "c"]);
           ("a", JNumber 1); ("b", JNumber 2); ("c", JNumber 3)].

(** A handler table given by the completion of each of the three handlers. *)
Definition table (a b c : Completion string) : Handlers string :=
  objectLiteral [("a", fun _ => a); ("b", fun _ => b); ("c", fun _ => c)]
    (fun _ _ => Return "[object Object]").

(** A request for another algorithm than the bench tokens declare. *)
Definition requestHS512 (jwt : string) (critHandlers : option (Handlers string))
  : Validation string :=
  {| jwt := jwt; key := "k3y"; algorithm := ManyAlgorithms ["HS384"; "HS512"];
     critHandlers := critHandlers |}.

(** A base64url decoder that, like many, also accepts trailing ['=']
    padding: two spellings of a segment then stand for the same bytes. *)
Fixpoint stripPadding (segment : string) : string :=
  match segment with
  | EmptyString => EmptyString
  | String c rest =>
      match stripPadding rest with
      | EmptyString => if Ascii.eqb c "=" then EmptyString else String c EmptyString
      | stripped => String c stripped
      end
  end.

Definition paddedImports : Imports :=
  {| convertBase64urlToUint8Array :=
       fun segment => Bench.decodeSegment (stripPadding segment);
     parseJson := Bench.parseDocument;
     convertUint8ArrayToHex := Bench.hex;
     makeJwt := Bench.sign |}.

(** A signer that refuses every key. *)
Definition refusingImports : Imports :=
  {| convertBase64urlToUint8Array := Bench.decodeSegment;
     parseJson := Bench.parseDocument;
     convertUint8ArrayToHex := Bench.hex;
     makeJwt := fun _ _ => inl (Error "Failed to create JWT: no such key") |}.

End Cases.

(** * Properties *)

(** ** Numbers: rounding to binary64 *)

Section NumberFacts.

Local Open Scope Q_scope.

Lemma Qltb_lt (x y : Q) : Qltb x y = true <-> (x < y)%Q.
Proof.
  unfold Qltb. rewrite negb_true_iff. split.
  - intros H. apply Qnot_le_lt. intros Hle. apply Qle_bool_iff in Hle. congruence.
  - intros H. destruct (Qle_bool y x) eqn:E; [|reflexivity].
    apply Qle_bool_iff in E. exfalso. exact (Qlt_not_le _ _ H E).
Qed.

Lemma Qltb_false (x y : Q) : Qltb x y = false <-> (y <= x)%Q.
Proof.
  unfold Qltb. rewrite negb_false_iff. apply Qle_bool_iff.
Qed.

Lemma pow2_pos (e : Z) : 0 < pow2 e.
Proof. apply Qpower_0_lt. reflexivity. Qed.

Lemma pow2_add (a b : Z) : pow2 (a + b) == pow2 a * pow2 b.
Proof. apply Qpower_plus. discriminate. Qed.

Lemma pow2_le (a b : Z) : (a <= b)%Z -> pow2 a <= pow2 b.
Proof. intros H. apply Qpower_le_compat_l; [exact H|discriminate]. Qed.

Lemma pow2_lt (a b : Z) : (a < b)%Z -> pow2 a < pow2 b.
Proof. intros H. apply Qpower_lt_compat_l; [exact H|reflexivity]. Qed.

Lemma pow2_Z (k : Z) : (0 <= k)%Z -> pow2 k == inject_Z (2 ^ k).
Proof. intros H. unfold pow2. now rewrite Zpower_Qpower. Qed.

Lemma pow2_succ (a : Z) : pow2 (a + 1) == 2 * pow2 a.
Proof. rewrite pow2_add. unfold pow2 at 2. rewrite Qpower_1_r. ring. Qed.

Lemma scale_back (q : Q) (e : Z) : q / pow2 e * pow2 e == q.
Proof. pose proof (pow2_pos e). field. lra. Qed.

Lemma roundHalfEven_comp (s s' : Q) : s == s' -> roundHalfEven s = roundHalfEven s'.
Proof.
  intros H. unfold roundHalfEven. rewrite (Qfloor_comp _ _ H).
  assert (E : s - inject_Z (Qfloor s') == s' - inject_Z (Qfloor s')) by now rewrite H.
  now rewrite (Qcompare_comp _ _ E _ _ (Qeq_refl (1#2))).
Qed.

Lemma roundHalfEven_Z (k : Z) : roundHalfEven (inject_Z k) = k.
Proof.
  unfold roundHalfEven. rewrite Qfloor_Z.
  assert (E : (inject_Z k - inject_Z k ?= 1 # 2) = Lt).
  { rewrite <- Qlt_alt. lra. }
  now rewrite E.
Qed.

Lemma roundHalfEven_cases (s : Q) :
  (roundHalfEven s = Qfloor s /\ s - inject_Z (Qfloor s) <= 1 # 2 /\
   (s - inject_Z (Qfloor s) == 1 # 2 -> Z.even (Qfloor s) = true)) \/
  (roundHalfEven s = (Qfloor s + 1)%Z /\ 1 # 2 <= s - inject_Z (Qfloor s) /\
   (s - inject_Z (Qfloor s) == 1 # 2 -> Z.even (Qfloor s) = false)).
Proof.
  unfold roundHalfEven.
  destruct (Qcompare_spec (s - inject_Z (Qfloor s)) (1 # 2)) as [E|L|G].
  - destruct (Z.even (Qfloor s)) eqn:Ev.
    + left. split; [reflexivity|]. split; [lra|auto].
    + right. split; [reflexivity|]. split; [lra|auto].
  - left. split; [reflexivity|]. split; [lra|]. intros E. lra.
  - right. split; [reflexivity|]. split; [lra|]. intros E. lra.
Qed.

Lemma roundHalfEven_monotone (s s' : Q) :
  s <= s' -> (roundHalfEven s <= roundHalfEven s')%Z.
Proof.
  intros H. pose proof (Qfloor_resp_le _ _ H) as Hf.
  pose proof (Qfloor_le s) as L1. pose proof (Qlt_floor s) as U1.
  pose proof (Qfloor_le s') as L2. pose proof (Qlt_floor s') as U2.
  destruct (roundHalfEven_cases s) as [(-> & A1 & A2)|(-> & A1 & A2)];
    destruct (roundHalfEven_cases s') as [(-> & B1 & B2)|(-> & B1 & B2)]; try lia.
  destruct (Z.eq_dec (Qfloor s) (Qfloor s')) as [E|N]; [|lia].
  exfalso. rewrite <- E in *.
  assert (E1 : s - inject_Z (Qfloor s) == 1 # 2) by lra.
  assert (E2 : s' - inject_Z (Qfloor s) == 1 # 2) by lra.
  specialize (A2 E1). specialize (B2 E2). congruence.
Qed.

Lemma floorLog2_spec (q : Q) :
  0 < q -> pow2 (floorLog2 q) <= q /\ q < pow2 (floorLog2 q + 1).
Proof.
  intros Hq. destruct q as [n d].
  assert (Hn : (0 < n)%Z).
  { unfold Qlt in Hq. cbn in Hq. lia. }
  unfold floorLog2. cbn [Qnum Qden].
  set (ln := Z.log2 n). set (ld := Z.log2 (Z.pos d)).
  pose proof (Z.log2_spec n Hn) as [Ln Un]. fold ln in Ln, Un.
  pose proof (Z.log2_spec (Z.pos d) (Pos2Z.is_pos d)) as [Ld Ud]. fold ld in Ld, Ud.
  pose proof (Z.log2_nonneg n) as Pn. fold ln in Pn.
  pose proof (Z.log2_nonneg (Z.pos d)) as Pd. fold ld in Pd.
  set (k := (ln - ld)%Z).
  assert (Hqd : (n # d) * inject_Z (Z.pos d) == inject_Z n).
  { unfold Qeq, Qmult, inject_Z. cbn. lia. }
  assert (HD : 0 < inject_Z (Z.pos d)) by (unfold Qlt; cbn; lia).
  rewrite Zle_Qle in Ln, Ld. rewrite Zlt_Qlt in Un, Ud.
  rewrite <- pow2_Z in Ln, Ld by lia.
  rewrite <- pow2_Z in Un, Ud by lia.
  assert (Hup : (n # d) < pow2 (k + 1)).
  { assert (E : pow2 (k + 1) * pow2 ld == pow2 (Z.succ ln)).
    { rewrite <- pow2_add. replace (k + 1 + ld)%Z with (Z.succ ln) by lia. reflexivity. }
    pose proof (pow2_pos (k + 1)). pose proof (pow2_pos ld).
    apply Qnot_le_lt. intros Hle.
    assert (pow2 (k + 1) * inject_Z (Z.pos d) <= (n # d) * inject_Z (Z.pos d)).
    { apply Qmult_le_compat_r; [exact Hle|lra]. }
    assert (pow2 (k + 1) * pow2 ld <= pow2 (k + 1) * inject_Z (Z.pos d)).
    { rewrite (Qmult_comm _ (pow2 ld)), (Qmult_comm _ (inject_Z _)).
      apply Qmult_le_compat_r; [exact Ld|lra]. }
    lra. }
  assert (Hlow : pow2 (k - 1) <= (n # d)).
  { assert (E : pow2 (k - 1) * pow2 (Z.succ ld) == pow2 ln).
    { rewrite <- pow2_add. replace (k - 1 + Z.succ ld)%Z with ln by lia. reflexivity. }
    pose proof (pow2_pos (k - 1)). pose proof (pow2_pos (Z.succ ld)).
    apply Qnot_lt_le. intros Hlt.
    assert ((n # d) * inject_Z (Z.pos d) <= pow2 (k - 1) * inject_Z (Z.pos d)).
    { apply Qmult_le_compat_r; lra. }
    assert (pow2 (k - 1) * inject_Z (Z.pos d) < pow2 (k - 1) * pow2 (Z.succ ld)).
    { rewrite (Qmult_comm _ (pow2 (Z.succ ld))), (Qmult_comm _ (inject_Z _)).
      apply Qmult_lt_compat_r; lra. }
    assert ((n # d) * inject_Z (Z.pos d) == pow2 (k - 1) * inject_Z (Z.pos d)) by lra.
    assert (Hc : (n # d) == pow2 (k - 1)).
    { apply (Qmult_inj_r _ _ (inject_Z (Z.pos d))); [lra|assumption]. }
    lra. }
  destruct (Qle_bool (pow2 k) (n # d)) eqn:T.
  - apply Qle_bool_iff in T. split; assumption.
  - split; [exact Hlow|].
    replace (k - 1 + 1)%Z with k by lia.
    apply Qnot_le_lt. intros Hle. apply Qle_bool_iff in Hle. congruence.
Qed.

Lemma Qabs_pos_nonzero (q : Q) : ~ q == 0 -> 0 < Qabs q.
Proof.
  intros H. pose proof (Qabs_nonneg q) as Hn.
  apply Qnot_le_lt. intros Hle. apply H.
  assert (E : Qabs q == 0) by lra.
  revert E. apply Qabs_case; intros; lra.
Qed.

Lemma ulpExponent_spec (q : Q) :
  ~ q == 0 ->
  (-1074 <= ulpExponent q)%Z /\
  Qabs q < pow2 (ulpExponent q + 53) /\
  (ulpExponent q = (-1074)%Z \/ pow2 (ulpExponent q + 52) <= Qabs q).
Proof.
  intros H. apply Qabs_pos_nonzero in H.
  destruct (floorLog2_spec _ H) as [L U].
  unfold ulpExponent. set (k := floorLog2 (Qabs q)) in *.
  destruct (Z.max_spec (k - 52) (-1074)) as [[Hlt ->]|[Hle ->]].
  - split; [lia|]. split; [|left; reflexivity].
    eapply Qlt_le_trans; [exact U|]. apply pow2_le. lia.
  - split; [lia|]. split.
    + replace (k - 52 + 53)%Z with (k + 1)%Z by lia. exact U.
    + right. replace (k - 52 + 52)%Z with k by lia. exact L.
Qed.

Lemma ulpExponent_monotone (x y : Q) :
  ~ x == 0 -> ~ y == 0 -> Qabs x <= Qabs y ->
  (ulpExponent x <= ulpExponent y)%Z.
Proof.
  intros Hx Hy Hle.
  destruct (ulpExponent_spec x Hx) as (Lx & Ux & Nx).
  destruct (ulpExponent_spec y Hy) as (Ly & Uy & Ny).
  destruct (Z.le_gt_cases (ulpExponent x) (ulpExponent y)) as [|Hgt]; [assumption|].
  exfalso. destruct Nx as [Nx|Nx]; [lia|].
  assert (pow2 (ulpExponent y + 53) <= pow2 (ulpExponent x + 52)) by (apply pow2_le; lia).
  lra.
Qed.

Lemma ulpExponent_comp (x y : Q) :
  ~ x == 0 -> x == y -> ulpExponent x = ulpExponent y.
Proof.
  intros Hx E.
  assert (Hy : ~ y == 0) by (now rewrite <- E).
  assert (Qabs x == Qabs y) by (now rewrite E).
  apply Z.le_antisymm; apply ulpExponent_monotone; auto; lra.
Qed.

Lemma roundToSignificand_nonzero (q : Q) :
  ~ q == 0 ->
  roundToSignificand q =
    inject_Z (roundHalfEven (q / pow2 (ulpExponent q))) * pow2 (ulpExponent q).
Proof.
  intros H. unfold roundToSignificand.
  destruct (Qeq_bool q 0) eqn:E; [|reflexivity].
  apply Qeq_bool_iff in E. contradiction.
Qed.

Lemma roundToSignificand_zero (q : Q) : q == 0 -> roundToSignificand q = 0.
Proof.
  intros H. unfold roundToSignificand.
  apply Qeq_bool_iff in H. now rewrite H.
Qed.

Lemma roundToSignificand_comp (x y : Q) :
  x == y -> roundToSignificand x == roundToSignificand y.
Proof.
  intros E. destruct (Qeq_dec x 0) as [Hz|N].
  - rewrite (roundToSignificand_zero x Hz).
    rewrite (roundToSignificand_zero y); [reflexivity|]. now rewrite <- E.
  - rewrite (roundToSignificand_nonzero x N).
    rewrite (roundToSignificand_nonzero y) by (now rewrite <- E).
    rewrite <- (ulpExponent_comp x y N E).
    generalize (ulpExponent x). intros e.
    assert (E' : x / pow2 e == y / pow2 e) by now rewrite E.
    now rewrite (roundHalfEven_comp _ _ E').
Qed.

Lemma Qabs_lt_cases (q b : Q) : Qabs q < b <-> - b < q /\ q < b.
Proof.
  split.
  - apply Qabs_case; intros; lra.
  - intros [H1 H2]. apply Qabs_case; intros; lra.
Qed.

Lemma Qabs_le_cases (q b : Q) : b <= Qabs q <-> q <= - b \/ b <= q.
Proof.
  split.
  - apply Qabs_case; intros; lra.
  - intros H. apply Qabs_case; intros; lra.
Qed.

Lemma inject_Z_le (a b : Z) : (a <= b)%Z -> inject_Z a <= inject_Z b.
Proof. intros H. now rewrite <- Zle_Qle. Qed.

(** The scaled value and its rounding lie within the significand range. *)
Lemma scaled_bounds (q : Q) :
  ~ q == 0 ->
  - pow2 53 < q / pow2 (ulpExponent q) /\ q / pow2 (ulpExponent q) < pow2 53.
Proof.
  intros H. destruct (ulpExponent_spec q H) as (_ & U & _).
  set (e := ulpExponent q) in *. pose proof (pow2_pos e) as P.
  rewrite (Z.add_comm e 53), pow2_add in U. apply Qabs_lt_cases in U. destruct U as [U1 U2].
  split.
  - apply Qlt_shift_div_l; [exact P|lra].
  - apply Qlt_shift_div_r; [exact P|lra].
Qed.

Lemma rounded_significand_bounds (q : Q) :
  ~ q == 0 ->
  (- 2 ^ 53 <= roundHalfEven (q / pow2 (ulpExponent q)) <= 2 ^ 53)%Z.
Proof.
  intros H. destruct (scaled_bounds q H) as [L U].
  rewrite (pow2_Z 53) in L, U by lia.
  split.
  - rewrite <- (roundHalfEven_Z (- 2 ^ 53)). apply roundHalfEven_monotone.
    rewrite inject_Z_opp. lra.
  - rewrite <- (roundHalfEven_Z (2 ^ 53)). apply roundHalfEven_monotone. lra.
Qed.

Lemma roundToSignificand_sign (q : Q) :
  (0 <= q -> 0 <= roundToSignificand q) /\ (q <= 0 -> roundToSignificand q <= 0).
Proof.
  destruct (Qeq_dec q 0) as [Hz|N].
  - rewrite (roundToSignificand_zero q Hz). split; intros; lra.
  - rewrite (roundToSignificand_nonzero q N).
    set (e := ulpExponent q). pose proof (pow2_pos e) as P.
    split; intros H.
    + apply Qmult_le_0_compat; [|lra].
      change 0 with (inject_Z 0). apply inject_Z_le.
      rewrite <- (roundHalfEven_Z 0). apply roundHalfEven_monotone.
      apply Qle_shift_div_l; [exact P|]. change (inject_Z 0) with 0. lra.
    + assert (Hr : (roundHalfEven (q / pow2 e) <= 0)%Z).
      { rewrite <- (roundHalfEven_Z 0). apply roundHalfEven_monotone.
        apply Qle_shift_div_r; [exact P|]. change (inject_Z 0) with 0. lra. }
      apply inject_Z_le in Hr. change (inject_Z 0) with 0 in Hr.
      assert (0 <= (- inject_Z (roundHalfEven (q / pow2 e))) * pow2 e).
      { apply Qmult_le_0_compat; lra. }
      lra.
Qed.

(** Inside a binade the rounded value stays between the two powers of two. *)
Lemma roundToSignificand_upper (q : Q) :
  ~ q == 0 ->
  - pow2 (ulpExponent q + 53) <= roundToSignificand q /\
  roundToSignificand q <= pow2 (ulpExponent q + 53).
Proof.
  intros N. rewrite (roundToSignificand_nonzero q N).
  destruct (rounded_significand_bounds q N) as [L U].
  set (e := ulpExponent q) in *. pose proof (pow2_pos e) as P.
  apply inject_Z_le in L, U. rewrite inject_Z_opp in L. rewrite <- (pow2_Z 53) in L, U by lia.
  rewrite (Z.add_comm e 53), pow2_add.
  set (m := inject_Z (roundHalfEven (q / pow2 e))) in *.
  split.
  - assert (0 <= (m + pow2 53) * pow2 e) by (apply Qmult_le_0_compat; lra). lra.
  - assert (0 <= (pow2 53 - m) * pow2 e) by (apply Qmult_le_0_compat; lra). lra.
Qed.

Lemma roundToSignificand_lower (q : Q) :
  ~ q == 0 ->
  ulpExponent q <> (-1074)%Z ->
  (0 < q -> pow2 (ulpExponent q + 52) <= roundToSignificand q) /\
  (q < 0 -> roundToSignificand q <= - pow2 (ulpExponent q + 52)).
Proof.
  intros N He. rewrite (roundToSignificand_nonzero q N).
  destruct (ulpExponent_spec q N) as (_ & _ & [?|L]); [contradiction|].
  set (e := ulpExponent q) in *. pose proof (pow2_pos e) as P.
  rewrite (Z.add_comm e 52), pow2_add in *.
  apply Qabs_le_cases in L.
  split; intros Hs.
  - assert (Hq : pow2 52 * pow2 e <= q) by (destruct L; lra).
    assert (Hm : (2 ^ 52 <= roundHalfEven (q / pow2 e))%Z).
    { rewrite <- (roundHalfEven_Z (2 ^ 52)). apply roundHalfEven_monotone.
      rewrite <- (pow2_Z 52) by lia. apply Qle_shift_div_l; assumption. }
    apply inject_Z_le in Hm. rewrite <- (pow2_Z 52) in Hm by lia.
    set (m := inject_Z (roundHalfEven (q / pow2 e))) in *.
    assert (0 <= (m - pow2 52) * pow2 e) by (apply Qmult_le_0_compat; lra). lra.
  - assert (Hq : q <= - (pow2 52 * pow2 e)) by (destruct L; lra).
    assert (Hm : (roundHalfEven (q / pow2 e) <= - 2 ^ 52)%Z).
    { rewrite <- (roundHalfEven_Z (- 2 ^ 52)). apply roundHalfEven_monotone.
      rewrite inject_Z_opp, <- (pow2_Z 52) by lia. apply Qle_shift_div_r; [assumption|]. lra. }
    apply inject_Z_le in Hm. rewrite inject_Z_opp, <- (pow2_Z 52) in Hm by lia.
    set (m := inject_Z (roundHalfEven (q / pow2 e))) in *.
    assert (0 <= (- pow2 52 - m) * pow2 e) by (apply Qmult_le_0_compat; lra). lra.
Qed.

Lemma roundToSignificand_same_binade (x y : Q) :
  ~ x == 0 -> ~ y == 0 -> x <= y -> ulpExponent x = ulpExponent y ->
  roundToSignificand x <= roundToSignificand y.
Proof.
  intros Nx Ny Hle He.
  rewrite (roundToSignificand_nonzero x Nx), (roundToSignificand_nonzero y Ny), He.
  set (e := ulpExponent y). pose proof (pow2_pos e) as P.
  apply Qmult_le_compat_r; [|lra].
  apply inject_Z_le, roundHalfEven_monotone.
  apply Qmult_le_compat_r; [exact Hle|].
  apply Qlt_le_weak, Qinv_lt_0_compat, P.
Qed.

Lemma roundToSignificand_monotone (x y : Q) :
  x <= y -> roundToSignificand x <= roundToSignificand y.
Proof.
  intros Hle.
  destruct (roundToSignificand_sign x) as [Px Mx].
  destruct (roundToSignificand_sign y) as [Py My].
  destruct (Qlt_le_dec 0 x) as [Hx|Hx].
  - (* 0 < x <= y *)
    assert (Nx : ~ x == 0) by lra. assert (Ny : ~ y == 0) by lra.
    assert (He : (ulpExponent x <= ulpExponent y)%Z).
    { apply ulpExponent_monotone; auto. rewrite !Qabs_pos by lra. exact Hle. }
    destruct (Z.eq_dec (ulpExponent x) (ulpExponent y)) as [E|NE].
    + now apply roundToSignificand_same_binade.
    + destruct (roundToSignificand_upper x Nx) as [_ U].
      destruct (ulpExponent_spec x Nx) as (Lx & _ & _).
      destruct (roundToSignificand_lower y Ny) as [L _]; [lia|].
      specialize (L ltac:(lra)).
      assert (pow2 (ulpExponent x + 53) <= pow2 (ulpExponent y + 52)) by (apply pow2_le; lia).
      lra.
  - destruct (Qlt_le_dec y 0) as [Hy|Hy].
    + (* x <= y < 0 *)
      assert (Nx : ~ x == 0) by lra. assert (Ny : ~ y == 0) by lra.
      assert (He : (ulpExponent y <= ulpExponent x)%Z).
      { apply ulpExponent_monotone; auto. rewrite !Qabs_neg by lra. lra. }
      destruct (Z.eq_dec (ulpExponent x) (ulpExponent y)) as [E|NE].
      * now apply roundToSignificand_same_binade.
      * destruct (roundToSignificand_upper y Ny) as [L _].
        destruct (ulpExponent_spec y Ny) as (Ly & _ & _).
        destruct (roundToSignificand_lower x Nx) as [_ U]; [lia|].
        specialize (U ltac:(lra)).
        assert (pow2 (ulpExponent y + 53) <= pow2 (ulpExponent x + 52)) by (apply pow2_le; lia).
        lra.
    + (* x <= 0 <= y *)
      specialize (Mx Hx). specialize (Py Hy). lra.
Qed.

(** A value [k * 2^j] with at most 53 significant bits and [j] no less than
    the least exponent is left unchanged. *)
Lemma roundToSignificand_exact_strict (q : Q) (k j : Z) :
  q == inject_Z k * pow2 j ->
  (Z.abs k < 2 ^ 53)%Z -> (-1074 <= j)%Z ->
  roundToSignificand q == q.
Proof.
  intros E Hk Hj. destruct (Qeq_dec q 0) as [Hz|N].
  - rewrite (roundToSignificand_zero q Hz). now rewrite Hz.
  - rewrite (roundToSignificand_nonzero q N).
    destruct (ulpExponent_spec q N) as (Le & Ue & Ne).
    set (e := ulpExponent q) in *.
    pose proof (pow2_pos e) as Pe. pose proof (pow2_pos j) as Pj.
    assert (Habs : Qabs q < pow2 (j + 53)).
    { rewrite E, Qabs_Qmult, (Qabs_pos (pow2 j)) by lra.
      rewrite (Z.add_comm j 53), pow2_add.
      apply Qmult_lt_compat_r; [exact Pj|].
      rewrite (pow2_Z 53) by lia.
      assert (Hi : Qabs (inject_Z k) == inject_Z (Z.abs k)).
      { unfold Qabs, inject_Z. cbn. reflexivity. }
      rewrite Hi. rewrite <- Zlt_Qlt. exact Hk. }
    assert (Hej : (e <= j)%Z).
    { destruct (Z.le_gt_cases e j) as [|Hgt]; [assumption|]. exfalso.
      destruct Ne as [Ne|Ne]; [lia|].
      assert (pow2 (j + 53) <= pow2 (e + 52)) by (apply pow2_le; lia). lra. }
    assert (Hs : q / pow2 e == inject_Z (k * 2 ^ (j - e))).
    { rewrite inject_Z_mult, <- (pow2_Z (j - e)) by lia.
      rewrite E. replace j with ((j - e) + e)%Z at 1 by lia.
      rewrite pow2_add. field. lra. }
    rewrite (roundHalfEven_comp _ _ Hs), roundHalfEven_Z, <- Hs.
    apply scale_back.
Qed.

Lemma roundToSignificand_exact (q : Q) (k j : Z) :
  q == inject_Z k * pow2 j ->
  (Z.abs k <= 2 ^ 53)%Z -> (-1074 <= j)%Z ->
  roundToSignificand q == q.
Proof.
  intros E Hk Hj.
  destruct (Z.eq_dec (Z.abs k) (2 ^ 53)) as [Heq|Hne].
  - apply (roundToSignificand_exact_strict q (k / 2) (j + 1)); [| |lia].
    + rewrite E, pow2_succ.
      assert (Hk2 : k = (2 * (k / 2))%Z).
      { destruct (Z.abs_eq_or_opp k) as [A|A]; rewrite A in Heq.
        - rewrite Heq. reflexivity.
        - assert (k = (- 2 ^ 53)%Z) by lia. subst k. reflexivity. }
      rewrite Hk2 at 1. rewrite inject_Z_mult. change (inject_Z 2) with 2. ring.
    + destruct (Z.abs_eq_or_opp k) as [A|A]; rewrite A in Heq.
      * rewrite Heq. reflexivity.
      * assert (k = (- 2 ^ 53)%Z) by lia. subst k. reflexivity.
  - apply (roundToSignificand_exact_strict q k j); auto. lia.
Qed.

Lemma roundToSignificand_idempotent (q : Q) :
  roundToSignificand (roundToSignificand q) == roundToSignificand q.
Proof.
  destruct (Qeq_dec q 0) as [Hz|N].
  - rewrite (roundToSignificand_zero q Hz). reflexivity.
  - destruct (ulpExponent_spec q N) as (Le & _ & _).
    apply (roundToSignificand_exact _ (roundHalfEven (q / pow2 (ulpExponent q)))
             (ulpExponent q)).
    + now rewrite (roundToSignificand_nonzero q N).
    + pose proof (rounded_significand_bounds q N). lia.
    + exact Le.
Qed.

Lemma lessThan_notAbove (x a b : Number) :
  lessThan x a = true -> notAbove a b -> lessThan x b = true.
Proof.
  destruct x as [|[|]|x], a as [|[|]|a], b as [|[|]|b]; cbn; try easy.
  rewrite !Qltb_lt. intros. lra.
Qed.

Lemma round64_cases (q : Q) :
  (round64 q = Finite (roundToSignificand q) /\
   Qabs (roundToSignificand q) < pow2 1024) \/
  (round64 q = Infinity false /\ pow2 1024 <= roundToSignificand q) \/
  (round64 q = Infinity true /\ roundToSignificand q <= - pow2 1024).
Proof.
  unfold round64. pose proof (pow2_pos 1024) as P.
  destruct (Qle_bool (pow2 1024) (Qabs (roundToSignificand q))) eqn:T.
  - apply Qle_bool_iff, Qabs_le_cases in T. right.
    destruct (Qltb (roundToSignificand q) 0) eqn:S.
    + apply Qltb_lt in S. right. split; [reflexivity|]. destruct T; lra.
    + apply Qltb_false in S. left. split; [reflexivity|]. destruct T; lra.
  - left. split; [reflexivity|].
    apply Qnot_le_lt. intros H. apply Qle_bool_iff in H. congruence.
Qed.

Lemma round64_monotone (x y : Q) : x <= y -> notAbove (round64 x) (round64 y).
Proof.
  intros H. apply roundToSignificand_monotone in H.
  pose proof (pow2_pos 1024) as P.
  destruct (round64_cases x) as [(-> & Bx)|[(-> & Bx)|(-> & Bx)]];
    destruct (round64_cases y) as [(-> & By)|[(-> & By)|(-> & By)]];
    cbn; try exact I; try exact H;
    try apply Qabs_lt_cases in Bx; try apply Qabs_lt_cases in By; lra.
Qed.

Lemma currentUnixTime_monotone (now now' : Z) :
  (now <= now')%Z -> notAbove (currentUnixTime now) (currentUnixTime now').
Proof.
  intros H. apply round64_monotone. apply inject_Z_le in H.
  apply Qmult_le_compat_r; [exact H|]. discriminate.
Qed.

Lemma round64_exact (q : Q) (k j : Z) :
  q == inject_Z k * pow2 j ->
  (Z.abs k <= 2 ^ 53)%Z -> (-1074 <= j)%Z -> Qabs q < pow2 1024 ->
  round64 q = Finite (roundToSignificand q) /\ roundToSignificand q == q.
Proof.
  intros E Hk Hj Hb.
  pose proof (roundToSignificand_exact q k j E Hk Hj) as Hr.
  split; [|exact Hr].
  apply Qabs_lt_cases in Hb.
  destruct (round64_cases q) as [(-> & _)|[(_ & B)|(_ & B)]]; [reflexivity| |]; lra.
Qed.

Lemma round64_finite (q : Q) :
  Qabs (roundToSignificand q) < pow2 1024 ->
  round64 q = Finite (roundToSignificand q).
Proof.
  intros Hb. apply Qabs_lt_cases in Hb.
  destruct (round64_cases q) as [(-> & _)|[(_ & B)|(_ & B)]]; [reflexivity| |]; lra.
Qed.

Lemma round64_Finite_inv (q r : Q) :
  round64 q = Finite r -> r = roundToSignificand q /\ Qabs r < pow2 1024.
Proof.
  intros H.
  destruct (round64_cases q) as [(E & B)|[(E & _)|(E & _)]]; rewrite E in H;
    try discriminate.
  injection H as <-. split; [reflexivity|exact B].
Qed.

Lemma Qltb_comp (a a' b b' : Q) : a == a' -> b == b' -> Qltb a b = Qltb a' b'.
Proof.
  intros Ea Eb. destruct (Qltb a' b') eqn:T.
  - apply Qltb_lt. apply Qltb_lt in T. lra.
  - apply Qltb_false. apply Qltb_false in T. lra.
Qed.

Lemma lessThan_comp_l (a a' : Q) (y : Number) :
  a == a' -> lessThan (Finite a) y = lessThan (Finite a') y.
Proof.
  intros E. destruct y as [|s|b]; cbn; try reflexivity.
  apply Qltb_comp; [exact E|reflexivity].
Qed.

Lemma notAbove_not_less (x y : Number) : notAbove y x -> lessThan x y = false.
Proof.
  destruct x as [|[|]|x], y as [|[|]|y]; cbn; try easy.
  intros H. now apply Qltb_false.
Qed.

(** Within the range of [Date], and past the first second, the clock value
    in seconds is a number between [1] and [2^44] whose last place is no
    coarser than [2^-9]. *)
Lemma currentUnixTime_in_range (now : Z) :
  clockInRange now ->
  exists t k j,
    currentUnixTime now = Finite t /\
    t == inject_Z k * pow2 j /\
    (2 ^ 52 <= k <= 2 ^ 53)%Z /\ (-52 <= j <= -9)%Z /\
    1 <= t /\ t <= pow2 44.
Proof.
  intros [Hlo Hhi]. unfold currentUnixTime. set (q := inject_Z now / 1000).
  assert (Hq1 : 1 <= q).
  { unfold q. apply Qle_shift_div_l; [reflexivity|].
    change (1 * 1000) with (inject_Z 1000). now apply inject_Z_le. }
  assert (Hq2 : q <= inject_Z 8640000000000).
  { unfold q. apply Qle_shift_div_r; [reflexivity|].
    change (inject_Z 8640000000000 * 1000) with (inject_Z 8640000000000000).
    now apply inject_Z_le. }
  assert (N : ~ q == 0) by lra.
  assert (Hlt44 : inject_Z 8640000000000 < pow2 44).
  { rewrite (pow2_Z 44) by lia. rewrite <- Zlt_Qlt. reflexivity. }
  destruct (ulpExponent_spec q N) as (Le & Ue & Ne).
  rewrite Qabs_pos in Ue, Ne by lra.
  pose proof (rounded_significand_bounds q N) as [_ Hm2].
  pose proof (roundToSignificand_upper q N) as [_ Hup].
  pose proof (roundToSignificand_lower q N) as Hlow.
  pose proof (roundToSignificand_nonzero q N) as Hform.
  set (e := ulpExponent q) in *.
  assert (He1 : (-52 <= e)%Z).
  { destruct (Z.le_gt_cases (-52) e) as [|Hgt]; [assumption|]. exfalso.
    assert (pow2 (e + 53) <= pow2 0) by (apply pow2_le; lia).
    change (pow2 0) with 1 in *. lra. }
  assert (He2 : (e <= -9)%Z).
  { destruct (Z.le_gt_cases e (-9)) as [|Hgt]; [assumption|]. exfalso.
    destruct Ne as [Ne|Ne]; [lia|].
    assert (pow2 44 <= pow2 (e + 52)) by (apply pow2_le; lia). lra. }
  destruct Ne as [Ne|Ne]; [lia|].
  destruct Hlow as [Hlow _]; [lia|]. specialize (Hlow ltac:(lra)).
  assert (Hm1 : (2 ^ 52 <= roundHalfEven (q / pow2 e))%Z).
  { rewrite <- (roundHalfEven_Z (2 ^ 52)). apply roundHalfEven_monotone.
    rewrite <- (pow2_Z 52) by lia. apply Qle_shift_div_l; [apply pow2_pos|].
    rewrite <- pow2_add, Z.add_comm. exact Ne. }
  assert (H1 : 1 <= roundToSignificand q).
  { assert (pow2 0 <= pow2 (e + 52)) by (apply pow2_le; lia).
    change (pow2 0) with 1 in *. lra. }
  assert (H2 : roundToSignificand q <= pow2 44).
  { assert (pow2 (e + 53) <= pow2 44) by (apply pow2_le; lia). lra. }
  exists (roundToSignificand q), (roundHalfEven (q / pow2 e)), e.
  split; [|split; [rewrite Hform; reflexivity|repeat split; try lia; assumption]].
  apply round64_finite. apply Qabs_lt_cases.
  assert (pow2 44 < pow2 1024) by (apply pow2_lt; lia).
  pose proof (pow2_pos 1024). split; lra.
Qed.

Lemma pow2_neg_Z (j : Z) : (j <= 0)%Z -> pow2 j * inject_Z (2 ^ (- j)) == 1.
Proof.
  intros H. rewrite <- (pow2_Z (- j)) by lia. rewrite <- pow2_add.
  replace (j + - j)%Z with 0%Z by lia. reflexivity.
Qed.

(** In that range, subtracting a small whole number of seconds from the
    clock value is exact. *)
Lemma clock_minus_exact (now : Z) (t x : Q) (n : Z) :
  clockInRange now -> currentUnixTime now = Finite t ->
  (0 <= n <= 2)%Z -> x == t - inject_Z n ->
  round64 x = Finite (roundToSignificand x) /\ roundToSignificand x == x.
Proof.
  intros Hr Ht Hn Hx.
  destruct (currentUnixTime_in_range now Hr) as (t' & k & j & Ht' & Hk & Bk & Bj & L & U).
  rewrite Ht in Ht'. injection Ht' as <-.
  pose proof (pow2_neg_Z j ltac:(lia)) as Hp.
  assert (Hpow : (2 ^ 9 <= 2 ^ (- j) <= 2 ^ 52)%Z).
  { split; apply Z.pow_le_mono_r; lia. }
  apply (round64_exact x (k - n * 2 ^ (- j)) j).
  - rewrite Hx, Hk. unfold Zminus. rewrite inject_Z_plus, inject_Z_opp, inject_Z_mult.
    set (P := inject_Z (2 ^ (- j))) in *. set (K := inject_Z k).
    set (Nn := inject_Z n). 
    assert (E : Nn == Nn * (pow2 j * P)) by (rewrite Hp; ring).
    rewrite E at 1. ring.
  - nia.
  - lia.
  - apply Qabs_lt_cases.
    assert (pow2 44 < pow2 1024) by (apply pow2_lt; lia).
    assert (0 <= inject_Z n <= 2).
    { split; [change 0 with (inject_Z 0)|change 2 with (inject_Z 2)];
        apply inject_Z_le; lia. }
    pose proof (pow2_pos 44). split; lra.
Qed.

Lemma expired_two_seconds_back (now : Z) (t exp : Q) :
  clockInRange now -> currentUnixTime now = Finite t -> exp == t - 2 ->
  isExpired (toNumber exp) (Some (Finite 1)) now = true.
Proof.
  intros Hr Ht He. unfold isExpired, toNumber.
  destruct (clock_minus_exact now t exp 2 Hr Ht ltac:(lia) He) as [-> Ea].
  cbn [addNumbers].
  assert (E1 : roundToSignificand exp + 1 == t - inject_Z 1).
  { rewrite Ea, He. change (inject_Z 1) with 1. ring. }
  destruct (clock_minus_exact now t _ 1 Hr Ht ltac:(lia) E1) as [-> Eb].
  rewrite Ht. cbn [lessThan]. apply Qltb_lt. rewrite Eb, E1.
  change (inject_Z 1) with 1. lra.
Qed.

Lemma live_one_second_back (now : Z) (t exp : Q) :
  clockInRange now -> currentUnixTime now = Finite t -> exp == t - 1 ->
  isExpired (toNumber exp) (Some (Finite 1)) now = false.
Proof.
  intros Hr Ht He. unfold isExpired, toNumber.
  destruct (clock_minus_exact now t exp 1 Hr Ht ltac:(lia) He) as [-> Ea].
  cbn [addNumbers].
  assert (E1 : roundToSignificand exp + 1 == t - inject_Z 0).
  { rewrite Ea, He. change (inject_Z 0) with 0. ring. }
  destruct (clock_minus_exact now t _ 0 Hr Ht ltac:(lia) E1) as [-> Eb].
  rewrite Ht. cbn [lessThan]. apply Qltb_false. rewrite Eb, E1.
  change (inject_Z 0) with 0. lra.
Qed.

(** Adding to a number never takes it below a number it was not below. *)
Lemma live_when_not_before (now : Z) (t exp : Q) :
  currentUnixTime now = Finite t -> t <= exp ->
  isExpired (toNumber exp) (Some (Finite 1)) now = false.
Proof.
  intros Ht Hle. unfold isExpired, toNumber. rewrite Ht.
  apply round64_Finite_inv in Ht. destruct Ht as [Et Bt].
  apply Qabs_lt_cases in Bt.
  assert (Hidem : roundToSignificand t == t).
  { rewrite Et at 1. rewrite roundToSignificand_idempotent. now rewrite <- Et. }
  pose proof (roundToSignificand_monotone t exp Hle) as H1.
  pose proof (roundToSignificand_idempotent exp) as Ha.
  assert (H2 : roundToSignificand exp <= roundToSignificand exp + 1) by lra.
  apply roundToSignificand_monotone in H2.
  destruct (round64_cases exp) as [(-> & _)|[(-> & _)|(-> & B)]]; cbn [addNumbers].
  - destruct (round64_cases (roundToSignificand exp + 1))
      as [(-> & _)|[(-> & _)|(-> & B)]]; cbn [lessThan]; try reflexivity.
    + apply Qltb_false. lra.
    + lra.
  - reflexivity.
  - lra.
Qed.

Lemma isExpired_default_leeway (x : Q) (now : Z) :
  isExpired (toNumber x) None now = lessThan (toNumber x) (currentUnixTime now).
Proof.
  unfold isExpired, toNumber.
  destruct (round64_cases x) as [(-> & B)|[(-> & _)|(-> & _)]]; cbn [addNumbers];
    try reflexivity.
  assert (E : roundToSignificand (roundToSignificand x + 0) == roundToSignificand x).
  { rewrite (roundToSignificand_comp _ (roundToSignificand x)) by ring.
    apply roundToSignificand_idempotent. }
  rewrite round64_finite.
  - now apply lessThan_comp_l.
  - now rewrite E.
Qed.

Lemma isExpired_later (x : Number) (leeway : option Number) (now now' : Z) :
  (now <= now')%Z ->
  isExpired x leeway now = true -> isExpired x leeway now' = true.
Proof.
  intros Hle H. unfold isExpired in *.
  eapply lessThan_notAbove; [exact H|]. now apply currentUnixTime_monotone.
Qed.

End NumberFacts.

(** On the sample operands the model gives the numbers that the standard
    library's IEEE 754 operations give. *)
Example round64_agrees_with_reference :
  forallb
    (fun '(a, b) =>
       equalNumbers (round64 (Reference.valueOf a / Reference.valueOf b))
         (Reference.ofSpecFloat
            (SFdiv 53 1024 (Reference.binary64 a) (Reference.binary64 b))))
    Reference.operands = true.
Proof. vm_compute. reflexivity. Qed.

Example addNumbers_agrees_with_reference :
  forallb
    (fun '(a, b) =>
       equalNumbers
         (addNumbers (Finite (Reference.valueOf a)) (Finite (Reference.valueOf b)))
         (Reference.ofSpecFloat
            (SFadd 53 1024 (Reference.binary64 a) (Reference.binary64 b))))
    Reference.operands = true.
Proof. vm_compute. reflexivity. Qed.

Example lessThan_agrees_with_reference :
  forallb
    (fun '(a, b) =>
       Bool.eqb (lessThan (Finite (Reference.valueOf a)) (Finite (Reference.valueOf b)))
         (SFltb (Reference.binary64 a) (Reference.binary64 b))
       && Bool.eqb (lessThan (Finite (Reference.valueOf b)) (Finite (Reference.valueOf a)))
            (SFltb (Reference.binary64 b) (Reference.binary64 a)))
    Reference.operands = true.
Proof. vm_compute. reflexivity. Qed.

(** ** Structural validator *)

Lemma signature_check (x : JsonValue) :
  String.eqb (typeof (Json x)) "string" = true <-> exists sig, x = JString sig.
Proof.
  split.
  - destruct x; cbn; try discriminate. eauto.
  - intros [sig ->]. reflexivity.
Qed.

Lemma header_check (h : JsonValue) :
  isObject h && hasProperty "alg" h
  && String.eqb (typeof (getProperty h "alg")) "string" = true <->
  exists members alg, h = JObject members /\ ownProperty "alg" members = Some (JString alg).
Proof.
  split.
  - destruct h as [| | | | |members]; cbn; try discriminate.
    unfold hasProperty, getProperty.
    destruct (ownProperty "alg" members) as [[| | |alg| |]|] eqn:Halg; cbn;
      try discriminate.
    intros _. eauto.
  - intros (members & alg & -> & Halg). cbn.
    unfold hasProperty, getProperty. rewrite Halg. reflexivity.
Qed.

Lemma signedAndTyped_checks (m : JwtObjectWithUnknownProps) :
  signedAndTyped m <->
  String.eqb (typeof (Json (signature m))) "string" = true /\
  isObject (header m) && hasProperty "alg" (header m)
  && String.eqb (typeof (getProperty (header m) "alg")) "string" = true.
Proof.
  rewrite signature_check, header_check. unfold signedAndTyped. split.
  - intros (sig & members & alg & Hs & Hh & Ha). eauto 6.
  - intros [[sig Hs] (members & alg & Hh & Ha)]. eauto 6.
Qed.

(** Once the signature and header checks pass, the outcome is decided by the
    payload alone. *)
Lemma validateJwtObject_signedAndTyped (now : Z) (m : JwtObjectWithUnknownProps) :
  signedAndTyped m ->
  validateJwtObject now m =
    (if isObject (payload m) && hasProperty "exp" (payload m) then
       match getProperty (payload m) "exp" with
       | Json (JNumber exp) =>
           if isExpired (toNumber exp) (Some (Finite 1)) now
           then inl (RangeError expiredMessage)
           else inr m
       | _ => inl (RangeError "claim 'exp' is not a number")
       end
     else inr m).
Proof.
  intros H. apply signedAndTyped_checks in H. destruct H as [Hs Hh].
  unfold validateJwtObject. rewrite Hs, Hh. reflexivity.
Qed.

(** [validateJwtObject] only gates: what it returns is its argument. *)
Lemma validateJwtObject_returns_argument (now : Z) (m m' : JwtObjectWithUnknownProps) :
  validateJwtObject now m = inr m' -> m' = m.
Proof.
  unfold validateJwtObject.
  repeat match goal with
         | |- context [if ?b then _ else _] => destruct b
         | |- context [match ?x with _ => _ end] => destruct x
         end; intros H; try discriminate; congruence.
Qed.

(** A failure of [validateJwtObject] other than on the signature or the
    header means that those two checks passed. *)
Lemma validateJwtObject_past_header (now : Z) (m : JwtObjectWithUnknownProps) :
  validateJwtObject now m <> inl (ReferenceError "the signature is no string") ->
  validateJwtObject now m <> inl (ReferenceError "header parameter 'alg' is not a string") ->
  signedAndTyped m.
Proof.
  rewrite signedAndTyped_checks. unfold validateJwtObject.
  destruct (String.eqb (typeof (Json (signature m))) "string"); cbn [negb];
    [|congruence].
  match goal with |- context [negb ?c] => destruct c end; cbn [negb];
    [auto|congruence].
Qed.

(** The expiration error is raised exactly by a token that passes the first
    two checks and whose [exp] is past its leeway. *)
Lemma validateJwtObject_expired_iff (now : Z) (m : JwtObjectWithUnknownProps) :
  validateJwtObject now m = inl (RangeError expiredMessage) <->
  signedAndTyped m /\ expClaimPassed now m.
Proof.
  split.
  - intros H.
    assert (Hst : signedAndTyped m).
    { apply (validateJwtObject_past_header now); rewrite H; discriminate. }
    split; [exact Hst|].
    rewrite (validateJwtObject_signedAndTyped now m Hst) in H.
    destruct (payload m) as [| | | | |members] eqn:Hp; cbn in H; try discriminate.
    unfold hasProperty, getProperty in H.
    destruct (ownProperty "exp" members) as [[| |exp| | |]|] eqn:Hexp; cbn in H;
      try discriminate.
    destruct (isExpired (toNumber exp) (Some (Finite 1)) now) eqn:He;
      try discriminate.
    exists members, exp. repeat split; auto.
  - intros [Hst (members & exp & Hp & Hexp & Hlt)].
    rewrite (validateJwtObject_signedAndTyped now m Hst), Hp. cbn.
    unfold hasProperty, getProperty. rewrite Hexp. cbn.
    change (isExpired (toNumber exp) (Some (Finite 1)) now = true) in Hlt.
    rewrite Hlt. reflexivity.
Qed.

(** ** Orchestrator: where a failure leaves the [try] block *)

Section OrchestratorSteps.

Context {imports : Imports} {R : Type}.
Variables (v : Validation R) (now errDate : Z).

Lemma validateJwt_decode_failure (e : Thrown) :
  parseAndDecode (jwt v) = inl e ->
  validateJwt v now errDate = ([], catchBlock v errDate e).
Proof.
  intros H. unfold validateJwt, tryBlock. rewrite H. reflexivity.
Qed.

Lemma validateJwt_structural_failure (m : JwtObjectWithUnknownProps) (e : Thrown) :
  parseAndDecode (jwt v) = inr m ->
  validateJwtObject now m = inl e ->
  validateJwt v now errDate = ([], catchBlock v errDate e).
Proof.
  intros H1 H2. unfold validateJwt, tryBlock. rewrite H1. cbn [bind].
  rewrite H2. reflexivity.
Qed.

End OrchestratorSteps.

(** ** Algorithm gate *)

(** C6: [validateAlgorithm] answers [true] exactly when the declared
    algorithm equals the single allowed algorithm, or occurs in the allowed
    array; strings are compared as they are, without normalisation. *)
Theorem validateAlgorithm_iff (algorithm : AlgorithmArg) (jwtAlg : string) :
  validateAlgorithm algorithm jwtAlg = true <->
  match algorithm with
  | OneAlgorithm a => a = jwtAlg
  | ManyAlgorithms l => In jwtAlg l
  end.
Proof.
  destruct algorithm as [a|l]; unfold validateAlgorithm.
  - rewrite orb_false_l. apply String.eqb_eq.
  - rewrite orb_false_r. unfold includes. rewrite existsb_exists. split.
    + intros (x & Hin & Heq). apply String.eqb_eq in Heq. now subst.
    + intros Hin. exists jwtAlg. split; [exact Hin|apply String.eqb_refl].
Qed.

Example validateAlgorithm_case_sensitive :
  validateAlgorithm (OneAlgorithm "HS256") "hs256" = false /\
  validateAlgorithm (ManyAlgorithms ["HS256"; "HS512"]) "Hs512" = false /\
  validateAlgorithm (ManyAlgorithms ["HS256"; "HS512"]) "HS512" = true.
Proof. repeat split. Qed.

(** ** Payload shape and expiration *)

(** C10: when the signature is a string and the header is an object with a
    string [alg], a payload that is not an object (number, string, boolean,
    null or array) is accepted and the fields come back unchanged; so is an
    object payload without [exp]; and the validator can only fail on a
    payload that is an object with an [exp] key. *)
Theorem validateJwtObject_payload_unchecked (now : Z) (m : JwtObjectWithUnknownProps) :
  signedAndTyped m ->
  ((forall members, payload m <> JObject members) -> validateJwtObject now m = inr m) /\
  (forall members,
      payload m = JObject members -> ownProperty "exp" members = None ->
      validateJwtObject now m = inr m) /\
  (forall e,
      validateJwtObject now m = inl e ->
      exists members x,
        payload m = JObject members /\ ownProperty "exp" members = Some x).
Proof.
  intros Hst. rewrite (validateJwtObject_signedAndTyped now m Hst).
  split; [|split].
  - intros Hno. destruct (payload m); try reflexivity. now elim (Hno members).
  - intros members -> Hexp. cbn. unfold hasProperty, getProperty.
    rewrite Hexp. reflexivity.
  - intros e. destruct (payload m) as [| | | | |members]; cbn; try discriminate.
    unfold hasProperty, getProperty.
    destruct (ownProperty "exp" members) as [x|] eqn:Hx; cbn; [|discriminate].
    intros _. eauto.
Qed.

Lemma validateJwtObject_payload_unchecked_witness :
  let m := {| header := JObject [("alg", JString "HS256")];
              payload := JArray [JNumber 1; JString "exp"];
              signature := JString "6b3379" |} in
  validateJwtObject 10000 m = inr m.
Proof.
  intros m.
  refine (proj1 (validateJwtObject_payload_unchecked 10000 m _) _).
  - exists "6b3379", [("alg", JString "HS256")], "HS256". repeat split.
  - intros members. discriminate.
Defined.

(** C3 (as amended): for a decoded token whose signature is a string, whose
    header is an object with a string [alg] and whose payload is an object
    with a numeric [exp], the structural validator fails with the expiration
    error exactly when [exp + 1 < currentUnixTime], the sum and the quotient
    [Date.now() / 1000] being binary64 numbers; it accepts the token
    otherwise.  With [t] the clock value in seconds, [exp = t - 2] is
    rejected, and reported by [validateJwt] as Invalid with [isExpired =
    true], while [exp = t - 1] and [exp = t + 1] are accepted.  The helper
    [isExpired] with its default leeway [0] answers [true] exactly when
    [exp < currentUnixTime]. *)
Theorem expiration_leeway (now : Z) (m : JwtObjectWithUnknownProps)
    (members : list (string * JsonValue)) (exp : Q) :
  signedAndTyped m ->
  payload m = JObject members ->
  ownProperty "exp" members = Some (JNumber exp) ->
  (validateJwtObject now m = inl (RangeError expiredMessage) <->
   lessThan (addNumbers (toNumber exp) (Finite 1)) (currentUnixTime now) = true) /\
  (lessThan (addNumbers (toNumber exp) (Finite 1)) (currentUnixTime now) = false ->
   validateJwtObject now m = inr m) /\
  (forall t,
      clockInRange now -> currentUnixTime now = Finite t -> (exp == t - 2)%Q ->
      validateJwtObject now m = inl (RangeError expiredMessage)) /\
  (forall t,
      clockInRange now -> currentUnixTime now = Finite t -> (exp == t - 1)%Q ->
      validateJwtObject now m = inr m) /\
  (forall t,
      currentUnixTime now = Finite t -> (exp == t + 1)%Q ->
      validateJwtObject now m = inr m) /\
  (forall (imports : Imports) (R : Type) (v : Validation R) (errDate : Z),
      parseAndDecode (jwt v) = inr m ->
      lessThan (addNumbers (toNumber exp) (Finite 1)) (currentUnixTime now) = true ->
      validateJwt v now errDate =
        ([], Fulfilled (Invalid (jwt v)
                          {| message := Some expiredMessage; date := errDate |}
                          true))) /\
  (forall (exp' : Q) (now' : Z),
      isExpired (toNumber exp') None now' = true <->
      lessThan (toNumber exp') (currentUnixTime now') = true).
Proof.
  intros Hst Hp Hexp.
  assert (Hiff : validateJwtObject now m = inl (RangeError expiredMessage) <->
                 lessThan (addNumbers (toNumber exp) (Finite 1)) (currentUnixTime now)
                 = true).
  { rewrite validateJwtObject_expired_iff. split.
    - intros [_ (members' & exp' & Hp' & Hexp' & Hlt)].
      rewrite Hp in Hp'. injection Hp' as <-. rewrite Hexp in Hexp'.
      now injection Hexp' as <-.
    - intros Hlt. split; [exact Hst|]. now exists members, exp. }
  assert (Hok : lessThan (addNumbers (toNumber exp) (Finite 1)) (currentUnixTime now)
                = false ->
                validateJwtObject now m = inr m).
  { intros Hnlt. rewrite (validateJwtObject_signedAndTyped now m Hst), Hp. cbn.
    unfold hasProperty, getProperty. rewrite Hexp. cbn.
    change (isExpired (toNumber exp) (Some (Finite 1)) now = false) in Hnlt.
    rewrite Hnlt. reflexivity. }
  split; [exact Hiff|]. split; [exact Hok|].
  split; [|split; [|split; [|split]]].
  - intros t Hr Ht Heq. apply Hiff.
    exact (expired_two_seconds_back now t exp Hr Ht Heq).
  - intros t Hr Ht Heq. apply Hok.
    exact (live_one_second_back now t exp Hr Ht Heq).
  - intros t Ht Heq. apply Hok.
    apply (live_when_not_before now t exp Ht). rewrite Heq. lra.
  - intros imports R v errDate Hdec Hlt.
    apply Hiff in Hlt.
    rewrite (validateJwt_structural_failure v now errDate m _ Hdec Hlt).
    reflexivity.
  - intros exp' now'. now rewrite isExpired_default_leeway.
Qed.

Lemma expiration_leeway_witness :
  let m := {| header := JObject [("alg", JString "HS256")];
              payload := JObject [("exp", JNumber 8)];
              signature := JString "6b3379" |} in
  validateJwtObject 10000 m = inl (RangeError expiredMessage).
Proof.
  intros m.
  refine (proj1 (proj2 (proj2
    (expiration_leeway 10000 m [("exp", JNumber 8)] 8 _ eq_refl eq_refl)))
    (roundToSignificand (inject_Z 10000 / 1000)) _ eq_refl _).
  - exists "6b3379", [("alg", JString "HS256")], "HS256". repeat split.
  - unfold clockInRange. lia.
  - vm_compute. reflexivity.
Defined.

(** Rounding decides at the boundary: for [exp = 1793000000.3], kept as the
    binary64 number nearest to it, and the clock at [1793000001300] ms, the
    exact sum [exp + 1] is below the exact quotient, yet the two binary64
    results are equal and the token is not expired. *)
Example rounding_at_the_boundary :
  toNumber (17930000003 # 10) = Finite (7520387073258291 # 4194304) /\
  ((7520387073258291 # 4194304) + 1 < inject_Z 1793000001300 / 1000)%Q /\
  isExpired (toNumber (17930000003 # 10)) (Some (Finite 1)) 1793000001300 = false.
Proof. vm_compute. repeat split. Qed.

(** The expiration check comes after the header check: a decoded token with
    numeric [exp] far in the past but no [alg] fails with the header error,
    and [validateJwt] reports it with [isExpired = false]. *)
Lemma expiration_check_follows_header_check :
  let m := {| header := JObject [];
              payload := JObject [("exp", JNumber 1)];
              signature := JString "6b3379" |} in
  parseAndDecode (imports := Bench.imports) "empty.old.k3y" = inr m /\
  lessThan (addNumbers (toNumber 1) (Finite 1)) (currentUnixTime 10000) = true /\
  validateJwtObject 10000 m =
    inl (ReferenceError "header parameter 'alg' is not a string") /\
  validateJwt (imports := Bench.imports) (Bench.request "empty.old.k3y" None) 10000 20000 =
    ([], Fulfilled (Invalid "empty.old.k3y"
                      {| message := Some "header parameter 'alg' is not a string";
                         date := 20000 |}
                      false)).
Proof.
  intros m. split; [reflexivity|]. split; [vm_compute; reflexivity|].
  split; reflexivity.
Qed.

(** ** Critical-header dispatcher *)

Lemma existsb_false_Forall {A : Type} (f : A -> bool) (l : list A) :
  existsb f l = false <-> Forall (fun x => f x = false) l.
Proof.
  induction l as [|a l IH]; cbn.
  - split; auto.
  - rewrite orb_false_iff, IH. split.
    + intros [Ha Hl]. now constructor.
    + intros H. inversion H; subst. auto.
Qed.

Lemma notNonEmptyString_false (v : JsonValue) :
  notNonEmptyString v = false <-> exists s, v = JString s /\ s <> EmptyString.
Proof.
  unfold notNonEmptyString. split.
  - destruct v; cbn; try discriminate.
    intros H. apply String.eqb_neq in H. eauto.
  - intros (s & -> & Hs). cbn. now apply String.eqb_neq.
Qed.

Lemma nonEmptyStrings_check (crit : list JsonValue) :
  existsb notNonEmptyString crit = false <-> nonEmptyStrings crit.
Proof.
  rewrite existsb_false_Forall. unfold nonEmptyStrings.
  split; intros H; eapply Forall_impl; try exact H;
    intros v Hv; now apply notNonEmptyString_false.
Qed.

Lemma includes_In (l : list string) (x : string) :
  includes l x = true <-> In x l.
Proof.
  unfold includes. rewrite existsb_exists. split.
  - intros (y & Hin & Heq). apply String.eqb_eq in Heq. now subst.
  - intros Hin. exists x. split; [exact Hin|apply String.eqb_refl].
Qed.

Lemma reserved_check (crit : list JsonValue) :
  listsReserved crit ->
  existsb (fun str => includes reservedWords (asString str)) crit = true.
Proof.
  intros (word & Hin & Hres). apply existsb_exists.
  exists (JString word). split; [exact Hin|].
  cbn [asString]. now apply includes_In.
Qed.

Lemma checkHeaderCrit_malformed {R : Type} (h : JsonValue)
    (handlers : option (Handlers R)) :
  malformedCrit (getProperty h "crit") ->
  exists msg,
    checkHeaderCrit h handlers = ([], inl (Error msg)) /\ msg <> expiredMessage.
Proof.
  intros Hbad. unfold checkHeaderCrit.
  destruct (getProperty h "crit") as [|[| | | |crit|]|];
    try (eexists; split; [reflexivity|discriminate]).
  destruct (existsb notNonEmptyString crit) eqn:Hne.
  - eexists; split; [reflexivity|discriminate].
  - apply nonEmptyStrings_check in Hne.
    destruct Hbad as [Hbad|(crit' & Heq & Hres)].
    + now elim (Hbad crit eq_refl).
    + injection Heq as <-. rewrite (reserved_check crit Hres).
      eexists; split; [reflexivity|discriminate].
Qed.

Lemma validateJwtObject_errors (now : Z) (m : JwtObjectWithUnknownProps) (e : Thrown) :
  validateJwtObject now m = inl e ->
  e = RangeError expiredMessage \/
  exists name msg, e = ErrorObject name msg /\ msg <> expiredMessage.
Proof.
  unfold validateJwtObject.
  repeat match goal with
         | |- context [if ?b then _ else _] => destruct b
         | |- context [match ?x with _ => _ end] => destruct x
         end; intros H; try discriminate; injection H as <-;
    solve [ now left | right; do 2 eexists; split; [reflexivity|discriminate] ].
Qed.

Lemma catchBlock_ErrorObject {R : Type} (v : Validation R) (errDate : Z)
    (name msg : string) :
  catchBlock v errDate (ErrorObject name msg) =
    Fulfilled (Invalid (jwt v) {| message := Some msg; date := errDate |}
                 (String.eqb msg expiredMessage)).
Proof. reflexivity. Qed.

Lemma handleJwtObject_crit {R : Type} (m : JwtObjectWithUnknownProps)
    (handlers : option (Handlers R)) :
  hasProperty "crit" (header m) = true ->
  handleJwtObject m handlers =
    (fst (checkHeaderCrit (header m) handlers),
     let* critResult := snd (checkHeaderCrit (header m) handlers) in
     inr (m, Some critResult)).
Proof.
  intros H. unfold handleJwtObject. rewrite H.
  now destruct (checkHeaderCrit (header m) handlers).
Qed.

Section OrchestratorDispatch.

Context {imports : Imports} {R : Type}.
Variables (v : Validation R) (now errDate : Z).

Lemma validateJwt_dispatch_failure (m : JwtObjectWithUnknownProps)
    (calls : list Call) (e : Thrown) :
  parseAndDecode (jwt v) = inr m ->
  validateJwtObject now m = inr m ->
  handleJwtObject m (critHandlers v) = (calls, inl e) ->
  validateJwt v now errDate = (calls, catchBlock v errDate e).
Proof.
  intros H1 H2 H3. unfold validateJwt, tryBlock. rewrite H1. cbn [bind].
  rewrite H2, H3. reflexivity.
Qed.

End OrchestratorDispatch.

(** C7 (as amended): a header whose [crit] value is not an array of
    non-empty strings, or whose [crit] array lists a reserved name, makes
    [checkHeaderCrit] fail whatever handlers are supplied, without calling
    any; [validateJwt] on such a token returns Invalid, and [isExpired] is
    [true] only if the structural validator, which runs first, found the
    token expired: it is [false] whenever the token passes that validator. *)
Theorem malformed_crit_rejected (R : Type) (h : JsonValue)
    (members : list (string * JsonValue)) (c : JsonValue) :
  h = JObject members ->
  ownProperty "crit" members = Some c ->
  malformedCrit (Json c) ->
  (forall handlers : option (Handlers R),
      exists msg,
        checkHeaderCrit h handlers = ([], inl (Error msg)) /\ msg <> expiredMessage) /\
  (forall (imports : Imports) (v : Validation R) (now errDate : Z)
          (m : JwtObjectWithUnknownProps),
      parseAndDecode (jwt v) = inr m ->
      header m = h ->
      exists err b,
        validateJwt v now errDate = ([], Fulfilled (Invalid (jwt v) err b)) /\
        (b = true <-> validateJwtObject now m = inl (RangeError expiredMessage)) /\
        (validateJwtObject now m = inr m -> b = false)).
Proof.
  intros -> Hc Hbad.
  assert (Hget : getProperty (JObject members) "crit" = Json c).
  { unfold getProperty. now rewrite Hc. }
  assert (Hfail : forall handlers : option (Handlers R),
             exists msg,
               checkHeaderCrit (JObject members) handlers = ([], inl (Error msg)) /\
               msg <> expiredMessage).
  { intros handlers. apply checkHeaderCrit_malformed. now rewrite Hget. }
  split; [exact Hfail|].
  intros imports v now errDate m Hdec Hh.
  destruct (validateJwtObject now m) as [e|m'] eqn:Hval.
  - rewrite (validateJwt_structural_failure v now errDate m e Hdec Hval).
    destruct (validateJwtObject_errors now m e Hval) as [->|(name & msg & -> & Hmsg)].
    + do 2 eexists. split; [reflexivity|]. split; [tauto|discriminate].
    + rewrite catchBlock_ErrorObject. do 2 eexists. split; [reflexivity|].
      apply String.eqb_neq in Hmsg. rewrite Hmsg.
      split; [|reflexivity]. split; [discriminate|].
      intros H. injection H as H. apply String.eqb_neq in Hmsg. congruence.
  - assert (m' = m) as -> by exact (validateJwtObject_returns_argument now m m' Hval).
    destruct (Hfail (critHandlers v)) as (msg & Hchk & Hmsg).
    assert (Hhandle : handleJwtObject m (critHandlers v) = ([], inl (Error msg))).
    { rewrite handleJwtObject_crit.
      - rewrite Hh, Hchk. reflexivity.
      - rewrite Hh. unfold hasProperty. now rewrite Hget. }
    rewrite (validateJwt_dispatch_failure v now errDate m [] _ Hdec Hval Hhandle).
    unfold Error. rewrite catchBlock_ErrorObject.
    apply String.eqb_neq in Hmsg. rewrite Hmsg.
    do 2 eexists. split; [reflexivity|]. split; [|reflexivity].
    split; discriminate.
Qed.

Lemma malformed_crit_rejected_witness :
  exists err b,
    validateJwt (imports := Bench.imports) (Bench.request "critAlg.empty.k3y" None)
      10000 20000 =
      ([], Fulfilled (Invalid "critAlg.empty.k3y" err b)) /\
    b = false.
Proof.
  pose (members := [("alg", JString "HS256"); ("crit", JArray [JString "alg"])]).
  assert (Hbad : malformedCrit (Json (JArray [JString "alg"]))).
  { right. exists [JString "alg"]. split; [reflexivity|].
    exists "alg". split; [now left|now left]. }
  destruct (proj2 (malformed_crit_rejected string (JObject members) members
                     (JArray [JString "alg"]) eq_refl eq_refl Hbad)
              Bench.imports (Bench.request "critAlg.empty.k3y" None) 10000%Z 20000%Z
              {| header := JObject members; payload := JObject [];
                 signature := JString "6b3379" |} eq_refl eq_refl)
    as (err & b & Hres & _ & Hb).
  exists err, b. split; [exact Hres|]. apply Hb. reflexivity.
Defined.

(** A reserved name in [crit] on a token that is also expired: the
    structural validator rejects the token first, and the result carries
    [isExpired = true]. *)
Lemma reserved_crit_on_expired_token :
  let h := JObject [("alg", JString "HS256"); ("crit", JArray [JString "alg"])] in
  parseAndDecode (imports := Bench.imports) "critAlg.old.k3y" =
    inr {| header := h; payload := JObject [("exp", JNumber 1)];
           signature := JString "6b3379" |} /\
  listsReserved [JString "alg"] /\
  validateJwt (imports := Bench.imports) (Bench.request "critAlg.old.k3y" None) 10000 20000 =
    ([], Fulfilled (Invalid (R := string) "critAlg.old.k3y"
                      {| message := Some expiredMessage; date := 20000 |} true)).
Proof.
  intros h. split; [reflexivity|]. split; [|reflexivity].
  exists "alg". split; now left.
Qed.

(** *** Handler invocation *)

Section Invocation.

Context {R : Type}.
Variables (h : JsonValue) (handlers : option (Handlers R)).

Local Abbreviation callFor := (callFor h).
Local Abbreviation settledAs := (settledAs h handlers).

Lemma callHandlers_promises (crit : list JsonValue) :
  forall calls ps,
    callHandlers h handlers crit = (calls, inr ps) ->
    calls = map callFor crit /\ Forall2 settledAs crit ps.
Proof.
  induction crit as [|v crit IH]; cbn; intros calls ps H.
  - injection H as <- <-. split; [reflexivity|constructor].
  - destruct (handlerFor handlers (asString v)) as [f|] eqn:Hf; [|discriminate].
    destruct (f (getProperty h (asString v))) as [r|e|tick e] eqn:Hc;
      [|discriminate|];
      destruct (callHandlers h handlers crit) as [calls' [e'|ps']];
      cbn in H; try discriminate;
      injection H as <- <-;
      destruct (IH calls' ps' eq_refl) as [Hcalls Hall]; subst calls';
      (split; [reflexivity|]); constructor; try exact Hall;
      exists f; auto.
Qed.

Lemma promiseAll_fulfilled (ps : list ((nat * Thrown) + R)) (results : list R) :
  promiseAll ps = inr results -> ps = map inr results.
Proof.
  unfold promiseAll.
  destruct (firstRejection ps) as [[tick e]|] eqn:Hfirst; [discriminate|].
  intros H. injection H as <-. revert Hfirst.
  induction ps as [|[[t e]|r] ps IH]; cbn [firstRejection fulfilledValues map].
  - reflexivity.
  - destruct (firstRejection ps) as [[t' e']|]; [|discriminate].
    destruct (Nat.ltb t' t); discriminate.
  - intros H. f_equal. now apply IH.
Qed.

Lemma Forall2_settled_fulfilled (crit : list JsonValue) (results : list R) :
  Forall2 settledAs crit (map inr results) ->
  Forall2 (fun v r => settledAs v (inr r)) crit results.
Proof.
  revert crit. induction results as [|r results IH]; cbn; intros crit H.
  - inversion H; subst. constructor.
  - inversion H; subst. constructor; auto.
Qed.

(** What a successful dispatch establishes. *)
Lemma checkHeaderCrit_success (calls : list Call) (results : list R) :
  checkHeaderCrit h handlers = (calls, inr results) ->
  exists crit,
    getProperty h "crit" = Json (JArray crit) /\
    nonEmptyStrings crit /\
    existsb (notUnderstood h handlers) crit = false /\
    calls = map callFor crit /\
    Forall2 (fun v r => settledAs v (inr r)) crit results.
Proof.
  unfold checkHeaderCrit.
  destruct (getProperty h "crit") as [|[| | | |crit|]|]; try discriminate.
  destruct (existsb notNonEmptyString crit) eqn:Hne; [discriminate|].
  match goal with
  | |- context [if ?c then _ else _] => destruct c; [discriminate|]
  end.
  destruct (existsb (notUnderstood h handlers) crit) eqn:Hund; [discriminate|].
  destruct (callHandlers h handlers crit) as [calls' [e|ps]] eqn:Hcalls;
    cbn; [discriminate|].
  intros H. injection H as -> Hall.
  apply promiseAll_fulfilled in Hall. subst ps.
  destruct (callHandlers_promises crit calls (map inr results) Hcalls) as [-> HF].
  exists crit. repeat split; auto.
  - now apply nonEmptyStrings_check.
  - now apply Forall2_settled_fulfilled.
Qed.

End Invocation.

Lemma Forall2_nth_error_l {A B : Type} (P : A -> B -> Prop) (l1 : list A) (l2 : list B) :
  Forall2 P l1 l2 ->
  forall i a, nth_error l1 i = Some a -> exists b, nth_error l2 i = Some b /\ P a b.
Proof.
  induction 1 as [|x y l1 l2 Hxy _ IH]; intros [|i] a; cbn; try discriminate.
  - intros H. injection H as <-. eauto.
  - apply IH.
Qed.

(** *** Entries that are not understood *)

Lemma handleJwtObject_without_crit {R : Type} (m : JwtObjectWithUnknownProps)
    (handlers : option (Handlers R)) :
  hasProperty "crit" (header m) = false ->
  handleJwtObject m handlers = ([], inr (m, None)).
Proof. intros H. unfold handleJwtObject. now rewrite H. Qed.

Lemma handleJwtObject_returns_argument {R : Type} (m m' : JwtObjectWithUnknownProps)
    (handlers : option (Handlers R)) (calls : list Call) (critResult : option (list R)) :
  handleJwtObject m handlers = (calls, inr (m', critResult)) -> m' = m.
Proof.
  unfold handleJwtObject. destruct (hasProperty "crit" (header m)).
  - destruct (checkHeaderCrit (header m) handlers) as [calls' [e|results]]; cbn;
      intros H; [discriminate|]. now injection H.
  - intros H. now injection H.
Qed.

Lemma unreserved_check (crit : list JsonValue) :
  nonEmptyStrings crit ->
  ~ listsReserved crit ->
  existsb (fun str => includes reservedWords (asString str)) crit = false.
Proof.
  intros Hne Hres.
  destruct (existsb _ crit) eqn:H; [|reflexivity].
  exfalso. apply Hres. apply existsb_exists in H. destruct H as (v & Hin & Hv).
  unfold nonEmptyStrings in Hne. rewrite Forall_forall in Hne.
  destruct (Hne v Hin) as (word & -> & _). cbn [asString] in Hv.
  exists word. split; [exact Hin|]. now apply includes_In.
Qed.

(** For a [crit] list that passes the first two checks, an entry that
    reads as [undefined] from the header, or for which the handler table
    gives no function, stops the dispatch before any handler is called. *)
Lemma checkHeaderCrit_not_understood {R : Type} (h : JsonValue)
    (handlers : option (Handlers R)) (crit : list JsonValue) (str : string) :
  getProperty h "crit" = Json (JArray crit) ->
  nonEmptyStrings crit ->
  ~ listsReserved crit ->
  In (JString str) crit ->
  getProperty h str = Undefined \/ handlerFor handlers str = None ->
  checkHeaderCrit h handlers =
    ([], inl (Error "critical extension header parameters are not understood")).
Proof.
  intros Hcrit Hne Hres Hin Hmiss. unfold checkHeaderCrit. rewrite Hcrit.
  rewrite (proj2 (nonEmptyStrings_check crit) Hne).
  rewrite (unreserved_check crit Hne Hres).
  assert (Hund : existsb (notUnderstood h handlers) crit = true).
  { apply existsb_exists. exists (JString str). split; [exact Hin|].
    unfold notUnderstood, noHandler. cbn [asString].
    destruct Hmiss as [-> | ->]; [reflexivity|apply orb_true_r]. }
  now rewrite Hund.
Qed.

(** An entry absent from the header's own members is read as [undefined]
    unless its name is one that objects inherit. *)
Lemma getProperty_absent (members : list (string * JsonValue)) (str : string) :
  ownProperty str members = None ->
  includes objectPrototypeMembers str = false ->
  getProperty (JObject members) str = Undefined.
Proof. intros Hown Hproto. unfold getProperty. now rewrite Hown, Hproto. Qed.

Lemma typeof_undefined (x : JsValue) :
  String.eqb (typeof x) "undefined" = true <-> x = Undefined.
Proof.
  split.
  - destruct x as [|[| | | | |]|name]; cbn [typeof]; try discriminate;
      [reflexivity|].
    destruct (includes objectPrototypeFunctions name); discriminate.
  - intros ->. reflexivity.
Qed.

(** The dispatch for a [crit] list with a single entry that passes the three
    checks: one call, whose completion decides the outcome. *)
Lemma checkHeaderCrit_single {R : Type} (h : JsonValue)
    (handlers : option (Handlers R)) (name : string) (f : Handler R) :
  getProperty h "crit" = Json (JArray [JString name]) ->
  name <> EmptyString ->
  ~ In name reservedWords ->
  getProperty h name <> Undefined ->
  handlerFor handlers name = Some f ->
  checkHeaderCrit h handlers =
    ([(name, getProperty h name)],
     match f (getProperty h name) with
     | Return r => inr [r]
     | Throw e => inl e
     | RejectAt _ e => inl e
     end).
Proof.
  intros Hcrit Hname Hres Hdef Hf. unfold checkHeaderCrit. rewrite Hcrit.
  cbn [existsb asString]. rewrite orb_false_r.
  rewrite (proj2 (notNonEmptyString_false (JString name))) by eauto.
  rewrite orb_false_r.
  destruct (includes reservedWords name) eqn:Hinc;
    [apply includes_In in Hinc; contradiction|].
  unfold notUnderstood, noHandler. cbn [asString]. rewrite Hf, !orb_false_r.
  destruct (String.eqb (typeof (getProperty h name)) "undefined") eqn:Hty;
    [apply typeof_undefined in Hty; contradiction|].
  cbn [callHandlers asString]. rewrite Hf.
  destruct (f (getProperty h name)) as [r|e|tick e]; reflexivity.
Qed.

(** C8: a [crit] entry that is absent from the header's own members and has
    no function registered under its name in the handler table, but whose
    name is that of a function every object inherits from [Object.prototype]
    (such as [toString]), is not reported as not understood: both property
    reads find the inherited function, which is then called as the handler
    with the inherited member as its argument, and the dispatch succeeds. *)
Theorem inherited_name_passes_dispatch (R : Type)
    (members : list (string * JsonValue)) (name : string)
    (own : list (string * Handler R)) (inherited : string -> Handler R) (r : R) :
  ownProperty "crit" members = Some (JArray [JString name]) ->
  ownProperty name members = None ->
  ownHandler name own = None ->
  In name objectPrototypeFunctions ->
  inherited name (Inherited name) = Return r ->
  checkHeaderCrit (JObject members) (Some (objectLiteral own inherited)) =
    ([(name, Inherited name)], inr [r]).
Proof.
  intros Hcrit Hown Hreg Hin Hr.
  assert (Hfun : includes objectPrototypeFunctions name = true)
    by now apply includes_In.
  assert (Hget : getProperty (JObject members) name = Inherited name).
  { unfold getProperty. rewrite Hown.
    assert (Hmem : includes objectPrototypeMembers name = true).
    { apply includes_In. unfold objectPrototypeMembers. apply in_or_app. now left. }
    now rewrite Hmem. }
  assert (Hname : name <> EmptyString /\ ~ In name reservedWords).
  { cbn in Hin.
    repeat (destruct Hin as [<-|Hin];
            [split; [discriminate|];
             intros Hres; apply includes_In in Hres; discriminate|]).
    contradiction. }
  rewrite (checkHeaderCrit_single (JObject members)
             (Some (objectLiteral own inherited)) name (inherited name)).
  - now rewrite Hget, Hr.
  - unfold getProperty. now rewrite Hcrit.
  - apply Hname.
  - apply Hname.
  - rewrite Hget. discriminate.
  - cbn [handlerFor]. unfold objectLiteral. now rewrite Hreg, Hfun.
Qed.

Lemma inherited_name_passes_dispatch_witness :
  checkHeaderCrit
    (JObject [("alg", JString "HS256"); ("crit", JArray [JString "toString"])])
    (Some Bench.emptyTable) =
    ([("toString", Inherited "toString")], inr ["[object Object]"]).
Proof.
  refine (inherited_name_passes_dispatch string
            [("alg", JString "HS256"); ("crit", JArray [JString "toString"])]
            "toString" [] (fun _ _ => Return "[object Object]") "[object Object]"
            eq_refl eq_refl eq_refl _ eq_refl).
  cbn. tauto.
Defined.

(** The whole validation of such a token, signed with the key, against the
    empty handler table: Valid. *)
Example inherited_name_token_is_valid :
  validateJwt (imports := Bench.imports)
    (Bench.request "critToString.empty.k3y" (Some Bench.emptyTable)) 10000 20000 =
    ([("toString", Inherited "toString")],
     Fulfilled (Valid {| header := JObject [("alg", JString "HS256");
                                            ("crit", JArray [JString "toString"])];
                         payload := JObject [];
                         signature := JString "6b3379" |}
                  "critToString.empty.k3y" (Some ["[object Object]"]))).
Proof. reflexivity. Qed.

(** ** Decoder: outcomes *)

Lemma mapThrowing_success {A B : Type} (f : A -> nat -> Throwing B) (l : list A) :
  forall index bs,
    mapThrowing f index l = inr bs ->
    length bs = length l /\
    forall k a,
      nth_error l k = Some a ->
      exists b, f a (index + k)%nat = inr b /\ nth_error bs k = Some b.
Proof.
  induction l as [|a0 l IH]; cbn; intros index bs H.
  - injection H as <-. split; [reflexivity|]. intros [|k] a; discriminate.
  - destruct (f a0 index) as [e|b0] eqn:Hb0; cbn in H; [discriminate|].
    destruct (mapThrowing f (S index) l) as [e|bs'] eqn:Hrest; cbn in H;
      [discriminate|].
    injection H as <-. destruct (IH (S index) bs' Hrest) as [Hlen Hnth].
    split; [cbn; now rewrite Hlen|].
    intros [|k] a Ha; cbn in *.
    + injection Ha as <-. rewrite Nat.add_0_r. eauto.
    + rewrite Nat.add_succ_r. exact (Hnth k a Ha).
Qed.

Lemma mapThrowing_failure {A B : Type} (f : A -> nat -> Throwing B) (l : list A) :
  forall index e,
    mapThrowing f index l = inl e ->
    exists k a, nth_error l k = Some a /\ f a (index + k)%nat = inl e.
Proof.
  induction l as [|a0 l IH]; cbn; intros index e H; [discriminate|].
  destruct (f a0 index) as [e0|b0] eqn:Hb0; cbn in H.
  - injection H as <-. exists 0%nat, a0. rewrite Nat.add_0_r. auto.
  - destruct (mapThrowing f (S index) l) as [e1|bs'] eqn:Hrest; cbn in H;
      [|discriminate].
    injection H as <-. destruct (IH (S index) e1 Hrest) as (k & a & Ha & Hf).
    exists (S k), a. rewrite Nat.add_succ_r. auto.
Qed.

Section DecoderFacts.

Context {imports : Imports}.

(** A successful decoding had three segments, each decodable, and its
    signature is the hex string of the third. *)
Lemma parseAndDecode_success (jwt : string) (m : JwtObjectWithUnknownProps) :
  parseAndDecode jwt = inr m ->
  length (split jwt) = 3%nat /\
  (exists sig, signature m = JString sig) /\
  forall i segment,
    nth_error (split jwt) i = Some segment ->
    exists u,
      convertBase64urlToUint8Array segment = inr u /\
      (i <> 2%nat -> exists j, parseJson u = inr j).
Proof.
  unfold parseAndDecode.
  destruct (mapThrowing _ 0 (split jwt)) as [e|us] eqn:Hus; cbn [bind];
    [discriminate|].
  destruct (mapThrowing _ 0 us) as [e|parsed] eqn:Hparsed; cbn [bind];
    [discriminate|].
  destruct (Nat.eqb (length parsed) 3) eqn:Hlen; cbn [negb]; [|discriminate].
  intros H. injection H as <-. cbn [signature].
  apply Nat.eqb_eq in Hlen.
  destruct (mapThrowing_success _ _ _ _ Hus) as [Hlen1 Hnth1].
  destruct (mapThrowing_success _ _ _ _ Hparsed) as [Hlen2 Hnth2].
  split; [congruence|]. split.
  - destruct us as [|u0 [|u1 [|u2 us]]]; cbn in Hlen2; try lia.
    destruct (Hnth2 2%nat u2 eq_refl) as (b & Hb & Hnb). cbn in Hb.
    injection Hb as <-. rewrite (nth_error_nth _ _ JNull Hnb). eauto.
  - intros i segment Hseg.
    destruct (Hnth1 i segment Hseg) as (u & Hu & Hnu). exists u.
    split; [exact Hu|]. intros Hi.
    destruct (Hnth2 i u Hnu) as (b & Hb & _). cbn in Hb.
    apply Nat.eqb_neq in Hi. rewrite Hi in Hb. eauto.
Qed.

(** When the decoders throw plain errors, so does [parseAndDecode]. *)
Lemma parseAndDecode_plainError (jwt : string) (e : Thrown) :
  decodersThrowPlainErrors ->
  parseAndDecode jwt = inl e -> plainError e.
Proof.
  intros [Hb64 Hjson]. unfold parseAndDecode.
  destruct (mapThrowing _ 0 (split jwt)) as [e1|us] eqn:Hus; cbn [bind].
  - intros H. injection H as <-.
    destruct (mapThrowing_failure _ _ _ _ Hus) as (k & a & _ & Hf). eauto.
  - destruct (mapThrowing _ 0 us) as [e2|parsed] eqn:Hparsed; cbn [bind].
    + intros H. injection H as <-.
      destruct (mapThrowing_failure _ _ _ _ Hparsed) as (k & a & _ & Hf).
      cbn in Hf. destruct (Nat.eqb k 2); [discriminate|]. eauto.
    + destruct (Nat.eqb (length parsed) 3); cbn [negb]; [discriminate|].
      intros H. injection H as <-. do 2 eexists. split; [reflexivity|discriminate].
Qed.

End DecoderFacts.

(** C4: an input whose split on ['.'] does not give exactly three segments,
    or one of whose segments cannot be decoded, makes [parseAndDecode] fail;
    and, the imported decoders throwing plain errors, [validateJwt] returns
    the Invalid shape with [isExpired = false] and the input as [jwt]. *)
Theorem malformed_token_rejected (imports : Imports) (input : string) :
  length (split input) <> 3%nat \/ undecodable input ->
  (exists e, parseAndDecode input = inl e) /\
  (decodersThrowPlainErrors ->
   forall (R : Type) (v : Validation R) (now errDate : Z),
     jwt v = input ->
     exists err,
       validateJwt v now errDate = ([], Fulfilled (Invalid input err false))).
Proof.
  intros Hbad.
  assert (Hfail : exists e, parseAndDecode input = inl e).
  { destruct (parseAndDecode input) as [e|m] eqn:Hdec; [eauto|].
    exfalso. destruct (parseAndDecode_success input m Hdec) as (Hlen & _ & Hsegs).
    destruct Hbad as [Hbad|(i & segment & Hseg & Hbad)]; [contradiction|].
    destruct (Hsegs i segment Hseg) as (u & Hu & Hj).
    destruct Hbad as [[e He]|(Hi & u' & e & Hu' & He)]; [congruence|].
    rewrite Hu in Hu'. injection Hu' as <-.
    destruct (Hj Hi) as [j Hjson]. congruence. }
  split; [exact Hfail|].
  intros Hplain R v now errDate <-. destruct Hfail as [e He].
  destruct (parseAndDecode_plainError (jwt v) e Hplain He) as (name & msg & -> & Hmsg).
  rewrite (validateJwt_decode_failure v now errDate _ He), catchBlock_ErrorObject.
  apply String.eqb_neq in Hmsg. rewrite Hmsg. eauto.
Qed.

Lemma bench_decoders_plain : decodersThrowPlainErrors (imports := Bench.imports).
Proof.
  split; cbn.
  - intros segment e. unfold Bench.decodeSegment.
    destruct (forallb _ _); intros H; [discriminate|]. injection H as <-.
    do 2 eexists. split; [reflexivity|discriminate].
  - intros u e. unfold Bench.parseDocument.
    destruct (ownProperty _ _); intros H; [discriminate|]. injection H as <-.
    do 2 eexists. split; [reflexivity|discriminate].
Qed.

Lemma malformed_token_rejected_witness :
  (exists e, parseAndDecode (imports := Bench.imports) "hs256.empty" = inl e) /\
  (exists err,
      validateJwt (imports := Bench.imports) (Bench.request "hs256.empty" None)
        10000 20000 =
        ([], Fulfilled (Invalid "hs256.empty" err false))).
Proof.
  assert (Hlen : length (split "hs256.empty") <> 3%nat) by (cbn; lia).
  destruct (malformed_token_rejected Bench.imports "hs256.empty" (or_introl Hlen))
    as [Hfail Hres].
  split; [exact Hfail|].
  exact (Hres bench_decoders_plain string (Bench.request "hs256.empty" None)
           10000%Z 20000%Z eq_refl).
Defined.

Example undecodable_segment :
  undecodable (imports := Bench.imports) "hs256.em!pty.k3y" /\
  undecodable (imports := Bench.imports) "hs256.unknown.k3y".
Proof.
  split.
  - exists 1%nat, "em!pty". split; [reflexivity|]. left. eexists. reflexivity.
  - exists 1%nat, "unknown". split; [reflexivity|]. right.
    split; [discriminate|]. do 2 eexists. split; reflexivity.
Qed.

(** ** Orchestrator: the path through the [try] block *)

Section TryBlock.

Context {imports : Imports} {R : Type}.
Variables (v : Validation R) (now : Z).

Lemma tryBlock_afterDispatch (m : JwtObjectWithUnknownProps) (calls : list Call)
    (critResult : option (list R)) :
  parseAndDecode (jwt v) = inr m ->
  validateJwtObject now m = inr m ->
  handleJwtObject m (critHandlers v) = (calls, inr (m, critResult)) ->
  tryBlock v now = (calls, afterDispatch v m critResult).
Proof.
  intros H1 H2 H3. unfold tryBlock. rewrite H1. cbn [bind]. rewrite H2, H3.
  reflexivity.
Qed.

(** The four places where the [try] block can be left. *)
Lemma tryBlock_cases (calls : list Call) (r : Throwing (JwtValidation R)) :
  tryBlock v now = (calls, r) ->
  (exists e, parseAndDecode (jwt v) = inl e /\ calls = [] /\ r = inl e) \/
  (exists m e,
      parseAndDecode (jwt v) = inr m /\ validateJwtObject now m = inl e /\
      calls = [] /\ r = inl e) \/
  (exists m e,
      parseAndDecode (jwt v) = inr m /\ validateJwtObject now m = inr m /\
      handleJwtObject m (critHandlers v) = (calls, inl e) /\ r = inl e) \/
  (exists m critResult,
      parseAndDecode (jwt v) = inr m /\ validateJwtObject now m = inr m /\
      handleJwtObject m (critHandlers v) = (calls, inr (m, critResult)) /\
      r = afterDispatch v m critResult).
Proof.
  unfold tryBlock.
  destruct (parseAndDecode (jwt v)) as [e|m] eqn:Hdec; cbn [bind].
  - intros H. injection H as <- <-. left. eauto.
  - destruct (validateJwtObject now m) as [e|m'] eqn:Hval.
    + intros H. injection H as <- <-. right. left. eauto 7.
    + assert (m' = m) as -> by exact (validateJwtObject_returns_argument now m m' Hval).
      destruct (handleJwtObject m (critHandlers v)) as [calls' [e|[m' critResult]]]
        eqn:Hhandle.
      * intros H. injection H as <- <-. right. right. left. eauto 7.
      * assert (m' = m) as ->
          by exact (handleJwtObject_returns_argument _ _ _ _ _ Hhandle).
        intros H. injection H as <- <-. right. right. right. eauto 7.
Qed.

End TryBlock.

(** ** Failures of the dispatcher *)

Section DispatchFailure.

Context {R : Type}.
Variables (h : JsonValue) (handlers : option (Handlers R)).

Lemma plainError_Error (msg : string) :
  msg <> expiredMessage -> plainError (Error msg).
Proof. intros H. exists "Error", msg. auto. Qed.

Lemma callHandlers_failure (crit : list JsonValue) :
  forall calls e,
    callHandlers h handlers crit = (calls, inl e) ->
    plainError e \/
    exists v f,
      In v crit /\ handlerFor handlers (asString v) = Some f /\
      f (getProperty h (asString v)) = Throw e.
Proof.
  induction crit as [|v crit IH]; cbn [callHandlers]; intros calls e H;
    [discriminate|].
  destruct (handlerFor handlers (asString v)) as [f|] eqn:Hf.
  - destruct (f (getProperty h (asString v))) as [r|e0|tick e0] eqn:Hc.
    + destruct (callHandlers h handlers crit) as [calls' [e'|ps']]; cbn in H;
        [|discriminate].
      injection H as <- <-. destruct (IH calls' e' eq_refl) as [Hp|(v' & f' & Hin & H')].
      * now left.
      * right. exists v', f'. split; [now right|exact H'].
    + injection H as <- <-. right. exists v, f. split; [now left|auto].
    + destruct (callHandlers h handlers crit) as [calls' [e'|ps']]; cbn in H;
        [|discriminate].
      injection H as <- <-. destruct (IH calls' e' eq_refl) as [Hp|(v' & f' & Hin & H')].
      * now left.
      * right. exists v', f'. split; [now right|exact H'].
  - injection H as <- <-. left. do 2 eexists. split; [reflexivity|discriminate].
Qed.

Lemma firstRejection_In (ps : list ((nat * Thrown) + R)) (tick : nat) (e : Thrown) :
  firstRejection ps = Some (tick, e) -> In (inl (tick, e)) ps.
Proof.
  revert tick e.
  induction ps as [|[[t0 e0]|r] ps IH]; cbn [firstRejection]; intros tick e H.
  - discriminate.
  - destruct (firstRejection ps) as [[t' e']|].
    + destruct (Nat.ltb t' t0); injection H as <- <-.
      * right. now apply IH.
      * now left.
    + injection H as <- <-. now left.
  - right. now apply IH.
Qed.

Lemma promiseAll_rejected (ps : list ((nat * Thrown) + R)) (e : Thrown) :
  promiseAll ps = inl e -> exists tick, In (inl (tick, e)) ps.
Proof.
  unfold promiseAll.
  destruct (firstRejection ps) as [[tick e']|] eqn:Hfirst; [|discriminate].
  intros H. injection H as <-. exists tick. now apply firstRejection_In.
Qed.

Lemma Forall2_In_r {A B : Type} (P : A -> B -> Prop) (l1 : list A) (l2 : list B) (b : B) :
  Forall2 P l1 l2 -> In b l2 -> exists a, In a l1 /\ P a b.
Proof.
  induction 1 as [|x y l1 l2 Hxy _ IH]; cbn; [contradiction|].
  intros [->|Hin].
  - exists x. auto.
  - destruct (IH Hin) as (a & Ha & HP). exists a. auto.
Qed.

(** A failed dispatch failed on one of the dispatcher's own checks, or
    with a value raised by the handler of an entry. *)
Lemma checkHeaderCrit_failure (calls : list Call) (e : Thrown) :
  checkHeaderCrit h handlers = (calls, inl e) ->
  plainError e \/
  exists crit,
    getProperty h "crit" = Json (JArray crit) /\
    raisedByHandler h handlers crit e.
Proof.
  unfold checkHeaderCrit.
  destruct (getProperty h "crit") as [|[| | | |crit|]|];
    try (intros H; injection H as <- <-; left; apply plainError_Error; discriminate).
  repeat match goal with
         | |- context [if ?c then _ else _] =>
             destruct c;
             [intros H; injection H as <- <-; left; apply plainError_Error;
              discriminate|]
         end.
  destruct (callHandlers h handlers crit) as [calls' [e'|ps]] eqn:Hcalls; cbn [bind].
  - intros H. injection H as <- <-.
    destruct (callHandlers_failure crit calls' e' Hcalls) as [Hp|(v & f & Hin & Hf & Hc)].
    + now left.
    + right. exists crit. split; [reflexivity|]. exists v, f. auto.
  - intros H. injection H as <- Hall.
    destruct (promiseAll_rejected ps e Hall) as [tick Hin].
    destruct (callHandlers_promises h handlers crit calls' ps Hcalls) as [_ HF].
    destruct (Forall2_In_r _ _ _ _ HF Hin) as (v & Hv & f & Hf & Hc).
    right. exists crit. split; [reflexivity|]. exists v, f. eauto.
Qed.

End DispatchFailure.

Lemma handleJwtObject_failure {R : Type} (m : JwtObjectWithUnknownProps)
    (handlers : option (Handlers R)) (calls : list Call) (e : Thrown) :
  handleJwtObject m handlers = (calls, inl e) ->
  checkHeaderCrit (header m) handlers = (calls, inl e).
Proof.
  unfold handleJwtObject. destruct (hasProperty "crit" (header m)); [|discriminate].
  destruct (checkHeaderCrit (header m) handlers) as [calls' [e'|results]]; cbn;
    intros H; [|discriminate]. now injection H as <- <-.
Qed.

(** ** Orchestrator: after the dispatch *)

Section AfterDispatch.

Context {imports : Imports} {R : Type}.
Variables (v : Validation R) (m : JwtObjectWithUnknownProps)
          (critResult : option (list R)).

Lemma afterDispatch_success (result : JwtValidation R) :
  afterDispatch v m critResult = inr result ->
  validateAlgorithm (algorithm v) (algOf m) = true /\
  exists newJwt newJwtObject,
    makeJwt m (key v) = inr newJwt /\
    parseAndDecode newJwt = inr newJwtObject /\
    strictEquals (signature m) (signature newJwtObject) = true /\
    result = Valid m (jwt v) critResult.
Proof.
  unfold afterDispatch.
  destruct (validateAlgorithm (algorithm v) (algOf m)); cbn [negb]; [|discriminate].
  destruct (makeJwt m (key v)) as [e|newJwt] eqn:Hmake; cbn [bind]; [discriminate|].
  destruct (parseAndDecode newJwt) as [e|newJwtObject] eqn:Hnew; cbn [bind];
    [discriminate|].
  destruct (strictEquals (signature m) (signature newJwtObject)) eqn:Heq;
    cbn [negb]; [|discriminate].
  intros H. injection H as <-. split; [reflexivity|]. eauto 6.
Qed.

Lemma afterDispatch_failure (e : Thrown) :
  decodersThrowPlainErrors ->
  signerThrowsPlainErrors ->
  afterDispatch v m critResult = inl e ->
  plainError e.
Proof.
  intros Hdec Hsign. unfold afterDispatch.
  destruct (validateAlgorithm (algorithm v) (algOf m)); cbn [negb].
  - destruct (makeJwt m (key v)) as [e1|newJwt] eqn:Hmake; cbn [bind].
    + intros H. injection H as <-. eauto.
    + destruct (parseAndDecode newJwt) as [e2|newJwtObject] eqn:Hnew; cbn [bind].
      * intros H. injection H as <-. eapply parseAndDecode_plainError; eauto.
      * destruct (strictEquals _ _); cbn [negb]; [discriminate|].
        intros H. injection H as <-. apply plainError_Error. discriminate.
  - intros H. injection H as <-. apply plainError_Error. discriminate.
Qed.

End AfterDispatch.

Lemma strictEquals_strings (a b : string) :
  strictEquals (JString a) (JString b) = true <-> a = b.
Proof. cbn. apply String.eqb_eq. Qed.

(** ** The [catch] block *)

Lemma isExpiredMessage_true (msg : option string) :
  isExpiredMessage msg = true <-> msg = Some expiredMessage.
Proof.
  destruct msg as [s|]; cbn.
  - rewrite String.eqb_eq. split; congruence.
  - split; discriminate.
Qed.

Lemma catchBlock_invalid {R : Type} (v : Validation R) (errDate : Z) (e : Thrown)
    (j : string) (err : JwtError) (b : bool) :
  catchBlock v errDate e = Fulfilled (Invalid j err b) ->
  j = jwt v /\
  date err = errDate /\
  readMessage e = inr (message err) /\
  b = isExpiredMessage (message err).
Proof.
  unfold catchBlock. destruct (readMessage e) as [te|msg]; [discriminate|].
  intros H. injection H as <- <- <-. auto.
Qed.

Lemma plainError_message (e : Thrown) :
  plainError e -> readMessage e <> inr (Some expiredMessage).
Proof.
  intros (name & msg & -> & Hmsg). cbn. congruence.
Qed.

(** C2 (as amended): in an Invalid result [isExpired] is [true] exactly when
    the message of the caught value is the expiration message.  With
    imported decoders and signer that throw plain errors, this happens in
    two cases only: the token passed the signature and header checks and its
    numeric [exp] is past the leeway, or a [crit] handler threw (or rejected
    with) a value whose message is the expiration message.  In every other
    failure (malformed token, shape error, failed [crit] checks, algorithm
    mismatch, signature mismatch) the flag is [false]. *)
Theorem isExpired_flag (imports : Imports) (R : Type) (v : Validation R)
    (now errDate : Z) (calls : list Call) (j : string) (err : JwtError) (b : bool) :
  decodersThrowPlainErrors ->
  signerThrowsPlainErrors ->
  validateJwt v now errDate = (calls, Fulfilled (Invalid j err b)) ->
  b = isExpiredMessage (message err) /\
  (b = true <->
   (exists m,
       parseAndDecode (jwt v) = inr m /\ signedAndTyped m /\ expClaimPassed now m) \/
   (exists m crit e,
       parseAndDecode (jwt v) = inr m /\
       validateJwtObject now m = inr m /\
       handleJwtObject m (critHandlers v) = (calls, inl e) /\
       getProperty (header m) "crit" = Json (JArray crit) /\
       raisedByHandler (header m) (critHandlers v) crit e /\
       readMessage e = inr (Some expiredMessage))).
Proof.
  intros Hdecoders Hsigner H. unfold validateJwt in H.
  destruct (tryBlock v now) as [calls' r] eqn:Htry. injection H as <- Hr.
  assert (Hcaught : forall e, r = inl e ->
            b = isExpiredMessage (message err) /\
            (b = true <-> readMessage e = inr (Some expiredMessage))).
  { intros e ->. apply catchBlock_invalid in Hr.
    destruct Hr as (_ & _ & Hmsg & Hb). split; [exact Hb|].
    rewrite Hb, isExpiredMessage_true, Hmsg. split; congruence. }
  destruct (tryBlock_cases v now calls' r Htry)
    as [(e & Hp & _ & Hre)|[(m & e & Hp & Hv & _ & Hre)|[(m & e & Hp & Hv & Hh & Hre)
       |(m & cr & Hp & Hv & Hh & Hre)]]].
  - (* the token does not decode *)
    destruct (Hcaught e Hre) as [Hb Hiff]. split; [exact Hb|]. rewrite Hiff.
    pose proof (plainError_message e (parseAndDecode_plainError _ e Hdecoders Hp)).
    split; [contradiction|].
    intros [(m & Hp' & _)|(m & crit & e' & Hp' & _)]; congruence.
  - (* the structural validator fails *)
    destruct (Hcaught e Hre) as [Hb Hiff]. split; [exact Hb|]. rewrite Hiff.
    destruct (validateJwtObject_errors now m e Hv) as [->|Hplain].
    + split; [|reflexivity]. intros _. left. exists m. split; [exact Hp|].
      now apply validateJwtObject_expired_iff.
    + pose proof (plainError_message e Hplain) as Hne.
      split; [contradiction|].
      intros [(m' & Hp' & Hexp)|(m' & crit & e' & Hp' & Hv' & _)];
        rewrite Hp in Hp'; injection Hp' as <-.
      * apply validateJwtObject_expired_iff in Hexp. rewrite Hv in Hexp.
        injection Hexp as ->. now elim Hne.
      * congruence.
  - (* the dispatcher fails *)
    destruct (Hcaught e Hre) as [Hb Hiff]. split; [exact Hb|]. rewrite Hiff.
    split.
    + intros Hmsg. right.
      destruct (checkHeaderCrit_failure _ _ _ _ (handleJwtObject_failure _ _ _ _ Hh))
        as [Hplain|(crit & Hcrit & Hraised)].
      * now elim (plainError_message e Hplain).
      * exists m, crit, e. auto 7.
    + intros [(m' & Hp' & Hexp)|(m' & crit & e' & Hp' & _ & Hh' & _ & _ & Hmsg)];
        rewrite Hp in Hp'; injection Hp' as <-.
      * apply validateJwtObject_expired_iff in Hexp. congruence.
      * rewrite Hh in Hh'. now injection Hh' as <-.
  - (* the algorithm gate, the signer or the comparison fails *)
    destruct (afterDispatch v m cr) as [e|result] eqn:Hafter; subst r.
    + destruct (Hcaught e eq_refl) as [Hb Hiff]. split; [exact Hb|]. rewrite Hiff.
      pose proof (plainError_message e
                    (afterDispatch_failure v m cr e Hdecoders Hsigner Hafter)).
      split; [contradiction|].
      intros [(m' & Hp' & Hexp)|(m' & crit & e' & Hp' & _ & Hh' & _)];
        rewrite Hp in Hp'; injection Hp' as <-.
      * apply validateJwtObject_expired_iff in Hexp. congruence.
      * congruence.
    + apply afterDispatch_success in Hafter.
      destruct Hafter as (_ & _ & _ & _ & _ & _ & ->). discriminate.
Qed.

Lemma bench_signer_plain : signerThrowsPlainErrors (imports := Bench.imports).
Proof. intros jwtObject key e. cbn. discriminate. Qed.

Lemma isExpired_flag_witness :
  (exists m,
      parseAndDecode (imports := Bench.imports) "hs256.old.k3y" = inr m /\
      signedAndTyped m /\ expClaimPassed 10000 m) \/
  (exists m crit e,
      parseAndDecode (imports := Bench.imports) "hs256.old.k3y" = inr m /\
      validateJwtObject 10000 m = inr m /\
      handleJwtObject (R := string) m None = ([], inl e) /\
      getProperty (header m) "crit" = Json (JArray crit) /\
      raisedByHandler (R := string) (header m) None crit e /\
      readMessage e = inr (Some expiredMessage)).
Proof.
  exact (proj1 (proj2 (isExpired_flag Bench.imports string
                         (Bench.request "hs256.old.k3y" None) 10000 20000 []
                         "hs256.old.k3y"
                         {| message := Some expiredMessage; date := 20000 |} true
                         bench_decoders_plain bench_signer_plain eq_refl))
           eq_refl).
Defined.

(** A handler that throws an error carrying the expiration message, on a
    token that has no [exp] claim at all: the result is flagged as expired. *)
Lemma handler_error_flagged_as_expired :
  let v := Bench.request "critX.empty.k3y"
             (Some (Bench.throwing "x" (Error expiredMessage))) in
  let m := {| header := JObject [("alg", JString "HS256");
                                 ("crit", JArray [JString "x"]); ("x", JNumber 1)];
              payload := JObject [];
              signature := JString "6b3379" |} in
  parseAndDecode (imports := Bench.imports) (jwt v) = inr m /\
  validateJwtObject 10000 m = inr m /\
  validateJwt (imports := Bench.imports) v 10000 20000 =
    ([("x", Json (JNumber 1))],
     Fulfilled (Invalid "critX.empty.k3y"
                  {| message := Some expiredMessage; date := 20000 |} true)).
Proof. repeat split. Qed.

(** ** Settling *)

(** [validateJwt] settles in one of three ways: fulfilled with the Valid
    shape, fulfilled with the Invalid shape echoing the input, or rejected
    because the value caught was [null] or [undefined]. *)
Lemma validateJwt_settles (imports : Imports) (R : Type) (v : Validation R)
    (now errDate : Z) :
  exists calls,
    (exists m critResult,
        validateJwt v now errDate = (calls, Fulfilled (Valid m (jwt v) critResult))) \/
    (exists msg,
        validateJwt v now errDate =
          (calls, Fulfilled (Invalid (jwt v) {| message := msg; date := errDate |}
                               (isExpiredMessage msg)))) \/
    (exists te,
        validateJwt v now errDate = (calls, Rejected te) /\
        tryBlock v now = (calls, inl NullOrUndefined)).
Proof.
  unfold validateJwt. destruct (tryBlock v now) as [calls r] eqn:Htry.
  exists calls. destruct r as [e|result].
  - right. destruct e as [name msg|msg|]; cbn.
    + left. now exists (Some msg).
    + left. now exists msg.
    + right. eauto.
  - left.
    destruct (tryBlock_cases v now calls _ Htry)
      as [(e & _ & _ & Hr)|[(m0 & e & _ & _ & _ & Hr)|[(m0 & e & _ & _ & _ & Hr)
         |(m0 & cr & _ & _ & _ & Hr)]]]; try discriminate.
    symmetry in Hr. apply afterDispatch_success in Hr.
    destruct Hr as (_ & _ & _ & _ & _ & _ & ->). eauto.
Qed.

(** A header without [crit]: no handler is called and the Valid result
    carries no handler outputs. *)
Lemma validateJwt_without_crit (imports : Imports) (R : Type) (v : Validation R)
    (now errDate : Z) (calls : list Call) (m : JwtObjectWithUnknownProps)
    (j : string) (critResult : option (list R)) :
  validateJwt v now errDate = (calls, Fulfilled (Valid m j critResult)) ->
  hasProperty "crit" (header m) = false ->
  calls = [] /\ critResult = None.
Proof.
  intros H Hno. unfold validateJwt in H.
  destruct (tryBlock v now) as [calls' r] eqn:Htry. injection H as <- Hr.
  destruct r as [e|result].
  - unfold catchBlock in Hr. destruct (readMessage e); discriminate.
  - injection Hr as ->.
    destruct (tryBlock_cases v now calls' _ Htry)
      as [(e & _ & _ & Hr)|[(m0 & e & _ & _ & _ & Hr)|[(m0 & e & _ & _ & _ & Hr)
         |(m0 & cr & _ & _ & Hhandle & Hr)]]]; try discriminate.
    symmetry in Hr. apply afterDispatch_success in Hr.
    destruct Hr as (_ & _ & _ & _ & _ & _ & Hres). injection Hres as -> _ ->.
    rewrite (handleJwtObject_without_crit m0 (critHandlers v) Hno) in Hhandle.
    injection Hhandle as <- <-. auto.
Qed.

(** C1: a [crit] handler that throws [null] or [undefined], or returns a
    promise rejected with one of them, makes the [catch] block itself fail
    when it reads [err.message]: the promise returned by [validateJwt] is
    rejected instead of being fulfilled with a tagged result. *)
Theorem nullish_throw_escapes (imports : Imports) (R : Type) (v : Validation R)
    (now errDate : Z) (m : JwtObjectWithUnknownProps) (name : string)
    (f : Handler R) :
  parseAndDecode (jwt v) = inr m ->
  validateJwtObject now m = inr m ->
  getProperty (header m) "crit" = Json (JArray [JString name]) ->
  name <> EmptyString ->
  ~ In name reservedWords ->
  getProperty (header m) name <> Undefined ->
  handlerFor (critHandlers v) name = Some f ->
  f (getProperty (header m) name) = Throw NullOrUndefined \/
  (exists tick, f (getProperty (header m) name) = RejectAt tick NullOrUndefined) ->
  validateJwt v now errDate =
    ([(name, getProperty (header m) name)],
     Rejected (TypeError "cannot read property 'message'")).
Proof.
  intros Hdec Hval Hcrit Hname Hres Hdef Hf Hnull.
  assert (Hhandle : handleJwtObject m (critHandlers v) =
                      ([(name, getProperty (header m) name)], inl NullOrUndefined)).
  { rewrite handleJwtObject_crit.
    - rewrite (checkHeaderCrit_single (header m) (critHandlers v) name f
                 Hcrit Hname Hres Hdef Hf).
      destruct Hnull as [->|[tick ->]]; reflexivity.
    - unfold hasProperty. now rewrite Hcrit. }
  rewrite (validateJwt_dispatch_failure v now errDate m _ _ Hdec Hval Hhandle).
  reflexivity.
Qed.

Lemma nullish_throw_escapes_witness :
  validateJwt (imports := Bench.imports)
    (Bench.request "critX.empty.k3y" (Some (Bench.throwing "x" NullOrUndefined)))
    10000 20000 =
    ([("x", Json (JNumber 1))], Rejected (TypeError "cannot read property 'message'")).
Proof.
  refine (nullish_throw_escapes Bench.imports string
            (Bench.request "critX.empty.k3y" (Some (Bench.throwing "x" NullOrUndefined)))
            10000 20000
            {| header := JObject [("alg", JString "HS256");
                                  ("crit", JArray [JString "x"]); ("x", JNumber 1)];
               payload := JObject [];
               signature := JString "6b3379" |}
            "x" (fun _ => Throw NullOrUndefined)
            eq_refl eq_refl eq_refl _ _ _ eq_refl (or_introl eq_refl)).
  - discriminate.
  - cbn. intuition discriminate.
  - discriminate.
Defined.

(** * Further properties of the module *)

(** ** Structural validator: the complete picture *)

(** X1: [validateJwtObject] accepts a decoded token exactly when its
    signature is a string, its header is an object with a string [alg], and
    its payload is not an object, or is an object without [exp], or is an
    object whose [exp] is a number for which [exp + 1 < Date.now() / 1000],
    computed in binary64, does not hold. *)
Theorem validateJwtObject_accepts_iff (now : Z) (m : JwtObjectWithUnknownProps) :
  validateJwtObject now m = inr m <->
  signedAndTyped m /\
  ((forall members, payload m <> JObject members) \/
   (exists members, payload m = JObject members /\ ownProperty "exp" members = None) \/
   (exists members exp,
       payload m = JObject members /\
       ownProperty "exp" members = Some (JNumber exp) /\
       lessThan (addNumbers (toNumber exp) (Finite 1)) (currentUnixTime now) = false)).
Proof.
  split.
  - intros H.
    assert (Hst : signedAndTyped m)
      by (apply (validateJwtObject_past_header now); rewrite H; discriminate).
    split; [exact Hst|].
    rewrite (validateJwtObject_signedAndTyped now m Hst) in H.
    destruct (payload m) as [| | | | |members] eqn:Hp;
      try (left; intros members; discriminate).
    right. cbn in H. unfold hasProperty, getProperty in H.
    destruct (ownProperty "exp" members) as [[| |exp| | |]|] eqn:Hexp; cbn in H;
      try discriminate.
    + right. exists members, exp. split; [reflexivity|]. split; [exact Hexp|].
      change (isExpired (toNumber exp) (Some (Finite 1)) now = false).
      destruct (isExpired (toNumber exp) (Some (Finite 1)) now);
        [discriminate|reflexivity].
    + left. now exists members.
  - intros [Hst Hpayload].
    rewrite (validateJwtObject_signedAndTyped now m Hst).
    destruct Hpayload as [Hno|[(members & Hp & Hexp)|(members & exp & Hp & Hexp & Hle)]].
    + destruct (payload m); try reflexivity. now elim (Hno members).
    + rewrite Hp. cbn. unfold hasProperty, getProperty. now rewrite Hexp.
    + rewrite Hp. cbn. unfold hasProperty, getProperty. rewrite Hexp. cbn.
      change (isExpired (toNumber exp) (Some (Finite 1)) now = false) in Hle.
      now rewrite Hle.
Qed.

(** X2: the checks of [validateJwtObject] are made in a fixed order, and the
    first one that fails decides the error: a signature that is not a string
    is reported whatever the header and payload are; then a header that is
    not an object with a string [alg]; then an [exp] that is present but not
    a number. *)
Theorem validateJwtObject_check_order (now : Z) (m : JwtObjectWithUnknownProps) :
  ((forall sig, signature m <> JString sig) ->
   validateJwtObject now m = inl (ReferenceError "the signature is no string")) /\
  (forall sig,
      signature m = JString sig ->
      ~ (exists members alg,
            header m = JObject members /\
            ownProperty "alg" members = Some (JString alg)) ->
      validateJwtObject now m =
        inl (ReferenceError "header parameter 'alg' is not a string")) /\
  (forall members x,
      signedAndTyped m ->
      payload m = JObject members ->
      ownProperty "exp" members = Some x ->
      (forall q, x <> JNumber q) ->
      validateJwtObject now m = inl (RangeError "claim 'exp' is not a number")).
Proof.
  split; [|split].
  - intros Hsig. unfold validateJwtObject.
    destruct (String.eqb (typeof (Json (signature m))) "string") eqn:Hs;
      [|reflexivity].
    apply signature_check in Hs. destruct Hs as [sig Hs]. now elim (Hsig sig).
  - intros sig Hsig Hhdr. unfold validateJwtObject.
    rewrite (proj2 (signature_check (signature m))) by eauto. cbn [negb].
    match goal with |- context [negb ?c] => destruct c eqn:Hh end;
      [|reflexivity].
    apply header_check in Hh. contradiction.
  - intros members x Hst Hp Hexp Hnum.
    rewrite (validateJwtObject_signedAndTyped now m Hst), Hp. cbn.
    unfold hasProperty, getProperty. rewrite Hexp. cbn.
    destruct x; try reflexivity. now elim (Hnum q).
Qed.

Lemma validateJwtObject_check_order_witness :
  let m1 := {| header := JNull; payload := JObject [("exp", JNumber 1)];
               signature := JNull |} in
  let m2 := {| header := JArray []; payload := JObject [("exp", JNumber 1)];
               signature := JString "6b3379" |} in
  let m3 := {| header := JObject [("alg", JString "HS256")];
               payload := JObject [("exp", JString "1")];
               signature := JString "6b3379" |} in
  validateJwtObject 10000 m1 = inl (ReferenceError "the signature is no string") /\
  validateJwtObject 10000 m2 =
    inl (ReferenceError "header parameter 'alg' is not a string") /\
  validateJwtObject 10000 m3 = inl (RangeError "claim 'exp' is not a number").
Proof.
  intros m1 m2 m3. split; [|split].
  - apply (proj1 (validateJwtObject_check_order 10000 m1)). intros sig. discriminate.
  - apply (proj1 (proj2 (validateJwtObject_check_order 10000 m2)) "6b3379" eq_refl).
    intros (members & alg & Hh & _). discriminate.
  - apply (proj2 (proj2 (validateJwtObject_check_order 10000 m3))
             [("exp", JString "1")] (JString "1")).
    + exists "6b3379", [("alg", JString "HS256")], "HS256". repeat split.
    + reflexivity.
    + reflexivity.
    + intros q. discriminate.
Defined.

Lemma validateJwtObject_accepted_earlier (now now' : Z) (m : JwtObjectWithUnknownProps) :
  (now <= now')%Z ->
  validateJwtObject now' m = inr m -> validateJwtObject now m = inr m.
Proof.
  intros Hle. unfold validateJwtObject.
  destruct (negb (String.eqb (typeof (Json (signature m))) "string")); [discriminate|].
  match goal with |- context [negb ?c] => destruct (negb c) end; [discriminate|].
  destruct (isObject (payload m) && hasProperty "exp" (payload m)); [|reflexivity].
  destruct (getProperty (payload m) "exp") as [|[| |exp| | |]|]; try discriminate.
  destruct (isExpired (toNumber exp) (Some (Finite 1)) now') eqn:He'; [discriminate|].
  intros _.
  destruct (isExpired (toNumber exp) (Some (Finite 1)) now) eqn:He; [|reflexivity].
  rewrite (isExpired_later _ _ now now' Hle He) in He'. discriminate.
Qed.

(** X3: time only works against a token.  If the structural validator finds
    a token expired at some time, it finds it expired at every later time;
    if it accepts a token at some time, it accepts it at every earlier time
    (nothing like a not-before date is checked); and every other failure is
    the same at all times, earlier or later. *)
Theorem expiration_is_monotone (now now' : Z) (m : JwtObjectWithUnknownProps) :
  (now <= now')%Z ->
  (validateJwtObject now m = inl (RangeError expiredMessage) ->
   validateJwtObject now' m = inl (RangeError expiredMessage)) /\
  (validateJwtObject now' m = inr m -> validateJwtObject now m = inr m) /\
  (forall t t' e,
      e <> RangeError expiredMessage ->
      validateJwtObject t m = inl e -> validateJwtObject t' m = inl e).
Proof.
  intros Hle. split; [|split].
  - rewrite !validateJwtObject_expired_iff.
    intros [Hst (members & exp & Hp & Hexp & Hlt)]. split; [exact Hst|].
    exists members, exp. repeat split; auto.
    exact (isExpired_later _ (Some (Finite 1)) now now' Hle Hlt).
  - exact (validateJwtObject_accepted_earlier now now' m Hle).
  - intros t t' e Hne. unfold validateJwtObject.
    repeat match goal with
           | |- context [if isExpired ?x ?l ?n then _ else _] =>
               destruct (isExpired x l n)
           | |- context [if ?b then _ else _] => destruct b
           | |- context [match ?x with _ => _ end] => destruct x
           end; intros H; try discriminate; try exact H;
      injection H as <-; now elim Hne.
Qed.

Lemma expiration_is_monotone_witness :
  let m := {| header := JObject [("alg", JString "HS256")];
              payload := JObject [("exp", JNumber 8)];
              signature := JString "6b3379" |} in
  let m' := {| header := JObject [("alg", JString "HS256")];
               payload := JObject [("exp", JString "8")];
               signature := JString "6b3379" |} in
  validateJwtObject 9000 m = inr m /\
  validateJwtObject 86400000 m = inl (RangeError expiredMessage) /\
  validateJwtObject 1 m' = inl (RangeError "claim 'exp' is not a number").
Proof.
  intros m m'. split; [|split].
  - refine (proj1 (proj2 (expiration_is_monotone 9000 9000 m _)) eq_refl). lia.
  - refine (proj1 (expiration_is_monotone 10000 86400000 m _) eq_refl). lia.
  - refine (proj2 (proj2 (expiration_is_monotone 0 0 m' _)) 86400000%Z 1%Z _ _ eq_refl).
    + lia.
    + discriminate.
Defined.

(** X4: of the payload, [validateJwtObject] examines the [exp] member and
    nothing else: two payload objects that agree on [exp] (and may differ in
    [nbf], [iat], [aud] or anything else) are both accepted, or both rejected
    with the same error. *)
Theorem validateJwtObject_reads_only_exp (now : Z) (h s : JsonValue)
    (p1 p2 : list (string * JsonValue)) :
  ownProperty "exp" p1 = ownProperty "exp" p2 ->
  match validateJwtObject now {| header := h; payload := JObject p1; signature := s |},
        validateJwtObject now {| header := h; payload := JObject p2; signature := s |}
  with
  | inl e1, inl e2 => e1 = e2
  | inr _, inr _ => True
  | _, _ => False
  end.
Proof.
  intros Hexp. unfold validateJwtObject. cbn [header payload signature].
  destruct (negb (String.eqb (typeof (Json s)) "string")); [reflexivity|].
  match goal with |- context [negb ?c] => destruct (negb c) end; [reflexivity|].
  cbn [isObject isNull negb typeof isArray]. cbn [String.eqb Ascii.eqb Bool.eqb andb].
  unfold hasProperty, getProperty. rewrite Hexp.
  destruct (ownProperty "exp" p2) as [[| |exp| | |]|]; cbn; try reflexivity.
  destruct (isExpired (toNumber exp) (Some (Finite 1)) now); exact I || reflexivity.
Qed.

Lemma validateJwtObject_reads_only_exp_witness :
  match validateJwtObject 10000
          {| header := JObject [("alg", JString "HS256")];
             payload := JObject [("nbf", JNumber 99999); ("exp", JNumber 20)];
             signature := JString "6b3379" |},
        validateJwtObject 10000
          {| header := JObject [("alg", JString "HS256")];
             payload := JObject [("exp", JNumber 20)];
             signature := JString "6b3379" |}
  with
  | inl e1, inl e2 => e1 = e2
  | inr _, inr _ => True
  | _, _ => False
  end.
Proof.
  exact (validateJwtObject_reads_only_exp 10000 (JObject [("alg", JString "HS256")])
           (JString "6b3379") [("nbf", JNumber 99999); ("exp", JNumber 20)]
           [("exp", JNumber 20)] eq_refl).
Defined.

(** ** Decoder: the complete picture *)

Lemma split_not_nil (s : string) : split s <> [].
Proof.
  destruct s as [|c rest]; cbn; [discriminate|].
  destruct (Ascii.eqb c "."); [discriminate|].
  destruct (split rest); discriminate.
Qed.

Lemma split_length (s : string) : length (split s) = S (countDots s).
Proof.
  induction s as [|c rest IH]; cbn; [reflexivity|].
  destruct (Ascii.eqb c "."); cbn; [now rewrite IH|].
  destruct (split rest) as [|seg segs] eqn:Hs; [now elim (split_not_nil rest)|].
  exact IH.
Qed.

Lemma split_concat (s : string) : String.concat "." (split s) = s.
Proof.
  induction s as [|c rest IH]; cbn [split]; [reflexivity|].
  destruct (Ascii.eqb c ".") eqn:Hc.
  - apply Ascii.eqb_eq in Hc. subst c.
    destruct (split rest) as [|seg segs] eqn:Hs; [now elim (split_not_nil rest)|].
    cbn [String.concat]. cbn [String.concat] in IH. rewrite IH. reflexivity.
  - destruct (split rest) as [|seg segs] eqn:Hs; [now elim (split_not_nil rest)|].
    destruct segs as [|seg' segs]; cbn [String.concat] in *.
    + now rewrite IH.
    + rewrite <- IH. reflexivity.
Qed.

Lemma split_no_dots (s : string) : Forall (fun seg => countDots seg = 0%nat) (split s).
Proof.
  induction s as [|c rest IH]; cbn [split].
  - constructor; [reflexivity|constructor].
  - destruct (Ascii.eqb c ".") eqn:Hc.
    + constructor; [reflexivity|exact IH].
    + destruct (split rest) as [|seg segs]; [repeat constructor; cbn; now rewrite Hc|].
      inversion IH; subst. constructor; [cbn; now rewrite Hc|assumption].
Qed.

Lemma mapThrowing_first_failure {A B : Type} (f : A -> nat -> Throwing B) (l : list A) :
  forall index i a e,
    nth_error l i = Some a ->
    f a (index + i)%nat = inl e ->
    (forall k b, (k < i)%nat -> nth_error l k = Some b ->
                 exists c, f b (index + k)%nat = inr c) ->
    mapThrowing f index l = inl e.
Proof.
  induction l as [|a0 l IH]; intros index i a e Ha Hf Hbefore.
  - destruct i; discriminate.
  - destruct i as [|i]; cbn in Ha; cbn [mapThrowing].
    + injection Ha as ->. rewrite Nat.add_0_r in Hf. now rewrite Hf.
    + destruct (Hbefore 0%nat a0 (Nat.lt_0_succ i) eq_refl) as [c Hc].
      rewrite Nat.add_0_r in Hc. rewrite Hc. cbn [bind].
      rewrite (IH (S index) i a e Ha).
      * reflexivity.
      * now rewrite Nat.add_succ_comm.
      * intros k b Hk Hb. rewrite Nat.add_succ_comm.
        apply (Hbefore (S k) b); [lia|exact Hb].
Qed.

Lemma mapThrowing_all_success {A B : Type} (f : A -> nat -> Throwing B) (l : list A) :
  forall index,
    (forall k a, nth_error l k = Some a -> exists b, f a (index + k)%nat = inr b) ->
    exists bs, mapThrowing f index l = inr bs /\ length bs = length l.
Proof.
  induction l as [|a0 l IH]; intros index Hall; cbn [mapThrowing].
  - exists []. auto.
  - destruct (Hall 0%nat a0 eq_refl) as [b Hb]. rewrite Nat.add_0_r in Hb.
    rewrite Hb. cbn [bind].
    destruct (IH (S index)) as (bs & Hbs & Hlen).
    { intros k a Ha. rewrite Nat.add_succ_comm. exact (Hall (S k) a Ha). }
    rewrite Hbs. cbn [bind]. exists (b :: bs). cbn. auto.
Qed.

Lemma mapThrowing_Forall2 {A B : Type} (f : A -> Throwing B) (l : list A) (bs : list B) :
  Forall2 (fun a b => f a = inr b) l bs ->
  forall index, mapThrowing (fun a _ => f a) index l = inr bs.
Proof.
  induction 1 as [|a b l bs Hab _ IH]; intros index; cbn [mapThrowing].
  - reflexivity.
  - rewrite Hab. cbn [bind]. now rewrite IH.
Qed.

(** X5: [parseAndDecode] succeeds exactly on an input that splits into three
    segments, all three accepted by the base64url decoder, the first two
    holding JSON texts; the result is the two parsed values and the hex
    string of the third segment's bytes, which are never parsed. *)
Theorem parseAndDecode_iff (imports : Imports) (input : string)
    (m : JwtObjectWithUnknownProps) :
  parseAndDecode input = inr m <->
  exists h p s uh up us hj pj,
    split input = [h; p; s] /\
    convertBase64urlToUint8Array h = inr uh /\
    convertBase64urlToUint8Array p = inr up /\
    convertBase64urlToUint8Array s = inr us /\
    parseJson uh = inr hj /\
    parseJson up = inr pj /\
    m = {| header := hj; payload := pj;
           signature := JString (convertUint8ArrayToHex us) |}.
Proof.
  split.
  - intros H. destruct (parseAndDecode_success input m H) as (Hlen & _ & _).
    destruct (split input) as [|h [|p [|s [|x rest]]]] eqn:Hsplit; try discriminate.
    unfold parseAndDecode in H. rewrite Hsplit in H. cbn [mapThrowing bind] in H.
    destruct (convertBase64urlToUint8Array h) as [e|uh] eqn:Hh; cbn [bind] in H;
      [discriminate|].
    destruct (convertBase64urlToUint8Array p) as [e|up] eqn:Hp; cbn [bind] in H;
      [discriminate|].
    destruct (convertBase64urlToUint8Array s) as [e|us] eqn:Hs; cbn [bind] in H;
      [discriminate|].
    cbn [mapThrowing bind Nat.eqb] in H.
    destruct (parseJson uh) as [e|hj] eqn:Hhj; cbn [bind] in H; [discriminate|].
    destruct (parseJson up) as [e|pj] eqn:Hpj; cbn [bind] in H; [discriminate|].
    cbn in H. injection H as <-.
    exists h, p, s, uh, up, us, hj, pj. auto 10.
  - intros (h & p & s & uh & up & us & hj & pj & Hsplit & Hh & Hp & Hs & Hhj & Hpj & ->).
    unfold parseAndDecode. rewrite Hsplit. cbn [mapThrowing bind].
    rewrite Hh, Hp, Hs. cbn [mapThrowing bind Nat.eqb]. rewrite Hhj, Hpj.
    reflexivity.
Qed.

(** X6: a token is decoded only if it contains exactly two ['.'] characters;
    the input is then the three segments joined by dots, none of which
    contains a dot.  Every other number of dots makes [parseAndDecode]
    fail. *)
Theorem token_has_two_dots (imports : Imports) (input : string) :
  (countDots input <> 2%nat -> exists e, parseAndDecode input = inl e) /\
  (forall m,
      parseAndDecode input = inr m ->
      countDots input = 2%nat /\
      exists h p s,
        input = (h ++ "." ++ p ++ "." ++ s)%string /\
        countDots h = 0%nat /\ countDots p = 0%nat /\ countDots s = 0%nat).
Proof.
  assert (Hok : forall m, parseAndDecode input = inr m -> countDots input = 2%nat).
  { intros m H. destruct (parseAndDecode_success input m H) as (Hlen & _).
    rewrite split_length in Hlen. lia. }
  split.
  - intros Hdots. destruct (parseAndDecode input) as [e|m] eqn:H; [eauto|].
    now elim Hdots; apply (Hok m).
  - intros m H. split; [exact (Hok m H)|].
    destruct (parseAndDecode_success input m H) as (Hlen & _).
    pose proof (split_concat input) as Hjoin.
    pose proof (split_no_dots input) as Hnodots.
    destruct (split input) as [|h [|p [|s [|x rest]]]]; try discriminate.
    exists h, p, s. cbn [String.concat] in Hjoin.
    inversion Hnodots as [|? ? Hh Hrest]; subst.
    inversion Hrest as [|? ? Hp Hrest']; subst.
    inversion Hrest' as [|? ? Hs _]; subst. auto.
Qed.

Lemma token_has_two_dots_witness :
  (exists e, parseAndDecode (imports := Bench.imports) "hs256.empty.k3y.extra" = inl e) /\
  countDots "hs256.empty.k3y" = 2%nat.
Proof.
  split.
  - apply (proj1 (token_has_two_dots Bench.imports "hs256.empty.k3y.extra")).
    cbn. lia.
  - exact (proj1 (proj2 (token_has_two_dots Bench.imports "hs256.empty.k3y")
                    {| header := JObject [("alg", JString "HS256")];
                       payload := JObject [];
                       signature := JString "6b3379" |} eq_refl)).
Defined.

(** X7: the order in which decoding errors are found.  All segments go
    through the base64url decoder before any JSON is parsed, so the first
    segment the decoder rejects decides the error, even if an earlier segment
    holds bad JSON or the number of segments is wrong; next comes the first
    segment, other than the third, whose bytes are not JSON; the number of
    segments is checked last, and only then is the error "invalid
    serialization". *)
Theorem parseAndDecode_error_order (imports : Imports) (input : string) :
  (forall i segment e,
      nth_error (split input) i = Some segment ->
      convertBase64urlToUint8Array segment = inl e ->
      (forall k s', (k < i)%nat -> nth_error (split input) k = Some s' ->
                    exists u, convertBase64urlToUint8Array s' = inr u) ->
      parseAndDecode input = inl e) /\
  (forall us,
      Forall2 (fun segment u => convertBase64urlToUint8Array segment = inr u)
        (split input) us ->
      (forall i u e,
          nth_error us i = Some u ->
          i <> 2%nat ->
          parseJson u = inl e ->
          (forall k u', (k < i)%nat -> k <> 2%nat -> nth_error us k = Some u' ->
                        exists j, parseJson u' = inr j) ->
          parseAndDecode input = inl e) /\
      ((forall k u, k <> 2%nat -> nth_error us k = Some u ->
                    exists j, parseJson u = inr j) ->
       length (split input) <> 3%nat ->
       parseAndDecode input = inl (TypeError "invalid serialization"))).
Proof.
  split.
  - intros i segment e Hseg He Hbefore. unfold parseAndDecode.
    rewrite (mapThrowing_first_failure _ (split input) 0 i segment e Hseg He).
    + reflexivity.
    + intros k b Hk Hb. exact (Hbefore k b Hk Hb).
  - intros us Hus. unfold parseAndDecode.
    rewrite (mapThrowing_Forall2 _ _ _ Hus 0). cbn [bind]. split.
    + intros i u e Hu Hi He Hbefore.
      rewrite (mapThrowing_first_failure _ us 0 i u e Hu).
      * reflexivity.
      * cbn. apply Nat.eqb_neq in Hi. now rewrite Hi.
      * intros k b Hk Hb. cbn. destruct (Nat.eqb k 2) eqn:Hk2; [eauto|].
        apply Nat.eqb_neq in Hk2. exact (Hbefore k b Hk Hk2 Hb).
    + intros Hjson Hlen.
      destruct (mapThrowing_all_success
                  (fun uint8Array index =>
                     if Nat.eqb index 2
                     then inr (JString (convertUint8ArrayToHex uint8Array))
                     else parseJson uint8Array) us 0) as (parsed & Hparsed & Hplen).
      { intros k a Ha. cbn. destruct (Nat.eqb k 2) eqn:Hk2; [eauto|].
        apply Nat.eqb_neq in Hk2. exact (Hjson k a Hk2 Ha). }
      rewrite Hparsed. cbn [bind].
      rewrite Hplen, <- (Forall2_length Hus).
      apply Nat.eqb_neq in Hlen. now rewrite Hlen.
Qed.

Lemma parseAndDecode_error_order_witness :
  parseAndDecode (imports := Bench.imports) "unknown.em!pty" =
    inl (TypeError "Illegal base64url string!") /\
  parseAndDecode (imports := Bench.imports) "hs256.unknown" =
    inl (ErrorObject "SyntaxError" "Unexpected token") /\
  parseAndDecode (imports := Bench.imports) "hs256.empty" =
    inl (TypeError "invalid serialization").
Proof.
  split; [|split].
  - refine (proj1 (parseAndDecode_error_order Bench.imports "unknown.em!pty")
              1%nat "em!pty" _ eq_refl eq_refl _).
    intros [|k] s' Hk Hs'; [|lia]. injection Hs' as <-. eexists. reflexivity.
  - refine (proj1 (proj2 (parseAndDecode_error_order Bench.imports "hs256.unknown")
                     [list_byte_of_string "hs256"; list_byte_of_string "unknown"] _)
              1%nat _ _ eq_refl _ eq_refl _).
    + repeat constructor.
    + discriminate.
    + intros [|k] u' Hk _ Hu'; [|lia]. injection Hu' as <-. eexists. reflexivity.
  - refine (proj2 (proj2 (parseAndDecode_error_order Bench.imports "hs256.empty")
                     [list_byte_of_string "hs256"; list_byte_of_string "empty"] _)
              _ _).
    + repeat constructor.
    + intros [|[|[|k]]] u Hk Hu; cbn in Hu; try discriminate;
        injection Hu as <-; eexists; reflexivity.
    + cbn. lia.
Defined.

(** ** Dispatcher: the complete picture *)

Section DispatchFacts.

Context {R : Type}.
Variables (h : JsonValue) (handlers : option (Handlers R)).

Lemma understood_check (crit : list JsonValue) :
  existsb (notUnderstood h handlers) crit = false <->
  Forall (understood h handlers) crit.
Proof.
  rewrite existsb_false_Forall. split; intros H; eapply Forall_impl; try exact H;
    intros v; unfold notUnderstood, noHandler, understood.
  - intros Hv. apply orb_false_iff in Hv. destruct Hv as [Hty Hno]. split.
    + intros Heq. rewrite Heq in Hty. discriminate.
    + destruct (handlerFor handlers (asString v)); [discriminate|discriminate].
  - intros [Hdef Hf]. apply orb_false_iff. split.
    + destruct (String.eqb (typeof (getProperty h (asString v))) "undefined") eqn:Hty;
        [|reflexivity].
      apply typeof_undefined in Hty. contradiction.
    + destruct (handlerFor handlers (asString v)); [reflexivity|now elim Hf].
Qed.

Lemma reserved_check_false (crit : list JsonValue) :
  existsb (fun str => includes reservedWords (asString str)) crit = false ->
  ~ listsReserved crit.
Proof.
  intros H Hres. rewrite (reserved_check crit Hres) in H. discriminate.
Qed.

(** Past the three checks, the dispatcher is the calls followed by
    [Promise.all]. *)
Lemma checkHeaderCrit_passesChecks (crit : list JsonValue) :
  passesChecks h handlers crit ->
  checkHeaderCrit h handlers =
    (fst (callHandlers h handlers crit),
     let* l := snd (callHandlers h handlers crit) in promiseAll l).
Proof.
  intros (Hcrit & Hne & Hres & Hund). unfold checkHeaderCrit. rewrite Hcrit.
  rewrite (proj2 (nonEmptyStrings_check crit) Hne).
  rewrite (unreserved_check crit Hne Hres).
  rewrite (proj2 (understood_check crit) Hund).
  now destruct (callHandlers h handlers crit).
Qed.

(** A dispatch that made a call, or that succeeded, passed the checks. *)
Lemma checkHeaderCrit_checks_passed (calls : list Call) (r : Throwing (list R)) :
  checkHeaderCrit h handlers = (calls, r) ->
  calls <> [] \/ (exists results, r = inr results) ->
  passesChecks h handlers (critEntries h).
Proof.
  unfold checkHeaderCrit, passesChecks, critEntries.
  destruct (getProperty h "crit") as [|[| | | |crit|]|];
    try (intros H; injection H as <- <-; intros [Hc|[x Hx]];
         [now elim Hc|discriminate]).
  destruct (existsb notNonEmptyString crit) eqn:Hne;
    [intros H; injection H as <- <-; intros [Hc|[x Hx]]; [now elim Hc|discriminate]|].
  destruct (existsb (fun str => includes reservedWords (asString str)) crit) eqn:Hres;
    [intros H; injection H as <- <-; intros [Hc|[x Hx]]; [now elim Hc|discriminate]|].
  destruct (existsb (notUnderstood h handlers) crit) eqn:Hund;
    [intros H; injection H as <- <-; intros [Hc|[x Hx]]; [now elim Hc|discriminate]|].
  intros _ _. split; [reflexivity|]. split; [now apply nonEmptyStrings_check|].
  split; [now apply reserved_check_false|now apply understood_check].
Qed.

Lemma callHandlers_prefix (crit : list JsonValue) :
  forall calls r,
    callHandlers h handlers crit = (calls, r) ->
    exists n, calls = firstn n (map (callFor h) crit).
Proof.
  induction crit as [|v crit IH]; cbn [callHandlers]; intros calls r H.
  - injection H as <- _. now exists 0%nat.
  - destruct (handlerFor handlers (asString v)) as [f|];
      [|injection H as <- _; now exists 0%nat].
    destruct (f (getProperty h (asString v))) as [x|e|tick e].
    + destruct (callHandlers h handlers crit) as [calls' r'].
      injection H as <- _. destruct (IH calls' r' eq_refl) as [n ->].
      now exists (S n).
    + injection H as <- _. now exists 1%nat.
    + destruct (callHandlers h handlers crit) as [calls' r'].
      injection H as <- _. destruct (IH calls' r' eq_refl) as [n ->].
      now exists (S n).
Qed.

Lemma callHandlers_all_return (crit : list JsonValue) (results : list R) :
  Forall2 (fun v r => settledAs h handlers v (inr r)) crit results ->
  callHandlers h handlers crit = (map (callFor h) crit, inr (map inr results)).
Proof.
  induction 1 as [|v r crit results (f & Hf & Hr) _ IH]; cbn [callHandlers map].
  - reflexivity.
  - rewrite Hf, Hr, IH. reflexivity.
Qed.

Lemma promiseAll_all_fulfilled (results : list R) :
  promiseAll (map inr results) = inr results.
Proof.
  unfold promiseAll.
  assert (Hfirst : firstRejection (map inr results : list ((nat * Thrown) + R)) = None)
    by (induction results; cbn; auto).
  rewrite Hfirst. f_equal.
  induction results as [|r results IH]; cbn [map fulfilledValues];
    [reflexivity|now rewrite IH].
Qed.

(** The calls made up to a handler that throws. *)
Lemma callHandlers_throw (before after : list JsonValue) (v : JsonValue)
    (f : Handler R) (e : Thrown) :
  Forall (callReturnsPromise h handlers) before ->
  handlerFor handlers (asString v) = Some f ->
  f (getProperty h (asString v)) = Throw e ->
  callHandlers h handlers (before ++ v :: after) =
    (map (callFor h) (before ++ [v]), inl e).
Proof.
  intros Hbefore Hf He.
  induction Hbefore as [|w before (g & Hg & Hnothrow) _ IH];
    cbn [app callHandlers map].
  - rewrite Hf, He. reflexivity.
  - rewrite Hg.
    destruct (g (getProperty h (asString w))) as [x|e'|tick e'] eqn:Hc;
      [|now elim (Hnothrow e')|]; rewrite IH; reflexivity.
Qed.

(** When no handler throws, every handler is called. *)
Lemma callHandlers_no_throw (crit : list JsonValue) :
  Forall (callReturnsPromise h handlers) crit ->
  exists ps,
    callHandlers h handlers crit = (map (callFor h) crit, inr ps) /\
    Forall2 (settledAs h handlers) crit ps.
Proof.
  induction 1 as [|v crit (f & Hf & Hnothrow) _ (ps & Hps & HF)];
    cbn [callHandlers map].
  - exists []. split; [reflexivity|constructor].
  - rewrite Hf.
    destruct (f (getProperty h (asString v))) as [x|e'|tick e'] eqn:Hc;
      [|now elim (Hnothrow e')|]; rewrite Hps; cbn [bind].
    + exists (inr x :: ps). split; [reflexivity|]. constructor; [|exact HF].
      exists f. auto.
    + exists (inl (tick, e') :: ps). split; [reflexivity|]. constructor; [|exact HF].
      exists f. auto.
Qed.

Lemma firstRejection_exists (ps : list ((nat * Thrown) + R)) (x : nat * Thrown) :
  In (inl x) ps -> exists tick e, firstRejection ps = Some (tick, e).
Proof.
  induction ps as [|[[t0 e0]|r] ps IH]; cbn [firstRejection]; intros Hin.
  - contradiction.
  - destruct (firstRejection ps) as [[t1 e1]|]; [|eauto].
    destruct (Nat.ltb t1 t0); eauto.
  - destruct Hin as [Heq|Hin]; [discriminate|]. now apply IH.
Qed.

Lemma firstRejection_least (ps : list ((nat * Thrown) + R)) :
  forall tick e,
    firstRejection ps = Some (tick, e) ->
    forall tick' e', In (inl (tick', e')) ps -> (tick <= tick')%nat.
Proof.
  induction ps as [|[[t0 e0]|r] ps IH]; cbn [firstRejection]; intros tick e H tick' e' Hin.
  - contradiction.
  - destruct (firstRejection ps) as [[t1 e1]|] eqn:Hrest.
    + destruct (Nat.ltb t1 t0) eqn:Hlt; injection H as <- <-;
        destruct Hin as [Heq|Hin].
      * injection Heq as <- <-. apply Nat.ltb_lt in Hlt. lia.
      * exact (IH t1 e1 eq_refl tick' e' Hin).
      * injection Heq as <- <-. lia.
      * apply Nat.ltb_ge in Hlt. pose proof (IH t1 e1 eq_refl tick' e' Hin). lia.
    + injection H as <- <-. destruct Hin as [Heq|Hin].
      * injection Heq as <- <-. lia.
      * destruct (firstRejection_exists ps _ Hin) as (t2 & e2 & H2). congruence.
  - destruct Hin as [Heq|Hin]; [discriminate|]. exact (IH tick e H tick' e' Hin).
Qed.

Lemma Forall2_In_l {A B : Type} (P : A -> B -> Prop) (l1 : list A) (l2 : list B) (a : A) :
  Forall2 P l1 l2 -> In a l1 -> exists b, In b l2 /\ P a b.
Proof.
  induction 1 as [|x y l1 l2 Hxy _ IH]; cbn; [contradiction|].
  intros [->|Hin].
  - exists y. auto.
  - destruct (IH Hin) as (b & Hb & HP). exists b. auto.
Qed.

End DispatchFacts.

(** ** Dispatcher: what the handlers receive and return *)

(** C9: for a [crit] list that passes the three checks, the dispatch
    succeeds when every handler returns: one call is made per entry, in the
    order of the list, and the results are as many as the entries, the
    result at index [i] being what the handler of [crit[i]] returned; this
    is the only way it succeeds; and if the handler of some entry throws or
    rejects, the dispatch fails as a whole and yields no result sequence.
    The argument of each call is the value read from the header under the
    entry's name: the value stored there when the header has such a member
    and, against the claim, a member inherited from [Object.prototype] when
    it has none (no value is stored under the entry's name then). *)
Theorem checkHeaderCrit_results (R : Type) (h : JsonValue)
    (handlers : option (Handlers R)) (crit : list JsonValue) :
  passesChecks h handlers crit ->
  (forall results,
      Forall2 (fun v r => settledAs h handlers v (inr r)) crit results ->
      checkHeaderCrit h handlers = (map (callFor h) crit, inr results) /\
      length results = length crit /\
      forall i v,
        nth_error crit i = Some v ->
        exists f r,
          handlerFor handlers (asString v) = Some f /\
          nth_error (map (callFor h) crit) i =
            Some (asString v, getProperty h (asString v)) /\
          f (getProperty h (asString v)) = Return r /\
          nth_error results i = Some r) /\
  (forall calls results,
      checkHeaderCrit h handlers = (calls, inr results) ->
      calls = map (callFor h) crit /\
      Forall2 (fun v r => settledAs h handlers v (inr r)) crit results) /\
  (forall v f,
      In v crit ->
      handlerFor handlers (asString v) = Some f ->
      fails (f (getProperty h (asString v))) ->
      exists calls e, checkHeaderCrit h handlers = (calls, inl e)) /\
  (forall v,
      In v crit ->
      exists members,
        h = JObject members /\
        match ownProperty (asString v) members with
        | Some x => getProperty h (asString v) = Json x
        | None =>
            getProperty h (asString v) = Inherited (asString v) /\
            In (asString v) objectPrototypeMembers
        end).
Proof.
  intros Hpass.
  assert (Honly : forall calls results,
             checkHeaderCrit h handlers = (calls, inr results) ->
             calls = map (callFor h) crit /\
             Forall2 (fun v r => settledAs h handlers v (inr r)) crit results).
  { intros calls results H.
    destruct (checkHeaderCrit_success h handlers calls results H)
      as (crit' & Hcrit' & _ & _ & Hcalls & HF).
    destruct Hpass as (Hcrit & _). rewrite Hcrit in Hcrit'. injection Hcrit' as <-.
    split; assumption. }
  split; [|split; [exact Honly|split]].
  - intros results HF. split; [|split].
    + rewrite (checkHeaderCrit_passesChecks h handlers crit Hpass).
      rewrite (callHandlers_all_return h handlers crit results HF). cbn [fst snd bind].
      now rewrite promiseAll_all_fulfilled.
    + symmetry. exact (Forall2_length HF).
    + intros i v Hv.
      destruct (Forall2_nth_error_l _ _ _ HF i v Hv) as (r & Hr & f & Hf & Hret).
      exists f, r. split; [exact Hf|]. split; [|split; assumption].
      rewrite nth_error_map, Hv. reflexivity.
  - intros v f Hin Hf Hfail.
    destruct (checkHeaderCrit h handlers) as [calls [e|results]] eqn:H; [eauto|].
    exfalso. destruct (Honly calls results eq_refl) as [_ HF].
    destruct (In_nth_error _ _ Hin) as [i Hi].
    destruct (Forall2_nth_error_l _ _ _ HF i v Hi) as (r & _ & f' & Hf' & Hret).
    rewrite Hf in Hf'. injection Hf' as <-. rewrite Hret in Hfail. exact Hfail.
  - intros v Hin. destruct Hpass as (Hcrit & _ & _ & Hund).
    rewrite Forall_forall in Hund. destruct (Hund v Hin) as [Hdef _].
    destruct h as [| | | | |members]; try discriminate.
    exists members. split; [reflexivity|].
    unfold getProperty in *.
    destruct (ownProperty (asString v) members) as [x|]; [reflexivity|].
    destruct (includes objectPrototypeMembers (asString v)) eqn:Hinc;
      [|now elim Hdef].
    split; [reflexivity|]. now apply includes_In.
Qed.

Lemma checkHeaderCrit_results_witness :
  let h := JObject [("alg", JString "HS256"); ("crit", JArray [JString "x"]);
                    ("x", JNumber 1)] in
  checkHeaderCrit h (Some (Bench.returning "x" "ok")) =
    ([("x", Json (JNumber 1))], inr ["ok"]) /\
  (exists calls e,
      checkHeaderCrit h (Some (Bench.throwing "x" (Error "boom"))) = (calls, inl e)).
Proof.
  intros h.
  assert (Hpass : forall handlers : Handlers string,
             handlers "x" <> None -> passesChecks h (Some handlers) [JString "x"]).
  { intros handlers Hx. split; [reflexivity|]. split; [|split].
    - repeat constructor. exists "x". split; [reflexivity|discriminate].
    - intros (word & [Hw|[]] & Hres). injection Hw as <-.
      cbn in Hres. intuition discriminate.
    - repeat constructor; [discriminate|exact Hx]. }
  split.
  - refine (proj1 (proj1 (checkHeaderCrit_results string h
                            (Some (Bench.returning "x" "ok")) [JString "x"]
                            (Hpass _ _)) ["ok"] _)).
    + discriminate.
    + repeat constructor. eexists. split; reflexivity.
  - refine (proj1 (proj2 (proj2 (checkHeaderCrit_results string h
                                    (Some (Bench.throwing "x" (Error "boom")))
                                    [JString "x"] (Hpass _ _))))
              (JString "x") (fun _ => Throw (Error "boom"))
              (or_introl eq_refl) eq_refl I).
    discriminate.
Defined.

(** The divergence on an explicit input: the header has no member
    [toString], a handler is registered under that name, and the dispatch
    succeeds, the handler being called with the function that every object
    inherits. *)
Example inherited_member_as_argument :
  let h := JObject [("alg", JString "HS256"); ("crit", JArray [JString "toString"])] in
  let handlers :=
    objectLiteral [("toString", fun arg : JsValue => Return (typeof arg))]
      (fun _ _ => Return "[object Object]") in
  (forall members, h = JObject members -> ownProperty "toString" members = None) /\
  checkHeaderCrit h (Some handlers) =
    ([("toString", Inherited "toString")], inr ["function"]).
Proof.
  intros h handlers. split; [|reflexivity].
  intros members H. injection H as <-. reflexivity.
Qed.


(** X8: the three checks of [checkHeaderCrit] are made in a fixed order and
    the first that fails decides the message, before any handler is called:
    a [crit] that is not an array of non-empty strings; then a reserved name
    in the list, even when other entries have no handler; then an entry that
    the header does not carry or for which there is no handler.  In
    particular, without a handler table every non-empty list of
    non-reserved names is refused. *)
Theorem checkHeaderCrit_check_order (R : Type) (h : JsonValue)
    (handlers : option (Handlers R)) :
  ((forall crit, getProperty h "crit" = Json (JArray crit) -> ~ nonEmptyStrings crit) ->
   checkHeaderCrit h handlers =
     ([], inl (Error "header parameter 'crit' must be an array of non-empty strings"))) /\
  (forall crit,
      getProperty h "crit" = Json (JArray crit) ->
      nonEmptyStrings crit ->
      listsReserved crit ->
      checkHeaderCrit h handlers =
        ([], inl (Error "the 'crit' list contains a non-extension header parameter"))) /\
  (forall crit str,
      getProperty h "crit" = Json (JArray crit) ->
      nonEmptyStrings crit ->
      ~ listsReserved crit ->
      In (JString str) crit ->
      getProperty h str = Undefined \/ handlerFor handlers str = None ->
      checkHeaderCrit h handlers =
        ([], inl (Error "critical extension header parameters are not understood"))) /\
  (forall crit,
      getProperty h "crit" = Json (JArray crit) ->
      nonEmptyStrings crit ->
      ~ listsReserved crit ->
      crit <> [] ->
      handlers = None ->
      checkHeaderCrit h handlers =
        ([], inl (Error "critical extension header parameters are not understood"))).
Proof.
  split; [|split; [|split]].
  - intros Hbad. unfold checkHeaderCrit.
    destruct (getProperty h "crit") as [|[| | | |crit|]|]; try reflexivity.
    destruct (existsb notNonEmptyString crit) eqn:Hne; [reflexivity|].
    apply nonEmptyStrings_check in Hne. now elim (Hbad crit eq_refl).
  - intros crit Hcrit Hne Hres. unfold checkHeaderCrit. rewrite Hcrit.
    rewrite (proj2 (nonEmptyStrings_check crit) Hne).
    now rewrite (reserved_check crit Hres).
  - intros crit str. apply checkHeaderCrit_not_understood.
  - intros crit Hcrit Hne Hres Hnil ->.
    destruct crit as [|v crit]; [now elim Hnil|].
    assert (Hv : exists str, v = JString str)
      by (inversion Hne as [|? ? (str & Hs & _) _]; eauto).
    destruct Hv as [str ->].
    exact (checkHeaderCrit_not_understood h None _ str Hcrit Hne Hres
             (or_introl eq_refl) (or_intror eq_refl)).
Qed.

Lemma checkHeaderCrit_check_order_witness :
  let h1 := JObject [("alg", JString "HS256"); ("crit", JArray [JString "x"; JNumber 1])] in
  let h2 := JObject [("alg", JString "HS256");
                     ("crit", JArray [JString "x"; JString "kid"])] in
  checkHeaderCrit (R := string) h1 None =
    ([], inl (Error "header parameter 'crit' must be an array of non-empty strings")) /\
  checkHeaderCrit (R := string) h2 None =
    ([], inl (Error "the 'crit' list contains a non-extension header parameter")) /\
  checkHeaderCrit (R := string) Cases.header3 None =
    ([], inl (Error "critical extension header parameters are not understood")).
Proof.
  intros h1 h2. split; [|split].
  - apply (proj1 (checkHeaderCrit_check_order string h1 None)).
    intros crit Hcrit Hne. injection Hcrit as <-.
    inversion Hne as [|? ? _ Hrest]; subst.
    inversion Hrest as [|? ? (s & Hs & _) _]; subst. discriminate.
  - apply (proj1 (proj2 (checkHeaderCrit_check_order string h2 None))
             [JString "x"; JString "kid"] eq_refl).
    + repeat constructor; eexists; (split; [reflexivity|discriminate]).
    + exists "kid". split; [right; now left|]. cbn. tauto.
  - apply (proj2 (proj2 (proj2 (checkHeaderCrit_check_order string Cases.header3 None)))
             [JString "a"; JString "b"; JString "c"] eq_refl).
    + repeat constructor; eexists; (split; [reflexivity|discriminate]).
    + apply reserved_check_false. reflexivity.
    + discriminate.
    + reflexivity.
Defined.

(** X9: an empty [crit] list is accepted, with or without a handler table:
    no handler is called and the outputs are the empty list, which
    [handleJwtObject] passes on as such (an empty list, where a header
    without [crit] gives no list at all). *)
Theorem empty_crit_list (R : Type) (m : JwtObjectWithUnknownProps)
    (handlers : option (Handlers R)) :
  getProperty (header m) "crit" = Json (JArray []) ->
  checkHeaderCrit (header m) handlers = ([], inr []) /\
  handleJwtObject m handlers = ([], inr (m, Some [])).
Proof.
  intros Hcrit.
  assert (Hcheck : checkHeaderCrit (header m) handlers = ([], inr [])).
  { unfold checkHeaderCrit. rewrite Hcrit. reflexivity. }
  split; [exact Hcheck|].
  rewrite handleJwtObject_crit.
  - now rewrite Hcheck.
  - unfold hasProperty. now rewrite Hcrit.
Qed.

Lemma empty_crit_list_witness :
  let m := {| header := JObject [("alg", JString "HS256"); ("crit", JArray [])];
              payload := JObject []; signature := JString "6b3379" |} in
  handleJwtObject (R := string) m None = ([], inr (m, Some [])).
Proof.
  intros m. exact (proj2 (empty_crit_list string m None eq_refl)).
Defined.

(** X10: the dispatch succeeds with the outputs [results] exactly when the
    header's [crit] is an array of non-empty strings without reserved names,
    and, entry by entry, the header read is defined and the handler found
    for the entry returns the output at the same position. *)
Theorem checkHeaderCrit_succeeds_iff (R : Type) (h : JsonValue)
    (handlers : option (Handlers R)) (results : list R) :
  (exists calls, checkHeaderCrit h handlers = (calls, inr results)) <->
  exists crit,
    getProperty h "crit" = Json (JArray crit) /\
    nonEmptyStrings crit /\
    ~ listsReserved crit /\
    Forall2 (fun v r =>
               getProperty h (asString v) <> Undefined /\
               exists f,
                 handlerFor handlers (asString v) = Some f /\
                 f (getProperty h (asString v)) = Return r)
      crit results.
Proof.
  split.
  - intros [calls H].
    pose proof (checkHeaderCrit_checks_passed h handlers calls _ H
                  (or_intror (ex_intro _ results eq_refl))) as Hpass.
    destruct (checkHeaderCrit_success h handlers calls results H)
      as (crit & Hcrit & _ & _ & _ & HF).
    unfold passesChecks, critEntries in Hpass. rewrite Hcrit in Hpass.
    destruct Hpass as (_ & Hne & Hres & Hund).
    exists crit. repeat (split; [assumption|]).
    clear H Hcrit Hne Hres. induction HF as [|v r crit results Hvr HF IH].
    + constructor.
    + inversion Hund as [|? ? [Hdef _] Hund']; subst.
      constructor; [split; [exact Hdef|exact Hvr]|now apply IH].
  - intros (crit & Hcrit & Hne & Hres & HF).
    assert (HF' : Forall2 (fun v r => settledAs h handlers v (inr r)) crit results).
    { eapply Forall2_impl; [|exact HF]. intros v r [_ Hf]. exact Hf. }
    assert (Hpass : passesChecks h handlers crit).
    { repeat (split; [assumption|]).
      clear Hcrit Hne Hres HF'. induction HF as [|v r crit results [Hdef (f & Hf & _)] _ IH];
        constructor; [|exact IH].
      split; [exact Hdef|]. now rewrite Hf. }
    exists (map (callFor h) crit).
    rewrite (checkHeaderCrit_passesChecks h handlers crit Hpass).
    rewrite (callHandlers_all_return h handlers crit results HF'). cbn [fst snd bind].
    now rewrite promiseAll_all_fulfilled.
Qed.

(** X11: handlers are only ever called for the entries of [crit], from the
    first entry on and in the order of the list, each with the header read
    of its entry as argument; any call at all means that the three checks
    passed; and on success every entry had its call. *)
Theorem handlers_called_in_list_order (R : Type) (h : JsonValue)
    (handlers : option (Handlers R)) (calls : list Call) (r : Throwing (list R)) :
  checkHeaderCrit h handlers = (calls, r) ->
  (exists n, calls = firstn n (map (callFor h) (critEntries h))) /\
  (calls <> [] -> passesChecks h handlers (critEntries h)) /\
  (forall results, r = inr results -> calls = map (callFor h) (critEntries h)).
Proof.
  intros H. split; [|split].
  - destruct calls as [|c calls]; [now exists 0%nat|].
    assert (Hpass : passesChecks h handlers (critEntries h)).
    { apply (checkHeaderCrit_checks_passed h handlers _ _ H). left. discriminate. }
    rewrite (checkHeaderCrit_passesChecks h handlers _ Hpass) in H.
    destruct (callHandlers h handlers (critEntries h)) as [calls' r'] eqn:Hcalls.
    cbn [fst snd] in H. injection H as <- _.
    exact (callHandlers_prefix h handlers _ _ _ Hcalls).
  - intros Hc. apply (checkHeaderCrit_checks_passed h handlers _ _ H). now left.
  - intros results ->.
    destruct (checkHeaderCrit_success h handlers calls results H)
      as (crit & Hcrit & _ & _ & -> & _).
    unfold critEntries. now rewrite Hcrit.
Qed.

Lemma handlers_called_in_list_order_witness :
  passesChecks Cases.header3
    (Some (Cases.table (Return "one") (Throw (Error "boom")) (Return "three")))
    [JString "a"; JString "b"; JString "c"].
Proof.
  refine (proj1 (proj2 (handlers_called_in_list_order string Cases.header3
                          (Some (Cases.table (Return "one") (Throw (Error "boom"))
                                   (Return "three")))
                          [("a", Json (JNumber 1)); ("b", Json (JNumber 2))]
                          (inl (Error "boom")) eq_refl)) _).
  discriminate.
Defined.

(** X12: a handler that throws when called stops the dispatch at once: the
    handlers of the later entries are not called, and the dispatch fails
    with the thrown value, even if the promise of an earlier handler has
    been rejected. *)
Theorem synchronous_throw_stops_dispatch (R : Type) (h : JsonValue)
    (handlers : option (Handlers R)) (before after : list JsonValue)
    (v : JsonValue) (f : Handler R) (e : Thrown) :
  passesChecks h handlers (before ++ v :: after) ->
  Forall (callReturnsPromise h handlers) before ->
  handlerFor handlers (asString v) = Some f ->
  f (getProperty h (asString v)) = Throw e ->
  checkHeaderCrit h handlers = (map (callFor h) (before ++ [v]), inl e).
Proof.
  intros Hpass Hbefore Hf He.
  rewrite (checkHeaderCrit_passesChecks h handlers _ Hpass).
  now rewrite (callHandlers_throw h handlers before after v f e Hbefore Hf He).
Qed.

Lemma synchronous_throw_stops_dispatch_witness :
  checkHeaderCrit Cases.header3
    (Some (Cases.table (RejectAt 0 (Error "rejected")) (Throw (Error "boom"))
             (Return "three"))) =
    ([("a", Json (JNumber 1)); ("b", Json (JNumber 2))], inl (Error "boom")).
Proof.
  pose (handlers := Some (Cases.table (RejectAt 0 (Error "rejected"))
                            (Throw (Error "boom")) (Return "three"))).
  refine (synchronous_throw_stops_dispatch string Cases.header3 handlers
            [JString "a"] [JString "c"] (JString "b") (fun _ => Throw (Error "boom"))
            (Error "boom") _ _ eq_refl eq_refl).
  - refine (checkHeaderCrit_checks_passed Cases.header3 handlers
              [("a", Json (JNumber 1)); ("b", Json (JNumber 2))]
              (inl (Error "boom")) eq_refl (or_introl _)).
    discriminate.
  - constructor; [|constructor].
    exists (fun _ => RejectAt 0 (Error "rejected")). split; [reflexivity|].
    intros e. discriminate.
Defined.

(** X13: when no handler throws but some of the promises are rejected, every
    handler has been called, and the dispatch fails with the reason of a
    rejection that no other rejection precedes in time. *)
Theorem earliest_rejection_wins (R : Type) (h : JsonValue)
    (handlers : option (Handlers R)) (crit : list JsonValue) :
  passesChecks h handlers crit ->
  Forall (callReturnsPromise h handlers) crit ->
  (exists v f tick e,
      In v crit /\ handlerFor handlers (asString v) = Some f /\
      f (getProperty h (asString v)) = RejectAt tick e) ->
  exists v f tick e,
    checkHeaderCrit h handlers = (map (callFor h) crit, inl e) /\
    In v crit /\ handlerFor handlers (asString v) = Some f /\
    f (getProperty h (asString v)) = RejectAt tick e /\
    forall v' f' tick' e',
      In v' crit -> handlerFor handlers (asString v') = Some f' ->
      f' (getProperty h (asString v')) = RejectAt tick' e' ->
      (tick <= tick')%nat.
Proof.
  intros Hpass Hnothrow (v1 & f1 & tick1 & e1 & Hin1 & Hf1 & Hc1).
  destruct (callHandlers_no_throw h handlers crit Hnothrow) as (ps & Hcalls & HF).
  assert (Hrejected : forall v' f' tick' e',
             In v' crit -> handlerFor handlers (asString v') = Some f' ->
             f' (getProperty h (asString v')) = RejectAt tick' e' ->
             In (inl (tick', e')) ps).
  { intros v' f' tick' e' Hin' Hf' Hc'.
    destruct (Forall2_In_l _ _ _ _ HF Hin') as (p & Hp & g & Hg & Hgp).
    rewrite Hf' in Hg. injection Hg as <-. rewrite Hc' in Hgp.
    destruct p as [[t e]|r]; [|discriminate]. injection Hgp as <- <-. exact Hp. }
  destruct (firstRejection_exists ps _ (Hrejected v1 f1 tick1 e1 Hin1 Hf1 Hc1))
    as (tick & e & Hfirst).
  destruct (Forall2_In_r _ _ _ _ HF (firstRejection_In ps tick e Hfirst))
    as (v & Hv & f & Hf & Hc).
  exists v, f, tick, e. split; [|split; [exact Hv|split; [exact Hf|split; [exact Hc|]]]].
  - rewrite (checkHeaderCrit_passesChecks h handlers crit Hpass), Hcalls.
    cbn [fst snd bind]. unfold promiseAll. now rewrite Hfirst.
  - intros v' f' tick' e' Hin' Hf' Hc'.
    exact (firstRejection_least ps tick e Hfirst tick' e'
             (Hrejected v' f' tick' e' Hin' Hf' Hc')).
Qed.

Lemma earliest_rejection_wins_witness :
  exists v f tick e,
    checkHeaderCrit Cases.header3
      (Some (Cases.table (RejectAt 7 (Error "slow")) (Return "two")
               (RejectAt 3 (Error "fast")))) =
      ([("a", Json (JNumber 1)); ("b", Json (JNumber 2)); ("c", Json (JNumber 3))],
       inl e) /\
    In v [JString "a"; JString "b"; JString "c"] /\
    handlerFor (Some (Cases.table (RejectAt 7 (Error "slow")) (Return "two")
                        (RejectAt 3 (Error "fast")))) (asString v) = Some f /\
    f (getProperty Cases.header3 (asString v)) = RejectAt tick e.
Proof.
  pose (handlers := Some (Cases.table (RejectAt 7 (Error "slow")) (Return "two")
                            (RejectAt 3 (Error "fast")))).
  destruct (earliest_rejection_wins string Cases.header3 handlers
              [JString "a"; JString "b"; JString "c"])
    as (v & f & tick & e & Hres & Hv & Hf & Hc & _).
  - refine (checkHeaderCrit_checks_passed Cases.header3 handlers
              [("a", Json (JNumber 1)); ("b", Json (JNumber 2)); ("c", Json (JNumber 3))]
              (inl (Error "fast")) eq_refl (or_introl _)).
    discriminate.
  - repeat constructor; eexists; (split; [reflexivity|intros e; discriminate]).
  - exists (JString "a"), (fun _ => RejectAt 7 (Error "slow")), 7%nat, (Error "slow").
    split; [now left|]. split; reflexivity.
  - exists v, f, tick, e. auto.
Defined.

(** ** Orchestrator: the complete picture *)

Lemma handleJwtObject_calls {R : Type} (m : JwtObjectWithUnknownProps)
    (handlers : option (Handlers R)) (calls : list Call)
    (r : Throwing (JwtObjectWithUnknownProps * option (list R))) :
  handleJwtObject m handlers = (calls, r) ->
  calls <> [] ->
  exists r', checkHeaderCrit (header m) handlers = (calls, r').
Proof.
  unfold handleJwtObject. destruct (hasProperty "crit" (header m)).
  - destruct (checkHeaderCrit (header m) handlers) as [calls' r'].
    intros H _. injection H as <- _. eauto.
  - intros H Hc. injection H as <- _. now elim Hc.
Qed.

(** The steps behind a Valid result. *)
Lemma validateJwt_valid_inv (imports : Imports) (R : Type) (v : Validation R)
    (now errDate : Z) (calls : list Call) (m : JwtObjectWithUnknownProps)
    (j : string) (critResult : option (list R)) :
  validateJwt v now errDate = (calls, Fulfilled (Valid m j critResult)) ->
  j = jwt v /\
  parseAndDecode (jwt v) = inr m /\
  validateJwtObject now m = inr m /\
  handleJwtObject m (critHandlers v) = (calls, inr (m, critResult)) /\
  validateAlgorithm (algorithm v) (algOf m) = true /\
  exists newJwt newJwtObject,
    makeJwt m (key v) = inr newJwt /\
    parseAndDecode newJwt = inr newJwtObject /\
    signature newJwtObject = signature m.
Proof.
  intros H. unfold validateJwt in H.
  destruct (tryBlock v now) as [calls' r] eqn:Htry. injection H as <- Hr.
  destruct r as [e|result].
  - unfold catchBlock in Hr. destruct (readMessage e); discriminate.
  - injection Hr as ->.
    destruct (tryBlock_cases v now calls' _ Htry)
      as [(e & _ & _ & Hr)|[(m0 & e & _ & _ & _ & Hr)|[(m0 & e & _ & _ & _ & Hr)
         |(m0 & cr & Hdec & Hval & Hhandle & Hr)]]]; try discriminate.
    symmetry in Hr. apply afterDispatch_success in Hr.
    destruct Hr as (Halg & newJwt & newJwtObject & Hmake & Hnew & Heq & Hres).
    injection Hres as -> -> ->.
    repeat (split; [assumption || reflexivity|]).
    exists newJwt, newJwtObject. repeat (split; [assumption|]).
    destruct (parseAndDecode_success _ _ Hdec) as (_ & [sig Hsig] & _).
    destruct (parseAndDecode_success _ _ Hnew) as (_ & [sig' Hsig'] & _).
    rewrite Hsig, Hsig' in *. apply strictEquals_strings in Heq. now subst.
Qed.

(** The steps that give a Valid result. *)
Lemma validateJwt_valid_intro (imports : Imports) (R : Type) (v : Validation R)
    (now errDate : Z) (calls : list Call) (m : JwtObjectWithUnknownProps)
    (critResult : option (list R)) (newJwt : string)
    (newJwtObject : JwtObjectWithUnknownProps) :
  parseAndDecode (jwt v) = inr m ->
  validateJwtObject now m = inr m ->
  handleJwtObject m (critHandlers v) = (calls, inr (m, critResult)) ->
  validateAlgorithm (algorithm v) (algOf m) = true ->
  makeJwt m (key v) = inr newJwt ->
  parseAndDecode newJwt = inr newJwtObject ->
  signature newJwtObject = signature m ->
  validateJwt v now errDate = (calls, Fulfilled (Valid m (jwt v) critResult)).
Proof.
  intros Hdec Hval Hhandle Halg Hmake Hnew Hsig. unfold validateJwt.
  rewrite (tryBlock_afterDispatch v now m calls critResult Hdec Hval Hhandle).
  unfold afterDispatch. rewrite Halg, Hmake. cbn [negb bind]. rewrite Hnew.
  cbn [bind]. rewrite Hsig.
  destruct (parseAndDecode_success _ _ Hdec) as (_ & [sig Hs] & _).
  rewrite Hs. cbn [strictEquals]. now rewrite String.eqb_refl.
Qed.

(** ** Signature comparison *)

Lemma flipByteBit_changes (k : nat) (b : Byte.byte) :
  (k < 8)%nat -> flipByteBit k b <> b.
Proof.
  intros Hk H. apply (f_equal Byte.to_bits) in H. unfold flipByteBit in H.
  destruct (Byte.to_bits b) as (b0 & b1 & b2 & b3 & b4 & b5 & b6 & b7).
  rewrite Byte.to_bits_of_bits in H.
  do 8 (destruct k as [|k]; [injection H; intros; eapply no_fixpoint_negb; eassumption|]).
  lia.
Qed.

Lemma flipBit_changes (u : list Byte.byte) :
  forall index, (index < 8 * length u)%nat -> flipBit index u <> u.
Proof.
  induction u as [|b u IH]; cbn [flipBit length]; intros index Hi; [lia|].
  destruct (Nat.ltb index 8) eqn:Hlt.
  - apply Nat.ltb_lt in Hlt. intros H. injection H as H.
    exact (flipByteBit_changes index b Hlt H).
  - apply Nat.ltb_ge in Hlt. intros H. injection H as H.
    apply (IH (index - 8)%nat); [lia|exact H].
Qed.

Section SignatureComparison.

Context {imports : Imports} {R : Type}.

(** The decoder on an input of three segments. *)
Lemma parseAndDecode_segments (input h p s : string) :
  split input = [h; p; s] ->
  parseAndDecode input =
    let* uh := convertBase64urlToUint8Array h in
    let* up := convertBase64urlToUint8Array p in
    let* us := convertBase64urlToUint8Array s in
    let* hj := parseJson uh in
    let* pj := parseJson up in
    inr {| header := hj; payload := pj;
           signature := JString (convertUint8ArrayToHex us) |}.
Proof.
  intros H. unfold parseAndDecode. rewrite H. cbn [mapThrowing bind].
  destruct (convertBase64urlToUint8Array h) as [e|uh]; cbn [bind]; [reflexivity|].
  destruct (convertBase64urlToUint8Array p) as [e|up]; cbn [bind]; [reflexivity|].
  destruct (convertBase64urlToUint8Array s) as [e|us]; cbn [bind]; [reflexivity|].
  cbn [mapThrowing Nat.eqb bind].
  destruct (parseJson uh) as [e|hj]; cbn [bind]; [reflexivity|].
  destruct (parseJson up) as [e|pj]; cbn [bind]; reflexivity.
Qed.

(** The structural validator looks at the signature only to see that it is
    a string. *)
Lemma validateJwtObject_other_signature (now : Z) (m : JwtObjectWithUnknownProps)
    (sig : string) :
  validateJwtObject now m = inr m ->
  let m' := {| header := header m; payload := payload m; signature := JString sig |} in
  validateJwtObject now m' = inr m'.
Proof.
  intros H m'. unfold validateJwtObject in *. cbn [header payload signature m'].
  destruct (negb (String.eqb (typeof (Json (signature m))) "string")); [discriminate|].
  cbn [typeof String.eqb Ascii.eqb Bool.eqb negb].
  match goal with |- context [negb ?c] => destruct (negb c) end; [discriminate|].
  destruct (isObject (payload m) && hasProperty "exp" (payload m)); [|reflexivity].
  destruct (getProperty (payload m) "exp") as [|[| |exp| | |]|]; try discriminate.
  destruct (isExpired (toNumber exp) (Some (Finite 1)) now); [discriminate|reflexivity].
Qed.

(** The dispatch looks at the header only. *)
Lemma handleJwtObject_same_header (m m' : JwtObjectWithUnknownProps)
    (handlers : option (Handlers R)) (calls : list Call)
    (critResult : option (list R)) :
  header m' = header m ->
  handleJwtObject m handlers = (calls, inr (m, critResult)) ->
  handleJwtObject m' handlers = (calls, inr (m', critResult)).
Proof.
  intros Hh. unfold handleJwtObject. rewrite Hh.
  destruct (hasProperty "crit" (header m)).
  - destruct (checkHeaderCrit (header m) handlers) as [calls' [e|results]];
      cbn [bind]; [discriminate|].
    intros H. injection H as <- <-. reflexivity.
  - intros H. injection H as <- <-. reflexivity.
Qed.

(** When the comparison is reached with two different signatures. *)
Lemma validateJwt_signature_mismatch (v : Validation R) (now errDate : Z)
    (calls : list Call) (m : JwtObjectWithUnknownProps) (critResult : option (list R))
    (newJwt : string) (newJwtObject : JwtObjectWithUnknownProps) :
  parseAndDecode (jwt v) = inr m ->
  validateJwtObject now m = inr m ->
  handleJwtObject m (critHandlers v) = (calls, inr (m, critResult)) ->
  validateAlgorithm (algorithm v) (algOf m) = true ->
  makeJwt m (key v) = inr newJwt ->
  parseAndDecode newJwt = inr newJwtObject ->
  signature m <> signature newJwtObject ->
  validateJwt v now errDate =
    (calls,
     Fulfilled (Invalid (jwt v)
                  {| message := Some "signatures don't match"; date := errDate |}
                  false)).
Proof.
  intros Hdec Hval Hhandle Halg Hmake Hnew Hneq.
  unfold validateJwt.
  rewrite (tryBlock_afterDispatch v now m calls critResult Hdec Hval Hhandle).
  unfold afterDispatch. rewrite Halg, Hmake. cbn [negb bind]. rewrite Hnew.
  cbn [bind].
  destruct (parseAndDecode_success _ _ Hdec) as (_ & [sig Hsig] & _).
  destruct (parseAndDecode_success _ _ Hnew) as (_ & [sig' Hsig'] & _).
  rewrite Hsig, Hsig' in *.
  destruct (strictEquals (JString sig) (JString sig')) eqn:Heq.
  - apply strictEquals_strings in Heq. congruence.
  - reflexivity.
Qed.

End SignatureComparison.

(** C5 (as amended): [validateJwt] returns the Valid shape only if the hex
    signature of the presented token is the same string as the signature
    obtained by signing the decoded header and payload with the key and
    decoding the token so produced.  For a token that passes the structural
    validator, the dispatch and the algorithm gate, and that the signer
    signs, any inequality of the two signatures yields Invalid with
    [isExpired = false].  In particular, inverting any bit of the signature
    bytes of a token that is Valid yields Invalid with [isExpired = false],
    the hex encoder giving different texts for different bytes and the
    signer not reading the presented signature. *)
Theorem signature_must_match (imports : Imports) (R : Type) (v : Validation R)
    (now errDate : Z) :
  (forall calls m j critResult,
      validateJwt v now errDate = (calls, Fulfilled (Valid m j critResult)) ->
      exists newJwt newJwtObject sig,
        parseAndDecode (jwt v) = inr m /\
        makeJwt m (key v) = inr newJwt /\
        parseAndDecode newJwt = inr newJwtObject /\
        signature m = JString sig /\
        signature newJwtObject = JString sig) /\
  (forall calls m critResult newJwt newJwtObject,
      parseAndDecode (jwt v) = inr m ->
      validateJwtObject now m = inr m ->
      handleJwtObject m (critHandlers v) = (calls, inr (m, critResult)) ->
      validateAlgorithm (algorithm v) (algOf m) = true ->
      makeJwt m (key v) = inr newJwt ->
      parseAndDecode newJwt = inr newJwtObject ->
      signature m <> signature newJwtObject ->
      validateJwt v now errDate =
        (calls,
         Fulfilled (Invalid (jwt v)
                      {| message := Some "signatures don't match"; date := errDate |}
                      false))) /\
  (forall calls m j critResult h p s s' us index token,
      validateJwt v now errDate = (calls, Fulfilled (Valid m j critResult)) ->
      hexIsInjective ->
      signerIgnoresSignature ->
      split (jwt v) = [h; p; s] ->
      convertBase64urlToUint8Array s = inr us ->
      (index < 8 * length us)%nat ->
      split token = [h; p; s'] ->
      convertBase64urlToUint8Array s' = inr (flipBit index us) ->
      validateJwt (withJwt v token) now errDate =
        (calls,
         Fulfilled (Invalid token
                      {| message := Some "signatures don't match"; date := errDate |}
                      false))).
Proof.
  split; [|split].
  - intros calls m j critResult H.
    apply validateJwt_valid_inv in H.
    destruct H as (_ & Hdec & _ & _ & _ & newJwt & newJwtObject & Hmake & Hnew & Heq).
    destruct (parseAndDecode_success _ _ Hdec) as (_ & [sig Hsig] & _).
    exists newJwt, newJwtObject, sig. rewrite Heq. auto.
  - intros calls m critResult newJwt newJwtObject.
    apply validateJwt_signature_mismatch.
  - intros calls m j critResult h p s s' us index token
      Hvalid Hhex Hsigner Hsplit Hs Hindex Hsplit' Hs'.
    apply validateJwt_valid_inv in Hvalid.
    destruct Hvalid
      as (_ & Hdec & Hval & Hhandle & Halg & newJwt & newJwtObject & Hmake & Hnew & Heq).
    rewrite (parseAndDecode_segments _ _ _ _ Hsplit), Hs in Hdec.
    pose proof (parseAndDecode_segments token _ _ _ Hsplit') as Hdec'.
    rewrite Hs' in Hdec'.
    destruct (convertBase64urlToUint8Array h) as [e|uh]; cbn [bind] in *; [discriminate|].
    destruct (convertBase64urlToUint8Array p) as [e|up]; cbn [bind] in *; [discriminate|].
    destruct (parseJson uh) as [e|hj]; cbn [bind] in *; [discriminate|].
    destruct (parseJson up) as [e|pj]; cbn [bind] in *; [discriminate|].
    injection Hdec as <-. cbn [header payload signature] in *.
    set (m := {| header := hj; payload := pj;
                 signature := JString (convertUint8ArrayToHex us) |}) in *.
    set (m' := {| header := hj; payload := pj;
                  signature := JString (convertUint8ArrayToHex (flipBit index us)) |}) in *.
    apply (validateJwt_signature_mismatch (withJwt v token) now errDate calls m'
             critResult newJwt newJwtObject).
    + exact Hdec'.
    + exact (validateJwtObject_other_signature now m _ Hval).
    + exact (handleJwtObject_same_header m m' _ calls critResult eq_refl Hhandle).
    + exact Halg.
    + cbn [key withJwt]. rewrite <- Hmake. now apply Hsigner.
    + exact Hnew.
    + rewrite Heq. cbn [signature m m']. intros H. injection H as H.
      apply Hhex in H. exact (flipBit_changes us index Hindex H).
Qed.

Lemma hexDigit_injective (a b : N) :
  (a < 16)%N -> (b < 16)%N -> Bench.hexDigit a = Bench.hexDigit b -> a = b.
Proof.
  intros Ha Hb H. apply (f_equal N_of_ascii) in H. unfold Bench.hexDigit in H.
  destruct (N.ltb_spec a 10), (N.ltb_spec b 10);
    rewrite !N_ascii_embedding in H by lia; lia.
Qed.

Lemma bench_hex_injective : hexIsInjective (imports := Bench.imports).
Proof.
  intros u. induction u as [|a u IH]; intros [|b w]; cbn; try discriminate;
    [reflexivity|].
  intros H. injection H as H1 H2 H3.
  pose proof (Byte.to_N_bounded a). pose proof (Byte.to_N_bounded b).
  apply hexDigit_injective in H1; [|apply N.Div0.div_lt_upper_bound; lia
                                   |apply N.Div0.div_lt_upper_bound; lia].
  apply hexDigit_injective in H2; [|apply N.mod_lt; lia|apply N.mod_lt; lia].
  assert (Hab : Byte.to_N a = Byte.to_N b).
  { rewrite (N.div_mod (Byte.to_N a) 16), (N.div_mod (Byte.to_N b) 16) by lia.
    now rewrite H1, H2. }
  assert (Some a = Some b) by (rewrite <- !Byte.of_to_N; now rewrite Hab).
  f_equal; [congruence|now apply IH].
Qed.

Lemma bench_signer_ignores_signature : signerIgnoresSignature (imports := Bench.imports).
Proof. intros m m' key _ _. reflexivity. Qed.

Lemma signature_must_match_witness :
  validateJwt (imports := Bench.imports) (Bench.request "hs256.empty.j3y" None)
    10000 20000 =
    ([], Fulfilled (Invalid (R := string) "hs256.empty.j3y"
                      {| message := Some "signatures don't match"; date := 20000 |}
                      false)).
Proof.
  exact (proj2 (proj2 (signature_must_match Bench.imports string
                         (Bench.request "hs256.empty.k3y" None) 10000 20000))
           [] {| header := JObject [("alg", JString "HS256")];
                 payload := JObject [];
                 signature := JString "6b3379" |}
           "hs256.empty.k3y" None "hs256" "empty" "k3y" "j3y"
           (list_byte_of_string "k3y") 0%nat "hs256.empty.j3y"
           eq_refl bench_hex_injective bench_signer_ignores_signature
           eq_refl eq_refl ltac:(cbn; lia) eq_refl eq_refl).
Defined.

(** An unequal signature does not by itself decide the flag: a token whose
    signature differs from the re-derived one and whose [exp] has passed is
    rejected by the structural validator, before any signature is compared,
    and [validateJwt] reports it with [isExpired = true]. *)
Lemma tampered_expired_token :
  let m := {| header := JObject [("alg", JString "HS256")];
              payload := JObject [("exp", JNumber 1)];
              signature := JString "6b337a" |} in
  parseAndDecode (imports := Bench.imports) "hs256.old.k3z" = inr m /\
  (exists newJwt newJwtObject,
      makeJwt (Imports := Bench.imports) m "k3y" = inr newJwt /\
      parseAndDecode (imports := Bench.imports) newJwt = inr newJwtObject /\
      signature m <> signature newJwtObject) /\
  validateJwt (imports := Bench.imports) (Bench.request "hs256.old.k3z" None)
    10000 20000 =
    ([], Fulfilled (Invalid (R := string) "hs256.old.k3z"
                      {| message := Some expiredMessage; date := 20000 |} true)).
Proof.
  intros m. split; [reflexivity|]. split; [|reflexivity].
  exists "hs256.empty.k3y",
    {| header := JObject [("alg", JString "HS256")];
       payload := JObject [];
       signature := JString "6b3379" |}.
  split; [reflexivity|]. split; [reflexivity|discriminate].
Qed.

(** X14: no handler is called for a token that does not decode, or that the
    structural validator rejects (an expired token among them), or whose
    [crit] fails one of the dispatcher's checks: any call made by
    [validateJwt] comes after all of these have passed, and the calls follow
    the [crit] list. *)
Theorem handlers_need_validated_token (imports : Imports) (R : Type)
    (v : Validation R) (now errDate : Z) (calls : list Call)
    (r : Settled (JwtValidation R)) :
  validateJwt v now errDate = (calls, r) ->
  calls <> [] ->
  exists m,
    parseAndDecode (jwt v) = inr m /\
    validateJwtObject now m = inr m /\
    passesChecks (header m) (critHandlers v) (critEntries (header m)) /\
    exists n, calls = firstn n (map (callFor (header m)) (critEntries (header m))).
Proof.
  intros H Hcalls. unfold validateJwt in H.
  destruct (tryBlock v now) as [calls' r'] eqn:Htry. injection H as <- _.
  assert (Hgoal : forall m r0,
             parseAndDecode (jwt v) = inr m -> validateJwtObject now m = inr m ->
             handleJwtObject m (critHandlers v) = (calls', r0) ->
             exists m,
               parseAndDecode (jwt v) = inr m /\
               validateJwtObject now m = inr m /\
               passesChecks (header m) (critHandlers v) (critEntries (header m)) /\
               exists n, calls' = firstn n (map (callFor (header m)) (critEntries (header m)))).
  { intros m r0 Hdec Hval Hhandle.
    destruct (handleJwtObject_calls m _ _ _ Hhandle Hcalls) as [r1 Hcheck].
    pose proof (checkHeaderCrit_checks_passed _ _ _ _ Hcheck (or_introl Hcalls)) as Hpass.
    exists m. repeat (split; [assumption|]).
    rewrite (checkHeaderCrit_passesChecks _ _ _ Hpass) in Hcheck.
    destruct (callHandlers (header m) (critHandlers v) (critEntries (header m)))
      as [calls0 r2] eqn:Hc.
    cbn [fst snd] in Hcheck. injection Hcheck as <- _.
    exact (callHandlers_prefix _ _ _ _ _ Hc). }
  destruct (tryBlock_cases v now calls' r' Htry)
    as [(e & _ & Hc & _)|[(m & e & _ & _ & Hc & _)|[(m & e & Hdec & Hval & Hh & _)
       |(m & cr & Hdec & Hval & Hh & _)]]]; try contradiction; eauto.
Qed.

Lemma handlers_need_validated_token_witness :
  exists m,
    parseAndDecode (imports := Bench.imports) "critX.empty.k3z" = inr m /\
    validateJwtObject 10000 m = inr m.
Proof.
  destruct (handlers_need_validated_token Bench.imports string
              (Bench.request "critX.empty.k3z" (Some (Bench.returning "x" "ok")))
              10000 20000 [("x", Json (JNumber 1))]
              (Fulfilled (Invalid "critX.empty.k3z"
                            {| message := Some "signatures don't match"; date := 20000 |}
                            false))
              eq_refl)
    as (m & Hdec & Hval & _).
  - discriminate.
  - exists m. split; assumption.
Defined.

(** X15: the handlers run before the algorithm gate and before the
    signature is compared.  A token whose declared algorithm is not allowed
    is answered with "no matching algorithm: " followed by that algorithm,
    after the handlers of its [crit] entries have been called with the
    header values of the unverified token. *)
Theorem handlers_run_before_algorithm_gate (imports : Imports) (R : Type)
    (v : Validation R) (now errDate : Z) (m : JwtObjectWithUnknownProps)
    (calls : list Call) (critResult : option (list R)) :
  parseAndDecode (jwt v) = inr m ->
  validateJwtObject now m = inr m ->
  handleJwtObject m (critHandlers v) = (calls, inr (m, critResult)) ->
  validateAlgorithm (algorithm v) (algOf m) = false ->
  validateJwt v now errDate =
    (calls,
     Fulfilled (Invalid (jwt v)
                  {| message := Some ("no matching algorithm: " ++ algOf m)%string;
                     date := errDate |}
                  false)).
Proof.
  intros Hdec Hval Hhandle Halg. unfold validateJwt.
  rewrite (tryBlock_afterDispatch v now m calls critResult Hdec Hval Hhandle).
  unfold afterDispatch. rewrite Halg. cbn [negb]. unfold Error.
  rewrite catchBlock_ErrorObject. reflexivity.
Qed.

Lemma handlers_run_before_algorithm_gate_witness :
  validateJwt (imports := Bench.imports)
    (Cases.requestHS512 "critX.empty.k3y" (Some (Bench.returning "x" "ok")))
    10000 20000 =
    ([("x", Json (JNumber 1))],
     Fulfilled (Invalid "critX.empty.k3y"
                  {| message := Some "no matching algorithm: HS256"; date := 20000 |}
                  false)).
Proof.
  exact (handlers_run_before_algorithm_gate Bench.imports string
           (Cases.requestHS512 "critX.empty.k3y" (Some (Bench.returning "x" "ok")))
           10000 20000
           {| header := JObject [("alg", JString "HS256");
                                 ("crit", JArray [JString "x"]); ("x", JNumber 1)];
              payload := JObject [];
              signature := JString "6b3379" |}
           [("x", Json (JNumber 1))] (Some ["ok"])
           eq_refl eq_refl eq_refl eq_refl).
Defined.

(** X16: [validateJwt] answers Valid exactly when every step succeeds: the
    token decodes, passes the structural validator and the dispatch, its
    [alg] is allowed, the signer produces a token that decodes, and that
    token's signature is the presented one.  The Valid result then carries
    the decoded header, payload and signature of the presented token, the
    presented string itself, and the handlers' outputs. *)
Theorem validateJwt_valid_iff (imports : Imports) (R : Type) (v : Validation R)
    (now errDate : Z) (calls : list Call) (m : JwtObjectWithUnknownProps)
    (j : string) (critResult : option (list R)) :
  validateJwt v now errDate = (calls, Fulfilled (Valid m j critResult)) <->
  j = jwt v /\
  parseAndDecode (jwt v) = inr m /\
  validateJwtObject now m = inr m /\
  handleJwtObject m (critHandlers v) = (calls, inr (m, critResult)) /\
  validateAlgorithm (algorithm v) (algOf m) = true /\
  exists newJwt newJwtObject,
    makeJwt m (key v) = inr newJwt /\
    parseAndDecode newJwt = inr newJwtObject /\
    signature newJwtObject = signature m.
Proof.
  split.
  - apply validateJwt_valid_inv.
  - intros (-> & Hdec & Hval & Hhandle & Halg & newJwt & newJwtObject & Hmake & Hnew & Hsig).
    exact (validateJwt_valid_intro imports R v now errDate calls m critResult
             newJwt newJwtObject Hdec Hval Hhandle Halg Hmake Hnew Hsig).
Qed.

(** X17: the verdict depends on the presented string only through its
    decoding.  Two strings that decode to the same header, payload and
    signature bytes (a decoder may accept several spellings of a segment)
    are both Valid or both not, with the same decoded fields and handler
    outputs, each result echoing its own string. *)
Theorem verdict_depends_on_decoding (imports : Imports) (R : Type)
    (v : Validation R) (token : string) (now errDate : Z) (calls : list Call)
    (m : JwtObjectWithUnknownProps) (critResult : option (list R)) :
  parseAndDecode token = parseAndDecode (jwt v) ->
  validateJwt v now errDate = (calls, Fulfilled (Valid m (jwt v) critResult)) <->
  validateJwt (withJwt v token) now errDate =
    (calls, Fulfilled (Valid m token critResult)).
Proof.
  intros Hsame. split; intros H; apply validateJwt_valid_inv in H;
    destruct H as (_ & Hdec & Hval & Hhandle & Halg & newJwt & newJwtObject
                   & Hmake & Hnew & Hsig).
  - apply (validateJwt_valid_intro imports R (withJwt v token) now errDate calls m
             critResult newJwt newJwtObject); cbn [withJwt jwt key algorithm critHandlers];
      try assumption. congruence.
  - cbn [withJwt jwt key algorithm critHandlers] in *.
    apply (validateJwt_valid_intro imports R v now errDate calls m
             critResult newJwt newJwtObject); try assumption. congruence.
Qed.

Lemma verdict_depends_on_decoding_witness :
  validateJwt (imports := Cases.paddedImports)
    (Bench.request "hs256.empty.k3y==" None) 10000 20000 =
    ([], Fulfilled (Valid {| header := JObject [("alg", JString "HS256")];
                             payload := JObject [];
                             signature := JString "6b3379" |}
                      "hs256.empty.k3y==" None)).
Proof.
  exact (proj1 (verdict_depends_on_decoding Cases.paddedImports string
                  (Bench.request "hs256.empty.k3y" None) "hs256.empty.k3y=="
                  10000 20000 []
                  {| header := JObject [("alg", JString "HS256")];
                     payload := JObject [];
                     signature := JString "6b3379" |} None eq_refl)
           eq_refl).
Defined.

(** X18: when the decoded header has no [crit], the handler table plays no
    part: whatever table is supplied, or none, [validateJwt] makes no call
    and gives the same result. *)
Theorem handlers_ignored_without_crit (imports : Imports) (R : Type)
    (v : Validation R) (now errDate : Z) (m : JwtObjectWithUnknownProps)
    (others : option (Handlers R)) :
  parseAndDecode (jwt v) = inr m ->
  hasProperty "crit" (header m) = false ->
  validateJwt (withHandlers v others) now errDate = validateJwt v now errDate /\
  fst (validateJwt v now errDate) = [].
Proof.
  intros Hdec Hno. unfold validateJwt, tryBlock.
  cbn [withHandlers jwt key algorithm critHandlers]. rewrite Hdec. cbn [bind].
  destruct (validateJwtObject now m) as [e|m'] eqn:Hval.
  - split; reflexivity.
  - assert (m' = m) as -> by exact (validateJwtObject_returns_argument now m m' Hval).
    rewrite !(handleJwtObject_without_crit m _ Hno). split; reflexivity.
Qed.

Lemma handlers_ignored_without_crit_witness :
  validateJwt (imports := Bench.imports)
    (withHandlers (Bench.request "hs256.empty.k3y" None)
       (Some (Bench.throwing "x" NullOrUndefined))) 10000 20000 =
  validateJwt (imports := Bench.imports) (Bench.request "hs256.empty.k3y" None)
    10000 20000.
Proof.
  exact (proj1 (handlers_ignored_without_crit Bench.imports string
                  (Bench.request "hs256.empty.k3y" None) 10000 20000
                  {| header := JObject [("alg", JString "HS256")];
                     payload := JObject [];
                     signature := JString "6b3379" |}
                  (Some (Bench.throwing "x" NullOrUndefined)) eq_refl eq_refl)).
Defined.

(** X19: a failure of the signer while the signature is re-derived (a key
    it refuses, an algorithm it does not know) is caught like any other: the
    result is Invalid and carries the signer's own message; and so is a
    freshly signed token that does not decode. *)
Theorem signer_failure_is_invalid (imports : Imports) (R : Type)
    (v : Validation R) (now errDate : Z) (m : JwtObjectWithUnknownProps)
    (calls : list Call) (critResult : option (list R)) :
  parseAndDecode (jwt v) = inr m ->
  validateJwtObject now m = inr m ->
  handleJwtObject m (critHandlers v) = (calls, inr (m, critResult)) ->
  validateAlgorithm (algorithm v) (algOf m) = true ->
  (forall name msg,
      makeJwt m (key v) = inl (ErrorObject name msg) ->
      validateJwt v now errDate =
        (calls,
         Fulfilled (Invalid (jwt v) {| message := Some msg; date := errDate |}
                      (String.eqb msg expiredMessage)))) /\
  (forall newJwt name msg,
      makeJwt m (key v) = inr newJwt ->
      parseAndDecode newJwt = inl (ErrorObject name msg) ->
      validateJwt v now errDate =
        (calls,
         Fulfilled (Invalid (jwt v) {| message := Some msg; date := errDate |}
                      (String.eqb msg expiredMessage)))).
Proof.
  intros Hdec Hval Hhandle Halg.
  split; [intros name msg Hmake|intros newJwt name msg Hmake Hnew];
    unfold validateJwt;
    rewrite (tryBlock_afterDispatch v now m calls critResult Hdec Hval Hhandle);
    unfold afterDispatch; rewrite Halg, Hmake; cbn [negb bind];
    [|rewrite Hnew; cbn [bind]]; now rewrite catchBlock_ErrorObject.
Qed.

Lemma signer_failure_is_invalid_witness :
  validateJwt (imports := Cases.refusingImports)
    (Bench.request "hs256.empty.k3y" None) 10000 20000 =
    ([], Fulfilled (Invalid (R := string) "hs256.empty.k3y"
                      {| message := Some "Failed to create JWT: no such key";
                         date := 20000 |}
                      false)).
Proof.
  exact (proj1 (signer_failure_is_invalid Cases.refusingImports string
                  (Bench.request "hs256.empty.k3y" None) 10000 20000
                  {| header := JObject [("alg", JString "HS256")];
                     payload := JObject [];
                     signature := JString "6b3379" |}
                  [] None eq_refl eq_refl eq_refl eq_refl)
           "Error" "Failed to create JWT: no such key" eq_refl).
Defined.

(** X20: a token that is Valid at some time was Valid, with the same fields
    and outputs, at every earlier time: the only date [validateJwt] looks at
    is [exp]. *)
Theorem valid_at_earlier_times (imports : Imports) (R : Type) (v : Validation R)
    (now now' errDate : Z) (calls : list Call) (m : JwtObjectWithUnknownProps)
    (j : string) (critResult : option (list R)) :
  (now <= now')%Z ->
  validateJwt v now' errDate = (calls, Fulfilled (Valid m j critResult)) ->
  validateJwt v now errDate = (calls, Fulfilled (Valid m j critResult)).
Proof.
  intros Hle H. apply validateJwt_valid_inv in H.
  destruct H as (-> & Hdec & Hval & Hhandle & Halg & newJwt & newJwtObject
                 & Hmake & Hnew & Hsig).
  apply (validateJwt_valid_intro imports R v now errDate calls m critResult
           newJwt newJwtObject); try assumption.
  exact (validateJwtObject_accepted_earlier now now' m Hle Hval).
Qed.

Lemma valid_at_earlier_times_witness :
  validateJwt (imports := Bench.imports) (Bench.request "hs256.old.k3y" None) 0 20000 =
    ([], Fulfilled (Valid {| header := JObject [("alg", JString "HS256")];
                             payload := JObject [("exp", JNumber 1)];
                             signature := JString "6b3379" |}
                      "hs256.old.k3y" None)).
Proof.
  refine (valid_at_earlier_times Bench.imports string
            (Bench.request "hs256.old.k3y" None) 0 2000 20000 [] _ _ None _ eq_refl).
  lia.
Defined.

(** X21: whatever the outcome, a fulfilled result echoes the presented
    string in its [jwt] field; an Invalid result carries the date at which
    the error record was built, the message of the caught value, and the
    [isExpired] flag computed from that message alone. *)
Theorem result_echoes_input (imports : Imports) (R : Type) (v : Validation R)
    (now errDate : Z) (calls : list Call) :
  (forall m j critResult,
      validateJwt v now errDate = (calls, Fulfilled (Valid m j critResult)) ->
      j = jwt v /\ parseAndDecode (jwt v) = inr m) /\
  (forall j err b,
      validateJwt v now errDate = (calls, Fulfilled (Invalid j err b)) ->
      j = jwt v /\ date err = errDate /\ b = isExpiredMessage (message err) /\
      exists e, tryBlock v now = (calls, inl e) /\ readMessage e = inr (message err)).
Proof.
  split.
  - intros m j critResult H. apply validateJwt_valid_inv in H. tauto.
  - intros j err b H. unfold validateJwt in H.
    destruct (tryBlock v now) as [calls' r] eqn:Htry. injection H as <- Hr.
    destruct r as [e|result].
    + apply catchBlock_invalid in Hr. destruct Hr as (Hj & Hd & Hm & Hb).
      repeat (split; [assumption|]). eauto.
    + injection Hr as ->.
      destruct (tryBlock_cases v now calls' _ Htry)
        as [(e & _ & _ & Hr)|[(m0 & e & _ & _ & _ & Hr)|[(m0 & e & _ & _ & _ & Hr)
           |(m0 & cr & _ & _ & _ & Hr)]]]; try discriminate.
      symmetry in Hr. apply afterDispatch_success in Hr.
      destruct Hr as (_ & _ & _ & _ & _ & _ & Hres). discriminate.
Qed.

Lemma result_echoes_input_witness :
  exists e,
    tryBlock (imports := Bench.imports) (Bench.request "critX.empty.k3y" None) 10000 =
      ([], inl e) /\
    readMessage e =
      inr (Some "critical extension header parameters are not understood").
Proof.
  destruct (proj2 (result_echoes_input Bench.imports string
                     (Bench.request "critX.empty.k3y" None) 10000 20000 [])
              "critX.empty.k3y"
              {| message := Some "critical extension header parameters are not understood";
                 date := 20000 |}
              false eq_refl)
    as (_ & _ & _ & e & Htry & Hmsg).
  exists e. split; assumption.
Defined.

(** X22: round trip with the signer.  If signing the decoded header and
    payload with the verification key gives back the presented string, and
    the token passes the structural validator, the dispatch and the
    algorithm gate, then the result is Valid, with the decoded fields and
    the presented string. *)
Theorem signed_token_verifies (imports : Imports) (R : Type) (v : Validation R)
    (now errDate : Z) (m : JwtObjectWithUnknownProps) (calls : list Call)
    (critResult : option (list R)) :
  parseAndDecode (jwt v) = inr m ->
  makeJwt m (key v) = inr (jwt v) ->
  validateJwtObject now m = inr m ->
  handleJwtObject m (critHandlers v) = (calls, inr (m, critResult)) ->
  validateAlgorithm (algorithm v) (algOf m) = true ->
  validateJwt v now errDate = (calls, Fulfilled (Valid m (jwt v) critResult)).
Proof.
  intros Hdec Hmake Hval Hhandle Halg.
  exact (validateJwt_valid_intro imports R v now errDate calls m critResult
           (jwt v) m Hdec Hval Hhandle Halg Hmake Hdec eq_refl).
Qed.

Lemma signed_token_verifies_witness :
  validateJwt (imports := Bench.imports)
    (Bench.request "hs256.empty.k3y" None) 10000 20000 =
    ([], Fulfilled (Valid {| header := JObject [("alg", JString "HS256")];
                             payload := JObject [];
                             signature := JString "6b3379" |}
                      "hs256.empty.k3y" None)).
Proof.
  exact (signed_token_verifies Bench.imports string
           (Bench.request "hs256.empty.k3y" None) 10000 20000
           {| header := JObject [("alg", JString "HS256")];
              payload := JObject [];
              signature := JString "6b3379" |}
           [] None eq_refl eq_refl eq_refl eq_refl eq_refl).
Defined.

(** X23: what a Valid result vouches for.  The header is an object whose
    [alg] is a string that the allow-list admits; the payload carries no
    numeric [exp] that is more than one second in the past; and the handler
    outputs are absent exactly when the header has no [crit], otherwise the
    [crit] list passed the three checks and there is one output per
    entry. *)
Theorem valid_result_guarantees (imports : Imports) (R : Type) (v : Validation R)
    (now errDate : Z) (calls : list Call) (m : JwtObjectWithUnknownProps)
    (j : string) (critResult : option (list R)) :
  validateJwt v now errDate = (calls, Fulfilled (Valid m j critResult)) ->
  (exists members,
      header m = JObject members /\
      ownProperty "alg" members = Some (JString (algOf m))) /\
  validateAlgorithm (algorithm v) (algOf m) = true /\
  ~ expClaimPassed now m /\
  (critResult = None <-> hasProperty "crit" (header m) = false) /\
  (forall results,
      critResult = Some results ->
      passesChecks (header m) (critHandlers v) (critEntries (header m)) /\
      length results = length (critEntries (header m)) /\
      length calls = length (critEntries (header m))).
Proof.
  intros H. apply validateJwt_valid_inv in H.
  destruct H as (_ & Hdec & Hval & Hhandle & Halg & _).
  assert (Hst : signedAndTyped m)
    by (apply (validateJwtObject_past_header now); rewrite Hval; discriminate).
  split; [|split; [exact Halg|split; [|split]]].
  - destruct Hst as (sig & members & alg & _ & Hh & Ha). exists members.
    split; [exact Hh|]. unfold algOf, getProperty. now rewrite Hh, Ha.
  - intros Hexp.
    assert (Hx : validateJwtObject now m = inl (RangeError expiredMessage))
      by (apply validateJwtObject_expired_iff; auto).
    congruence.
  - unfold handleJwtObject in Hhandle.
    destruct (hasProperty "crit" (header m)).
    + destruct (checkHeaderCrit (header m) (critHandlers v)) as [calls' [e|results]];
        cbn [bind] in Hhandle; [discriminate|].
      injection Hhandle as _ <-. split; discriminate.
    + injection Hhandle as _ <-. split; reflexivity.
  - intros results ->. unfold handleJwtObject in Hhandle.
    destruct (hasProperty "crit" (header m)); [|discriminate].
    destruct (checkHeaderCrit (header m) (critHandlers v)) as [calls' [e|results']]
      eqn:Hcheck; cbn [bind] in Hhandle; [discriminate|].
    injection Hhandle as <- <-.
    split.
    + apply (checkHeaderCrit_checks_passed _ _ _ _ Hcheck). right. eauto.
    + destruct (checkHeaderCrit_success _ _ _ _ Hcheck)
        as (crit & Hcrit & _ & _ & -> & HF).
      unfold critEntries. rewrite Hcrit. split.
      * symmetry. exact (Forall2_length HF).
      * apply length_map.
Qed.

Lemma valid_result_guarantees_witness :
  validateAlgorithm (OneAlgorithm "HS256")
    (algOf {| header := JObject [("alg", JString "HS256");
                                 ("crit", JArray [JString "x"]); ("x", JNumber 1)];
              payload := JObject [];
              signature := JString "6b3379" |}) = true.
Proof.
  exact (proj1 (proj2 (valid_result_guarantees Bench.imports string
                         (Bench.request "critX.empty.k3y" (Some (Bench.returning "x" "ok")))
                         10000 20000 [("x", Json (JNumber 1))]
                         {| header := JObject [("alg", JString "HS256");
                                               ("crit", JArray [JString "x"]);
                                               ("x", JNumber 1)];
                            payload := JObject [];
                            signature := JString "6b3379" |}
                         "critX.empty.k3y" (Some ["ok"]) eq_refl))).
Defined.
